(** * The call-session engine of [voip_sip_client.js], embedded in Rocq

    Every definition below is a transcription of a method of the class
    [VoipSipClient] (static/src/js/voip_sip_client.js).  A method that
    only touches a few fields of [this] is written over a record holding
    exactly those fields; a callback handed to SIP.js (a request delegate)
    is a function of its own, run when the library invokes it; an [async]
    method is cut at its [await]s into the pieces that run without
    interruption.  JavaScript numbers that the code only uses as integers
    are [Z]; a property that may be [undefined] is an [option]. *)

From Stdlib Require Import ZArith Lia Bool Ascii String.
From stdpp Require Import base option list gmap strings.

Local Open Scope Z_scope.

(** ** Values shared by the modules *)

(** A thrown JavaScript [Error]: its [name] and its [message]. *)
Record JsError := mkError { err_name : string; err_message : string }.

Definition Error (msg : string) : JsError := mkError "Error" msg.
Definition TypeError (msg : string) : JsError := mkError "TypeError" msg.

(** The outcome of a call: the returned value or the thrown error. *)
Inductive completion (A : Type) : Type :=
| Return : A -> completion A
| Throw : JsError -> completion A.
Arguments Return {A} _.
Arguments Throw {A} _.

Definition is_throw {A} (c : completion A) : bool :=
  match c with Throw _ => true | Return _ => false end.

(** [a || b] on strings: the empty string and [undefined] are falsy. *)
Definition str_or (a : option string) (b : string) : string :=
  match a with
  | Some s => if decide (s = "") then b else s
  | None => b
  end.

(** [s.includes(needle)]. *)
Fixpoint includes (needle s : string) : bool :=
  String.prefix needle s ||
  match s with
  | EmptyString => false
  | String _ rest => includes needle rest
  end.

(** ** Retry policy: [scheduleRetry] (lines 194-205) *)

Module Retry.

(** The fields set at lines 57-59 of the constructor, and the timers
    armed by [setTimeout]: each is the delay in milliseconds and the
    context that [retry] will receive. *)
Record state := mkState {
  retryCount : Z;
  maxRetries : Z;
  retryDelay : Z;
  timers : list (Z * string)
}.

Definition constructor : state :=
  {| retryCount := 0; maxRetries := 3; retryDelay := 1000; timers := [] |}.

Definition scheduleRetry (context : string) (s : state) : state :=
  if retryCount s <? maxRetries s then
    let count := retryCount s + 1 in
    let delay := retryDelay s * 2 ^ (count - 1) in
    {| retryCount := count;
       maxRetries := maxRetries s;
       retryDelay := retryDelay s;
       timers := timers s ++ [(delay, context)] |}
  else
    {| retryCount := 0;
       maxRetries := maxRetries s;
       retryDelay := retryDelay s;
       timers := timers s |}.

(** [n] retryable errors in a row, each handled by [scheduleRetry]. *)
Fixpoint retries (n : nat) (context : string) (s : state) : state :=
  match n with
  | O => s
  | S n' => scheduleRetry context (retries n' context s)
  end.

End Retry.

(** ** Indicator tones (lines 673-691 and 827-874) *)

Module Tones.

(** What the code observes of an [HTMLAudioElement]: whether it is
    paused and its playback position. *)
Record Audio := mkAudio { paused : bool; currentTime : Z }.

(** [new Audio()]: a paused element at position zero. *)
Definition newAudio : Audio := {| paused := true; currentTime := 0 |}.

Definition pause (a : Audio) : Audio :=
  {| paused := true; currentTime := currentTime a |}.

Definition set_currentTime (t : Z) (a : Audio) : Audio :=
  {| paused := paused a; currentTime := t |}.

(** [a.play().catch(...)]: playback starts when the browser allows it
    ([allowed]); otherwise the promise is rejected, the rejection is
    swallowed and the element stays as it was. *)
Definition play (allowed : bool) (a : Audio) : Audio :=
  if allowed then {| paused := false; currentTime := currentTime a |} else a.

Record state := mkState {
  ringbackTone : Audio;
  busyTone : Audio;
  ringTone : Audio
}.

(** [initCallTones]: the three elements always exist after the
    constructor, so nothing in [stopAllTones] can throw. *)
Definition initCallTones : state :=
  {| ringbackTone := newAudio; busyTone := newAudio; ringTone := newAudio |}.

Definition stopAllTones (s : state) : state :=
  {| ringbackTone := set_currentTime 0 (pause (ringbackTone s));
     busyTone := set_currentTime 0 (pause (busyTone s));
     ringTone := set_currentTime 0 (pause (ringTone s)) |}.

Definition playRingbackTone (allowed : bool) (s : state) : state :=
  let s := stopAllTones s in
  {| ringbackTone := play allowed (ringbackTone s);
     busyTone := busyTone s;
     ringTone := ringTone s |}.

Definition playBusyTone (allowed : bool) (s : state) : state :=
  let s := stopAllTones s in
  {| ringbackTone := ringbackTone s;
     busyTone := play allowed (busyTone s);
     ringTone := ringTone s |}.

Definition playRingTone (allowed : bool) (s : state) : state :=
  let s := stopAllTones s in
  {| ringbackTone := ringbackTone s;
     busyTone := busyTone s;
     ringTone := play allowed (ringTone s) |}.

(** Time passing: the position of an element that plays advances. *)
Definition advance (dt : Z) (a : Audio) : Audio :=
  if paused a then a
  else {| paused := false; currentTime := currentTime a + dt |}.

(** The operations on the tones, and time passing while one plays. *)
Inductive op :=
| PlayRingback (allowed : bool)
| PlayBusy (allowed : bool)
| PlayRing (allowed : bool)
| StopAll
| Tick (dt : Z).

Definition apply (o : op) (s : state) : state :=
  match o with
  | PlayRingback a => playRingbackTone a s
  | PlayBusy a => playBusyTone a s
  | PlayRing a => playRingTone a s
  | StopAll => stopAllTones s
  | Tick dt =>
      {| ringbackTone := advance dt (ringbackTone s);
         busyTone := advance dt (busyTone s);
         ringTone := advance dt (ringTone s) |}
  end.

Definition run (ops : list op) (s : state) : state :=
  fold_left (fun s o => apply o s) ops s.

Definition playing (a : Audio) : bool := negb (paused a).

(** How many of the three tones are playing. *)
Definition playing_count (s : state) : nat :=
  ((if playing (ringbackTone s) then 1 else 0) +
   (if playing (busyTone s) then 1 else 0) +
   (if playing (ringTone s) then 1 else 0))%nat.

Definition silenced (a : Audio) : Prop :=
  paused a = true /\ currentTime a = 0.

End Tones.

(** ** Recording: [startRecording], [stopRecording], [saveRecording]
    (lines 1505-1627 and 2131-2316) *)

Module Recording.

(** A [Blob] is its bytes; [blob.size] is their number. *)
Definition Blob := list Byte.byte.
Definition size (b : Blob) : Z := Z.of_nat (length b).

Inductive RecorderState := inactive | recording.

(** The [MediaRecorder] created by [startRecording]: its [state], and
    whether [stop()] has been called and the [stop] event has not been
    delivered to [onstop] yet. *)
Record MediaRecorder := mkRecorder {
  rstate : RecorderState;
  stop_pending : bool
}.

(** The fields of [this] that the recording methods use.  The two flags
    are only ever tested for truthiness, so [undefined] (their value
    before the first [startRecording]) is [false] here. *)
Record state := mkState {
  mediaRecorder : option MediaRecorder;
  recordedChunks : list Blob;
  recordingSaved : bool;
  recordingSaving : bool;
  callStartTime : option Z;
  callEndTime : option Z;
  odooCallId : option string
}.

Definition set_saving (b : bool) (s : state) : state :=
  {| mediaRecorder := mediaRecorder s; recordedChunks := recordedChunks s;
     recordingSaved := recordingSaved s; recordingSaving := b;
     callStartTime := callStartTime s; callEndTime := callEndTime s;
     odooCallId := odooCallId s |}.

Definition set_saved (b : bool) (s : state) : state :=
  {| mediaRecorder := mediaRecorder s; recordedChunks := recordedChunks s;
     recordingSaved := b; recordingSaving := recordingSaving s;
     callStartTime := callStartTime s; callEndTime := callEndTime s;
     odooCallId := odooCallId s |}.

Definition set_recorder (r : option MediaRecorder) (s : state) : state :=
  {| mediaRecorder := r; recordedChunks := recordedChunks s;
     recordingSaved := recordingSaved s; recordingSaving := recordingSaving s;
     callStartTime := callStartTime s; callEndTime := callEndTime s;
     odooCallId := odooCallId s |}.

Definition set_chunks (l : list Blob) (s : state) : state :=
  {| mediaRecorder := mediaRecorder s; recordedChunks := l;
     recordingSaved := recordingSaved s; recordingSaving := recordingSaving s;
     callStartTime := callStartTime s; callEndTime := callEndTime s;
     odooCallId := odooCallId s |}.

(** [getCallDuration] (lines 1622-1627); a start time of 0 is falsy. *)
Definition getCallDuration (now : Z) (s : state) : Z :=
  match callStartTime s with
  | Some t => if t =? 0 then 0 else (now - t) / 1000
  | None => 0
  end.

Definition totalSize (chunks : list Blob) : Z :=
  fold_left (fun sum chunk => sum + size chunk) chunks 0.

(** The [POST] to /voip_webrtc_freepbx/save_recording: the form fields. *)
Record Request := mkRequest {
  req_recording : Blob;
  req_call_id : string;
  req_duration : Z
}.

(** *** [saveRecording], cut at its awaits *)

(** Up to [await fetch(...)].  [None]: the call returned (through the
    [finally] block) without a request; [Some r]: the request [r] was
    sent and the call waits for its response. *)
Definition saveRecording_start (now : Z) (s : state)
  : state * option Request :=
  if recordingSaved s || recordingSaving s then
    (set_saving false s, None)
  else if bool_decide (recordedChunks s = []) then
    (set_saving false s, None)
  else
    let s := set_saving true s in
    let duration := getCallDuration now s in
    let duration :=
      if (duration =? 0) && (0 <? Z.of_nat (length (recordedChunks s)))
      then Z.max 1 (totalSize (recordedChunks s) / 10000)
      else duration in
    let blob : Blob := concat (recordedChunks s) in
    let callId := str_or (odooCallId s) "unknown" in
    (s, Some {| req_recording := blob; req_call_id := callId;
                req_duration := duration |}).

(** How [fetch] settles: it rejects, or it resolves with a response of
    the given status. *)
Inductive fetch_result := NetworkError | Responded (status : Z).

Definition response_ok (status : Z) : bool :=
  (200 <=? status) && (status <=? 299).

(** The await the call is suspended at. *)
Inductive phase := AwaitFetch | AwaitJson | AwaitText (status : Z).

(** From the settled [fetch] to the next await; [None]: the call has
    completed (catch, then finally). *)
Definition saveRecording_fetched (r : fetch_result) (s : state)
  : state * option phase :=
  match r with
  | NetworkError => (set_saving false s, None)
  | Responded status =>
      if response_ok status then (s, Some AwaitJson)
      else (s, Some (AwaitText status))
  end.

(** From the settled [response.json()] or [response.text()] to the end;
    [fulfilled] tells whether that promise was fulfilled. *)
Definition saveRecording_body (p : phase) (fulfilled : bool) (s : state)
  : state :=
  match p with
  | AwaitJson =>
      if fulfilled then set_saving false (set_saved true s)
      else set_saving false s
  | AwaitText _ => set_saving false s
  | AwaitFetch => s
  end.

(** How one upload goes when nothing else runs in between. *)
Inductive upload_outcome :=
| FetchRejected
| ServerRefused (status : Z) (text_fulfilled : bool)
| ServerAccepted (status : Z) (json_fulfilled : bool).

(** The upload failed: network error or non-OK response. *)
Definition failed (o : upload_outcome) : bool :=
  match o with
  | FetchRejected => true
  | ServerRefused status _ => negb (response_ok status)
  | ServerAccepted _ _ => false
  end.

Definition settle (o : upload_outcome) (s : state) : state :=
  match o with
  | FetchRejected => fst (saveRecording_fetched NetworkError s)
  | ServerRefused status b | ServerAccepted status b =>
      match saveRecording_fetched (Responded status) s with
      | (s, Some p) => saveRecording_body p b s
      | (s, None) => s
      end
  end.

(** One whole call of [saveRecording]: the state at its end and the
    request it sent, if any. *)
Definition saveRecording (now : Z) (o : upload_outcome) (s : state)
  : state * option Request :=
  match saveRecording_start now s with
  | (s, Some r) => (settle o s, Some r)
  | (s, None) => (s, None)
  end.

(** *** The callers of [saveRecording] and the event loop

    JavaScript runs one task at a time: a call of [saveRecording] runs
    up to its next await, and other handlers run before it is resumed.
    [system] is the client together with the calls that are suspended,
    every request sent so far, and the requests the server answered
    with an OK status. *)

Record call := mkCall {
  call_phase : phase;
  (** the call was made by [onstop], which chains the callbacks of
      lines 2211-2225 on its promise *)
  call_from_onstop : bool
}.

Record system := mkSystem {
  client : state;
  inflight : gmap nat call;
  posts : list Request;
  accepted : list nat
}.

Definition boot (s : state) : system :=
  {| client := s; inflight := ∅; posts := []; accepted := [] |}.

Definition with_client (c : state) (sys : system) : system :=
  {| client := c; inflight := inflight sys; posts := posts sys;
     accepted := accepted sys |}.

(** The [then] (and [catch]) callback of [onstop], lines 2211-2225. *)
Definition onstop_settled (s : state) : state :=
  {| mediaRecorder := mediaRecorder s; recordedChunks := recordedChunks s;
     recordingSaved := false; recordingSaving := false;
     callStartTime := None; callEndTime := None;
     odooCallId := odooCallId s |}.

(** What runs when a call of [saveRecording] has completed. *)
Definition completed (from_onstop : bool) (s : state) : state :=
  if from_onstop then onstop_settled s else s.

(** [this.saveRecording()], up to its first await. *)
Definition call_saveRecording (now : Z) (from_onstop : bool) (sys : system)
  : system :=
  match saveRecording_start now (client sys) with
  | (c, Some r) =>
      {| client := c;
         inflight := <[length (posts sys) := mkCall AwaitFetch from_onstop]>
                       (inflight sys);
         posts := posts sys ++ [r];
         accepted := accepted sys |}
  | (c, None) => with_client (completed from_onstop c) sys
  end.

(** [startRecording(stream)], lines 2131-2281: [stream] is the number
    of live, enabled tracks of the stream, or [None] when the method is
    called without a stream; [created] tells whether [new MediaRecorder]
    succeeds and [started] whether [start(1000)] does.  What is thrown is
    caught and logged: without a stream, [stream.getTracks()] throws at
    line 2140, before anything is reset. *)
Definition startRecording (stream : option nat) (created started : bool)
  (s : state) : state :=
  match mediaRecorder s with
  | Some {| rstate := recording |} => s
  | _ =>
      match stream with
      | None => s
      | Some live_tracks =>
          let s := set_saving false (set_saved false (set_chunks [] s)) in
          if bool_decide (live_tracks = 0%nat) then s
          else if negb created then s
          else if started
          then set_recorder (Some (mkRecorder recording false)) s
          else set_recorder (Some (mkRecorder inactive false)) s
      end
  end.

(** [ondataavailable], lines 2184-2195. *)
Definition ondataavailable (data : Blob) (s : state) : state :=
  if 0 <? size data then set_chunks (recordedChunks s ++ [data]) s else s.

(** [stopRecording()], lines 2286-2316: [stop_throws] tells whether
    [mediaRecorder.stop()] throws. *)
Definition stopRecording (now : Z) (stop_throws : bool) (sys : system)
  : system :=
  let s := client sys in
  let save_if_chunks sys :=
    if bool_decide (recordedChunks s = []) then sys
    else call_saveRecording now false sys in
  match mediaRecorder s with
  | Some {| rstate := recording |} =>
      if stop_throws then save_if_chunks sys
      else with_client (set_recorder (Some (mkRecorder inactive true)) s) sys
  | _ => save_if_chunks sys
  end.

(** [onstop], lines 2197-2241, run when the recorder delivers the
    [stop] event announced by [stop()]. *)
Definition onstop (now : Z) (sys : system) : system :=
  let s := client sys in
  match mediaRecorder s with
  | Some {| rstate := st; stop_pending := true |} =>
      let sys := with_client (set_recorder (Some (mkRecorder st false)) s) sys in
      if bool_decide (recordedChunks s = []) then sys
      else call_saveRecording now true sys
  | _ => sys
  end.

(** The fetch of request [id] settles. *)
Definition fetch_settled (id : nat) (r : fetch_result) (sys : system)
  : system :=
  match inflight sys !! id with
  | Some {| call_phase := AwaitFetch; call_from_onstop := f |} =>
      let acc :=
        match r with
        | Responded status =>
            if response_ok status then accepted sys ++ [id] else accepted sys
        | NetworkError => accepted sys
        end in
      match saveRecording_fetched r (client sys) with
      | (c, Some p) =>
          {| client := c; inflight := <[id := mkCall p f]> (inflight sys);
             posts := posts sys; accepted := acc |}
      | (c, None) =>
          {| client := completed f c; inflight := delete id (inflight sys);
             posts := posts sys; accepted := acc |}
      end
  | _ => sys
  end.

(** The body of the response to request [id] has been read (or not). *)
Definition body_settled (id : nat) (fulfilled : bool) (sys : system)
  : system :=
  match inflight sys !! id with
  | Some {| call_phase := AwaitFetch |} | None => sys
  | Some {| call_phase := p; call_from_onstop := f |} =>
      {| client := completed f (saveRecording_body p fulfilled (client sys));
         inflight := delete id (inflight sys);
         posts := posts sys; accepted := accepted sys |}
  end.

Inductive event :=
| StartRecording (stream : option nat) (created started : bool)
| DataAvailable (data : Blob)
| StopRecording (now : Z) (stop_throws : bool)
| RecorderStopped (now : Z)
| FetchSettled (id : nat) (r : fetch_result)
| BodySettled (id : nat) (fulfilled : bool).

Definition step (e : event) (sys : system) : system :=
  match e with
  | StartRecording stream created started =>
      with_client (startRecording stream created started (client sys)) sys
  | DataAvailable data => with_client (ondataavailable data (client sys)) sys
  | StopRecording now stop_throws => stopRecording now stop_throws sys
  | RecorderStopped now => onstop now sys
  | FetchSettled id r => fetch_settled id r sys
  | BodySettled id fulfilled => body_settled id fulfilled sys
  end.

Definition run (es : list event) (sys : system) : system :=
  fold_left (fun sys e => step e sys) es sys.

(** The state of a client that has just been constructed. *)
Definition constructor : state :=
  {| mediaRecorder := None; recordedChunks := [];
     recordingSaved := false; recordingSaving := false;
     callStartTime := None; callEndTime := None; odooCallId := None |}.

End Recording.

(** ** Sessions, tracks and the requests sent through SIP.js *)

Module Sip.

(** [SIP.SessionState]. *)
Inductive SessionState :=
| Initial | Establishing | Established | Terminating | Terminated.

#[export] Instance SessionState_eq_dec : EqDecision SessionState.
Proof. solve_decision. Defined.

(** [MediaStreamTrack.kind] is "audio" or "video". *)
Inductive TrackKind := audio | video.

(** A track: [IsMixedTrack] is the ad hoc property tested with
    [=== true], so a track without it has [false]. *)
Record Track := mkTrack {
  kind : TrackKind;
  enabled : bool;
  IsMixedTrack : bool
}.

Definition set_enabled (b : bool) (t : Track) : Track :=
  {| kind := kind t; enabled := b; IsMixedTrack := IsMixedTrack t |}.

(** Tracks are shared objects: receivers, senders and the session data
    hold references into one store. *)
Abbreviation TrackStore := (gmap nat Track).

(** [track.enabled = b] on the track that [ref] refers to. *)
Definition write_enabled (b : bool) (ref : nat) (σ : TrackStore) : TrackStore :=
  alter (set_enabled b) ref σ.

(** [getReceivers()] and [getSenders()]: the [track] of each, which may
    be [null]. *)
Record PeerConnection := mkPC {
  receivers : list (option nat);
  senders : list (option nat)
}.

Record SessionDescriptionHandler := mkSDH {
  peerConnection : option PeerConnection
}.

Record HoldEvent := mkHoldEvent { event : string; eventTime : string }.

Inductive TransferType := Blind | Attended.

Record TransferAccept := mkAccept {
  complete : option bool;
  accept_eventTime : option string;
  accept_disposition : option string
}.

Record TransferRecord := mkTransfer {
  type : TransferType;
  to : string;
  transferTime : string;
  disposition : option string;
  dispositionTime : string;
  accept : TransferAccept
}.

(** The consultation leg that [attendedTransfer] creates: the target of
    its [Inviter] and whether [invite] has been called on it. *)
Record ChildSession := mkChild {
  child_target : option string;
  child_invited : bool
}.

(** [session.data], the object the code hangs its logs on. *)
Record SessionData := mkData {
  AudioSourceTrack : option nat;
  hold : option (list HoldEvent);
  transfer : option (list TransferRecord);
  terminateby : option string;
  reasonCode : option Z;
  reasonText : option string;
  childsession : option ChildSession
}.

(** [{}] *)
Definition empty_data : SessionData :=
  {| AudioSourceTrack := None; hold := None; transfer := None;
     terminateby := None; reasonCode := None; reasonText := None;
     childsession := None |}.

(** A call of a method of the session that sends a request: a re-INVITE
    with the hold option, a REFER with its target (what [makeURI]
    returned, or the consultation leg) and the index its delegate
    captured, or a BYE. *)
Inductive request :=
| ReInvite (hold : bool)
| Refer (target : option string) (transferId : Z)
| ReferToSession (target : ChildSession) (transferId : Z)
| Bye.

(** What the code reads and writes of a session.  [isOnHold] is an ad
    hoc property that nothing initialises: it is [undefined] ([None])
    until [holdCall] or [resumeCall] assigns it. *)
Record Session := mkSession {
  state : SessionState;
  isOnHold : option bool;
  (** [sessionDescriptionHandlerOptionsReInvite]: the object, if there
      is one, and its [hold] property *)
  sessionDescriptionHandlerOptionsReInvite : option (option bool);
  sessionDescriptionHandler : option SessionDescriptionHandler;
  data : option SessionData;
  sent : list request
}.

Definition set_isOnHold (b : bool) (s : Session) : Session :=
  {| state := state s; isOnHold := Some b; sessionDescriptionHandlerOptionsReInvite :=
       sessionDescriptionHandlerOptionsReInvite s;
     sessionDescriptionHandler := sessionDescriptionHandler s;
     data := data s; sent := sent s |}.

Definition set_reinvite_hold (b : bool) (s : Session) : Session :=
  {| state := state s; isOnHold := isOnHold s;
     sessionDescriptionHandlerOptionsReInvite := Some (Some b);
     sessionDescriptionHandler := sessionDescriptionHandler s;
     data := data s; sent := sent s |}.

Definition set_data (d : SessionData) (s : Session) : Session :=
  {| state := state s; isOnHold := isOnHold s;
     sessionDescriptionHandlerOptionsReInvite :=
       sessionDescriptionHandlerOptionsReInvite s;
     sessionDescriptionHandler := sessionDescriptionHandler s;
     data := Some d; sent := sent s |}.

Definition send (r : request) (s : Session) : Session :=
  {| state := state s; isOnHold := isOnHold s;
     sessionDescriptionHandlerOptionsReInvite :=
       sessionDescriptionHandlerOptionsReInvite s;
     sessionDescriptionHandler := sessionDescriptionHandler s;
     data := data s; sent := sent s ++ [r] |}.

(** The fields of the client used by hold, resume and transfer. *)
Record client := mkClient {
  currentSession : option Session;
  tracks : TrackStore;
  host : string
}.

Definition set_session (s : Session) (c : client) : client :=
  {| currentSession := Some s; tracks := tracks c; host := host c |}.

Definition set_tracks (σ : TrackStore) (c : client) : client :=
  {| currentSession := currentSession c; tracks := σ; host := host c |}.

(** The held flag as a condition: [undefined] and [false] are falsy. *)
Definition heldFlag (s : Session) : bool :=
  match isOnHold s with Some true => true | _ => false end.

(** How far an [async] method got: it returned or threw, or it is
    suspended at its [await]. *)
Inductive progress :=
| Finished (r : completion bool)
| Awaiting.

End Sip.

(** ** Hold and resume: [holdCall] and [resumeCall] (lines 2396-2566) *)

Module Hold.
Import Sip.

(** [pc.getReceivers().forEach(r => { if (r.track) r.track.enabled = b })] *)
Definition receivers_flow (b : bool) (rs : list (option nat)) (σ : TrackStore)
  : TrackStore :=
  fold_left
    (fun σ r => match r with Some k => write_enabled b k σ | None => σ end)
    rs σ.

(** The body of the loop over [pc.getSenders()], for one sender: the
    tracks after it and the error it throws, if any.  Reading
    [this.currentSession.data.AudioSourceTrack] throws when the session
    has no [data]. *)
Definition sender_flow (b : bool) (d : option SessionData) (r : option nat)
  (σ : TrackStore) : TrackStore * option JsError :=
  match r with
  | None => (σ, None)
  | Some k =>
      match σ !! k with
      | None => (σ, None)
      | Some t =>
          match kind t with
          | audio =>
              if IsMixedTrack t then
                match d with
                | None =>
                    (σ, Some (TypeError "Cannot read properties of undefined"))
                | Some d =>
                    let σ :=
                      match AudioSourceTrack d with
                      | Some a =>
                          match kind <$> σ !! a with
                          | Some audio => write_enabled b a σ
                          | _ => σ
                          end
                      | None => σ
                      end in
                    (write_enabled b k σ, None)
                end
              else (write_enabled b k σ, None)
          | video => (write_enabled b k σ, None)
          end
      end
  end.

Fixpoint senders_flow (b : bool) (d : option SessionData)
  (rs : list (option nat)) (σ : TrackStore) : TrackStore * option JsError :=
  match rs with
  | [] => (σ, None)
  | r :: rs =>
      match sender_flow b d r σ with
      | (σ, None) => senders_flow b d rs σ
      | (σ, Some e) => (σ, Some e)
      end
  end.

(** The log kept in [data.hold], lines 2450-2455 and 2537-2542. *)
Definition log_hold (ev now : string) (s : Session) : Session :=
  let d := default empty_data (data s) in
  let h := default [] (hold d) in
  set_data
    {| AudioSourceTrack := AudioSourceTrack d;
       hold := Some (h ++ [mkHoldEvent ev now]);
       transfer := transfer d; terminateby := terminateby d;
       reasonCode := reasonCode d; reasonText := reasonText d;
       childsession := childsession d |} s.

(** The [onAccept] delegate of both methods: [held] is the flag it
    writes ([true] in [holdCall], [false] in [resumeCall]), the tracks
    get [enabled = !held], and [ev] is the logged event. *)
Definition onAccept (held : bool) (ev now : string) (c : client)
  : client * completion unit :=
  match currentSession c with
  | None => (c, Throw (TypeError "Cannot set properties of null"))
  | Some s =>
      let '(σ, e) :=
        match sessionDescriptionHandler s with
        | Some {| peerConnection := Some pc |} =>
            senders_flow (negb held) (data s) (senders pc)
              (receivers_flow (negb held) (receivers pc) (tracks c))
        | _ => (tracks c, None)
        end in
      match e with
      | Some e => (set_tracks σ c, Throw e)
      | None =>
          (set_session (log_hold ev now (set_isOnHold held s)) (set_tracks σ c),
           Return tt)
      end
  end.

(** The [onReject] delegate: [held] is the flag it writes back. *)
Definition onReject (held : bool) (msg : string) (c : client)
  : client * completion unit :=
  match currentSession c with
  | None => (c, Throw (TypeError "Cannot set properties of null"))
  | Some s => (set_session (set_isOnHold held s) c, Throw (Error msg))
  end.

(** The [catch] block: [held] is the flag it writes back. *)
Definition catch (held : bool) (e : JsError) (c : client)
  : client * completion bool :=
  (match currentSession c with
   | Some s => set_session (set_isOnHold held s) c
   | None => c
   end, Throw e).

(** The method up to [await this.currentSession.invite(options)]:
    [held] is the flag the method aims at. *)
Definition begin (held : bool) (no_call : string) (c : client)
  : client * progress :=
  match currentSession c with
  | None =>
      let '(c, r) := catch (negb held) (Error no_call) c in (c, Finished r)
  | Some s =>
      if bool_decide (isOnHold s = Some held) then (c, Finished (Return true))
      else
        let s := set_isOnHold held s in
        match sessionDescriptionHandlerOptionsReInvite s with
        | None =>
            let '(c, r) :=
              catch (negb held)
                (TypeError "Cannot set properties of undefined")
                (set_session s c) in
            (c, Finished r)
        | Some _ =>
            let s := set_reinvite_hold held s in
            (set_session (send (ReInvite held) s) c, Awaiting)
        end
  end.

Definition holdCall_begin : client -> client * progress :=
  begin true "No active call to hold".
Definition holdCall_onAccept (now : string) : client -> client * completion unit :=
  onAccept true "hold" now.
Definition holdCall_onReject : client -> client * completion unit :=
  onReject false "Failed to put call on hold".
Definition holdCall_catch : JsError -> client -> client * completion bool :=
  catch false.

Definition resumeCall_begin : client -> client * progress :=
  begin false "No active call to resume".
Definition resumeCall_onAccept (now : string) : client -> client * completion unit :=
  onAccept false "unhold" now.
Definition resumeCall_onReject : client -> client * completion unit :=
  onReject true "Failed to take call off hold".
Definition resumeCall_catch : JsError -> client -> client * completion bool :=
  catch true.

(** What becomes of the re-INVITE: the peer accepts it, the peer rejects
    it, or [invite] itself fails (its promise is rejected). *)
Inductive outcome :=
| Accepted (now : string)
| Rejected
| Failed (e : JsError).

(** What the caller and the library see of one call of the method: what
    the method returned or threw, and what its delegate threw. *)
Record report := mkReport {
  returned : completion bool;
  delegate_error : option JsError
}.

Definition thrown (r : completion unit) : option JsError :=
  match r with Throw e => Some e | Return _ => None end.

(** A whole call, from the parts above. *)
Definition attempt
  (begin : client -> client * progress)
  (onAccept : string -> client -> client * completion unit)
  (onReject : client -> client * completion unit)
  (catch : JsError -> client -> client * completion bool)
  (o : outcome) (c : client) : client * report :=
  match begin c with
  | (c, Finished r) => (c, mkReport r None)
  | (c, Awaiting) =>
      match o with
      | Accepted now =>
          let '(c, r) := onAccept now c in (c, mkReport (Return true) (thrown r))
      | Rejected =>
          let '(c, r) := onReject c in (c, mkReport (Return true) (thrown r))
      | Failed e =>
          let '(c, r) := catch e c in (c, mkReport r None)
      end
  end.

Definition holdCall : outcome -> client -> client * report :=
  attempt holdCall_begin holdCall_onAccept holdCall_onReject holdCall_catch.

Definition resumeCall : outcome -> client -> client * report :=
  attempt resumeCall_begin resumeCall_onAccept resumeCall_onReject
    resumeCall_catch.

(** [σ] is [σ0] but for tracks whose [enabled] has been set to [b]. *)
Definition flowed (b : bool) (σ0 σ : TrackStore) : Prop :=
  forall k, σ !! k = σ0 !! k \/ σ !! k = set_enabled b <$> σ0 !! k.

(** In [σ], the track [k] is the one of [σ0] with [enabled] set to [b]. *)
Definition written (b : bool) (σ0 σ : TrackStore) (k : nat) : Prop :=
  σ !! k = set_enabled b <$> σ0 !! k.

End Hold.

(** ** Transfers: [transferCall], [attendedTransfer] and
    [completeAttendedTransfer] (lines 2636-2968) *)

Module Transfer.
Import Sip.

(** [extension.replace(/#/g, "%23")] *)
Fixpoint escape_hash (s : string) : string :=
  match s with
  | EmptyString => EmptyString
  | String c rest =>
      if Ascii.eqb c "#"%char then ("%23" +:+ escape_hash rest)%string
      else String c (escape_hash rest)
  end.

(** [array[i]]: [undefined] outside the array, also below zero. *)
Definition index {A} (l : list A) (i : Z) : option A :=
  if i <? 0 then None else l !! Z.to_nat i.

Definition set_transfer (l : list TransferRecord) (d : SessionData)
  : SessionData :=
  {| AudioSourceTrack := AudioSourceTrack d; hold := hold d;
     transfer := Some l; terminateby := terminateby d;
     reasonCode := reasonCode d; reasonText := reasonText d;
     childsession := childsession d |}.

Definition set_reason (text : string) (d : SessionData) : SessionData :=
  {| AudioSourceTrack := AudioSourceTrack d; hold := hold d;
     transfer := transfer d; terminateby := Some "us";
     reasonCode := Some 202; reasonText := Some text;
     childsession := childsession d |}.

Definition set_childsession (n : ChildSession) (d : SessionData)
  : SessionData :=
  {| AudioSourceTrack := AudioSourceTrack d; hold := hold d;
     transfer := transfer d; terminateby := terminateby d;
     reasonCode := reasonCode d; reasonText := reasonText d;
     childsession := Some n |}.

(** The record pushed by an attempt, lines 2670-2681 and 2785-2796. *)
Definition new_record (ty : TransferType) (extension now : string)
  (disp : string) : TransferRecord :=
  {| type := ty; to := extension; transferTime := now;
     disposition := Some disp; dispositionTime := now;
     accept := {| complete := None; accept_eventTime := None;
                  accept_disposition := Some "" |} |}.

(** The three writes to [transfer[transferId].accept]. *)
Definition set_accept (b : bool) (phrase : option string) (now : string)
  (r : TransferRecord) : TransferRecord :=
  {| type := type r; to := to r; transferTime := transferTime r;
     disposition := disposition r; dispositionTime := dispositionTime r;
     accept := {| complete := Some b; accept_eventTime := Some now;
                  accept_disposition := phrase |} |}.

(** The two writes to [transfer[transferId]] of the consultation leg. *)
Definition set_disposition (disp : option string) (now : string)
  (r : TransferRecord) : TransferRecord :=
  {| type := type r; to := to r; transferTime := transferTime r;
     disposition := disp; dispositionTime := now; accept := accept r |}.

Definition null_deref : JsError :=
  TypeError "Cannot read properties of undefined".

(** [this.currentSession.data.transfer[transferId]] is rewritten by
    [f]; a missing link of the chain throws. *)
Definition update_record (transferId : Z)
  (f : TransferRecord -> TransferRecord) (s : Session)
  : Session * completion unit :=
  match data s with
  | None => (s, Throw null_deref)
  | Some d =>
      match transfer d with
      | None => (s, Throw null_deref)
      | Some l =>
          match index l transferId with
          | None => (s, Throw null_deref)
          | Some r =>
              (set_data (set_transfer (<[Z.to_nat transferId := f r]> l) d) s,
               Return tt)
          end
      end
  end.

Section Library.

(** [SIP.UserAgent.makeURI], which returns [undefined] for a string
    that is not a URI. *)
Variable makeURI : string -> option string.

(** [transferCall(extension)]; [None] is an [undefined] argument. *)
Definition transferCall (extension : option string) (now : string)
  (c : client) : client * completion bool :=
  match currentSession c with
  | None => (c, Throw (Error "No active call to transfer"))
  | Some s =>
      if bool_decide (state s <> Established) then
        (c, Throw (Error "Call must be established to transfer"))
      else
        let d := default empty_data (data s) in
        match extension with
        | None => (set_session (set_data d s) c, Throw null_deref)
        | Some extension =>
            let transferTarget :=
              ("sip:" +:+ escape_hash extension +:+ "@" +:+ host c)%string in
            let l := default [] (transfer d) ++
                     [new_record Blind extension now "refer"] in
            let transferId := Z.of_nat (length l) - 1 in
            let referTo := makeURI transferTarget in
            let s := set_data (set_transfer l d) s in
            (set_session (send (Refer referTo transferId) s) c, Return true)
        end
  end.

(** [attendedTransfer(extension)]; [mediaDevices] tells whether
    [navigator.mediaDevices] exists.  It returns the new session. *)
Definition attendedTransfer (extension : option string) (now : string)
  (mediaDevices : bool) (c : client) : client * completion ChildSession :=
  match currentSession c with
  | None => (c, Throw (Error "No active call to transfer"))
  | Some s =>
      if bool_decide (state s <> Established) then
        (c, Throw (Error "Call must be established to transfer"))
      else
        let d := default empty_data (data s) in
        match extension with
        | None => (set_session (set_data d s) c, Throw null_deref)
        | Some extension =>
            let transferTarget :=
              ("sip:" +:+ escape_hash extension +:+ "@" +:+ host c)%string in
            let l := default [] (transfer d) ++
                     [new_record Attended extension now "invite"] in
            let d := set_transfer l d in
            if mediaDevices then
              let newSession := mkChild (makeURI transferTarget) true in
              (set_session (set_data (set_childsession newSession d) s) c,
               Return newSession)
            else (set_session (set_data d s) c, Throw null_deref)
        end
  end.

End Library.

(** The index the delegates of an attempt capture, line 2683 (and 2798,
    2920): the last index of the log when the attempt is made. *)
Definition last_index (s : Session) : option Z :=
  d ← data s; l ← transfer d; Some (Z.of_nat (length l) - 1).

(** The delegates run on [this.currentSession] as it is then. *)
Definition on_session (f : Session -> Session * completion unit) (c : client)
  : client * completion unit :=
  match currentSession c with
  | None => (c, Throw null_deref)
  | Some s => let '(s, r) := f s in (set_session s c, r)
  end.

(** [onAccept] of a REFER, lines 2688-2714 and 2925-2942. *)
Definition refer_onAccept (text : string) (transferId : Z)
  (phrase : option string) (now : string) : client -> client * completion unit :=
  on_session (fun s =>
    match data s with
    | None => (s, Throw null_deref)
    | Some d =>
        let s := set_data (set_reason text d) s in
        match update_record transferId (set_accept true phrase now) s with
        | (s, Return _) => (send Bye s, Return tt)
        | (s, Throw e) => (s, Throw e)
        end
    end).

(** [onReject] of a REFER, lines 2715-2725 and 2943-2951. *)
Definition refer_onReject (transferId : Z) (phrase : option string)
  (now : string) : client -> client * completion unit :=
  on_session (update_record transferId (set_accept false phrase now)).

Definition transferCall_onAccept := refer_onAccept "Transfer".
Definition transferCall_onReject := refer_onReject.

(** The delegates of the consultation leg, lines 2832-2890: [onTrying],
    [onProgress], [onAccept], [onReject] and [onBye] write a disposition. *)
Definition attended_disposition (transferId : Z) (disp : option string)
  (now : string) : client -> client * completion unit :=
  on_session (update_record transferId (set_disposition disp now)).

Definition attendedTransfer_onTrying i := attended_disposition i (Some "trying").
Definition attendedTransfer_onProgress i := attended_disposition i (Some "progress").
Definition attendedTransfer_onAccept i := attended_disposition i (Some "accepted").
Definition attendedTransfer_onReject i (phrase : option string) :=
  attended_disposition i phrase.
Definition attendedTransfer_onBye i := attended_disposition i (Some "bye").

(** [completeAttendedTransfer(newSession)]. *)
Definition completeAttendedTransfer (newSession : option ChildSession)
  (c : client) : client * completion bool :=
  match currentSession c, newSession with
  | Some s, Some n =>
      match last_index s with
      | None => (c, Throw null_deref)
      | Some transferId =>
          (set_session (send (ReferToSession n transferId) s) c, Return true)
      end
  | _, _ => (c, Throw (Error "No active sessions for transfer completion"))
  end.

Definition completeAttendedTransfer_onAccept := refer_onAccept "Attended Transfer".
Definition completeAttendedTransfer_onReject := refer_onReject.

(** The transfer log of a session, and of the current session; empty
    when there is none. *)
Definition log (s : Session) : list TransferRecord :=
  default [] (d ← data s; transfer d).

Definition transferLog (c : client) : list TransferRecord :=
  from_option log [] (currentSession c).

(** The requests sent through the current session. *)
Definition requests (c : client) : list request :=
  default [] (sent <$> currentSession c).

(** What a delegate that captured the index [i] may do to the log: [g]
    keeps the length of the log and every record but the one at [i],
    and of that one it keeps the type, the target and the time of the
    request. *)
Definition updates_only (i : Z) (g : client -> client * completion unit)
  : Prop :=
  forall c,
    let c' := fst (g c) in
    length (transferLog c') = length (transferLog c) /\
    (forall j : nat, Z.of_nat j <> i ->
                     transferLog c' !! j = transferLog c !! j) /\
    (forall j r, transferLog c !! j = Some r ->
       exists r', transferLog c' !! j = Some r' /\
                  type r' = type r /\ to r' = to r /\
                  transferTime r' = transferTime r).

(** What the delegate of a REFER that captured the index [i] writes:
    when the log has a record at [i], [g] returns and the record at [i]
    has [accept.complete = b], [accept.disposition = phrase] and
    [accept.eventTime = now], and is otherwise the record it was. *)
Definition writes_accept (i : Z) (b : bool) (phrase : option string)
  (now : string) (g : client -> client * completion unit) : Prop :=
  forall c r,
    index (transferLog c) i = Some r ->
    snd (g c) = Return tt /\
    index (transferLog (fst (g c))) i =
      Some {| type := type r; to := to r; transferTime := transferTime r;
              disposition := disposition r;
              dispositionTime := dispositionTime r;
              accept := {| complete := Some b; accept_eventTime := Some now;
                           accept_disposition := phrase |} |}.

(** What a delegate of the consultation leg that captured the index [i]
    writes: when the log has a record at [i], [g] returns and the record
    at [i] has [disposition = disp] and [dispositionTime = now], and is
    otherwise the record it was. *)
Definition writes_disposition (i : Z) (disp : option string) (now : string)
  (g : client -> client * completion unit) : Prop :=
  forall c r,
    index (transferLog c) i = Some r ->
    snd (g c) = Return tt /\
    index (transferLog (fst (g c))) i =
      Some {| type := type r; to := to r; transferTime := transferTime r;
              disposition := disp; dispositionTime := now;
              accept := accept r |}.

End Transfer.

(** ** Outbound calls: [makeCall] (lines 1131-1284) and [formatError]
    (lines 2381-2391) *)

Module Outbound.

(** [this.callState]. *)
Inductive CallState := idle | ringing | connected | held | ended.

(** The final response handed to [onReject]: [response.message]. *)
Record Response := mkResponse {
  statusCode : Z;
  reasonPhrase : option string
}.

(** The fields of [this] that [makeCall] reads or writes, and the two
    that a recording would change.  [currentSession] is the [Inviter],
    known by its target. *)
Record client := mkClient {
  userAgent : bool;
  isRegistered : bool;
  realm : option string;
  host : string;
  callState : CallState;
  callStartTime : option Z;
  tones : Tones.state;
  currentSession : option string;
  sipCallId : option string;
  mediaRecorder : option Recording.MediaRecorder;
  recordedChunks : list Recording.Blob
}.

Definition set_tones (t : Tones.state) (c : client) : client :=
  {| userAgent := userAgent c; isRegistered := isRegistered c;
     realm := realm c; host := host c; callState := callState c;
     callStartTime := callStartTime c; tones := t;
     currentSession := currentSession c; sipCallId := sipCallId c;
     mediaRecorder := mediaRecorder c; recordedChunks := recordedChunks c |}.

(** [updateCallState('ringing')], lines 89-107. *)
Definition updateCallState_ringing (now : Z) (c : client) : client :=
  {| userAgent := userAgent c; isRegistered := isRegistered c;
     realm := realm c; host := host c; callState := ringing;
     callStartTime := Some now; tones := tones c;
     currentSession := currentSession c; sipCallId := sipCallId c;
     mediaRecorder := mediaRecorder c; recordedChunks := recordedChunks c |}.

(** Lines 1224-1255: the session is stored, and the Call-ID found in
    the request, if any and not empty, is kept. *)
Definition store_session (inviter : string) (captured : option string)
  (c : client) : client :=
  {| userAgent := userAgent c; isRegistered := isRegistered c;
     realm := realm c; host := host c; callState := callState c;
     callStartTime := callStartTime c; tones := tones c;
     currentSession := Some inviter;
     sipCallId :=
       match captured with
       | Some id => if decide (id = "") then sipCallId c else Some id
       | None => sipCallId c
       end;
     mediaRecorder := mediaRecorder c; recordedChunks := recordedChunks c |}.

Definition formatError (e : JsError) : JsError :=
  if decide (err_name e = "NotAllowedError") then
    Error "Microphone access denied. Please allow microphone access."
  else if decide (err_name e = "NotFoundError") then
    Error "No microphone found. Please connect a microphone."
  else if negb (bool_decide (err_message e = "")) && includes "HTTPS" (err_message e)
  then e
  else Error (str_or (Some (err_message e)) "An error occurred").

(** The message chosen at lines 1187-1214. *)
Definition rejectionError (r : Response) : string :=
  let reasonPhrase := str_or (reasonPhrase r) "Unknown error" in
  let statusCode := statusCode r in
  if statusCode =? 503 then "Service Unavailable"
  else if statusCode =? 486 then "Busy Here"
  else if statusCode =? 404 then "Not Found"
  else if statusCode =? 408 then "Request Timeout"
  else if statusCode =? 480 then "Temporarily Unavailable"
  else reasonPhrase.

(** The [onReject] delegate of the INVITE, but for the two local
    variables it sets. *)
Definition onReject (allowed : bool) (r : Response) (c : client) : client :=
  let c := set_tones (Tones.stopAllTones (tones c)) c in
  let statusCode := statusCode r in
  if (statusCode =? 486) || (statusCode =? 503) || (statusCode =? 600)
  then set_tones (Tones.playBusyTone allowed (tones c)) c
  else c.

(** The [catch] block, lines 1269-1283. *)
Definition catch (allowed : bool) (error : JsError) (c : client)
  : client * completion bool :=
  let c := set_tones (Tones.stopAllTones (tones c)) c in
  let errorMsg := str_or (Some (err_message error)) "" in
  let c :=
    if includes "Busy" errorMsg || includes "Unavailable" errorMsg ||
       includes "503" errorMsg || includes "486" errorMsg
    then set_tones (Tones.playBusyTone allowed (tones c)) c
    else c in
  (c, Throw (formatError error)).

(** What happens while [makeCall] waits for [inviter.invite(...)]: the
    request is sent and no final response has come, or a final
    rejection has come and [onReject] has run, or [invite] fails. *)
Inductive invite_outcome :=
| Sent
| RejectedWith (r : Response)
| InviteFailed (e : JsError).

Section Library.

Variable makeURI : string -> option string.

(** [makeCall(phoneNumber)]: [allowed] tells whether the browser lets
    the tones play and [captured] is the Call-ID found in the
    request. *)
Definition makeCall (phoneNumber : string) (now : Z) (allowed : bool)
  (o : invite_outcome) (captured : option string) (c : client)
  : client * completion bool :=
  if negb (userAgent c) || negb (isRegistered c) then
    catch allowed (Error "Not registered with SIP server") c
  else
    match makeURI ("sip:" +:+ phoneNumber +:+ "@" +:+
                   str_or (realm c) (host c))%string with
    | None =>
        catch allowed
          (Error "Invalid phone number or server configuration") c
    | Some inviter =>
        let c := updateCallState_ringing now c in
        let c := set_tones (Tones.playRingbackTone allowed (tones c)) c in
        match o with
        | InviteFailed e => catch allowed e c
        | Sent => (store_session inviter captured c, Return true)
        | RejectedWith r =>
            let c := onReject allowed r c in
            let c := store_session inviter captured c in
            catch allowed (Error (rejectionError r)) c
        end
    end.

End Library.

(** The reason the caller gets: the message of the error thrown. *)
Definition reason (r : completion bool) : option string :=
  match r with Throw e => Some (err_message e) | Return _ => None end.

End Outbound.

(** ** Concrete clients and runs used in the examples below *)

Module Scenario.

(** *** Recording *)

Definition chunk1 : Recording.Blob := [Byte.x1a; Byte.x45; Byte.xdf; Byte.xa3].
Definition chunk2 : Recording.Blob := [Byte.x1f; Byte.x43].

(** A client during a call that started at time 1000 and is logged as
    call 42; recording has not started yet. *)
Definition in_call : Recording.state :=
  {| Recording.mediaRecorder := None;
     Recording.recordedChunks := [];
     Recording.recordingSaved := false;
     Recording.recordingSaving := false;
     Recording.callStartTime := Some 1000;
     Recording.callEndTime := None;
     Recording.odooCallId := Some "42" |}.

(** The recording starts and a chunk arrives.  The user stops the
    recording ([stopRecording] from the systray): the recorder delivers
    its last chunk and the [stop] event, and [onstop] starts the upload.
    Before the server answers the user hangs up: [hangup] calls
    [stopRecording], and so does [onCallTerminated] when the session
    ends.  Then the server answers both requests with 200. *)
Definition stop_then_hangup : list Recording.event :=
  [ Recording.StartRecording (Some 2%nat) true true;
    Recording.DataAvailable chunk1;
    Recording.StopRecording 6000 false;
    Recording.DataAvailable chunk2;
    Recording.RecorderStopped 6000;
    Recording.StopRecording 6100 false;
    Recording.StopRecording 6100 false;
    Recording.FetchSettled 0 (Recording.Responded 200);
    Recording.BodySettled 0 true;
    Recording.FetchSettled 1 (Recording.Responded 200);
    Recording.BodySettled 1 true ].

(** The same call up to the moment the recording has been stopped. *)
Definition recorded_and_stopped : list Recording.event :=
  [ Recording.StartRecording (Some 2%nat) true true;
    Recording.DataAvailable chunk1;
    Recording.StopRecording 6000 false;
    Recording.DataAvailable chunk2 ].

(** The client after [recorded_and_stopped]: two chunks wait to be saved. *)
Definition two_chunks : Recording.state :=
  Recording.client (Recording.run recorded_and_stopped (Recording.boot in_call)).

(** *** Hold and resume *)

(** An established call that has never been put on hold: one inbound
    and one outbound audio track, both enabled; no [data] yet. *)
Definition established_session : Sip.Session :=
  {| Sip.state := Sip.Established;
     Sip.isOnHold := None;
     Sip.sessionDescriptionHandlerOptionsReInvite := Some None;
     Sip.sessionDescriptionHandler :=
       Some (Sip.mkSDH (Some (Sip.mkPC [Some 0%nat] [Some 1%nat])));
     Sip.data := None;
     Sip.sent := [] |}.

Definition established : Sip.client :=
  {| Sip.currentSession := Some established_session;
     Sip.tracks := {[ 0%nat := Sip.mkTrack Sip.audio true false;
                      1%nat := Sip.mkTrack Sip.audio true false ]};
     Sip.host := "pbx.example.com" |}.

(** The same call after an accepted hold. *)
Definition on_hold : Sip.client :=
  fst (Hold.holdCall (Hold.Accepted "2026-01-01T10:00:00.000Z") established).

(** *** Transfer and outbound calls *)

(** A stand-in for [SIP.UserAgent.makeURI]: a URI is the string it was
    made from, and a string without a user part is not a URI. *)
Definition makeURI (s : string) : option string :=
  if String.prefix "sip:@" s then None else Some s.

(** A registered client that is not in a call. *)
Definition registered : Outbound.client :=
  {| Outbound.userAgent := true;
     Outbound.isRegistered := true;
     Outbound.realm := None;
     Outbound.host := "pbx.example.com";
     Outbound.callState := Outbound.idle;
     Outbound.callStartTime := None;
     Outbound.tones := Tones.initCallTones;
     Outbound.currentSession := None;
     Outbound.sipCallId := None;
     Outbound.mediaRecorder := None;
     Outbound.recordedChunks := [] |}.

End Scenario.

(** ** Hold music in the call: [injectHoldMusicIntoCall] (lines 3495-3608)
    and [removeHoldMusicFromCall] (lines 3613-3653) *)

Module HoldMusic.
Import Sip.

(** [AudioContext.state]. *)
Inductive AudioContextState := suspended | running | closed.

#[global] Instance AudioContextState_eq_dec : EqDecision AudioContextState.
Proof. solve_decision. Defined.

(** The client with [this.localStream], whose tracks are references
    into the store of tracks (lines 1891-1899 and 1955-1957), and
    [this.holdMusicAudioContext], known by its state. *)
Record client := mkClient {
  sip : Sip.client;
  localStream : option (list nat);
  holdMusicAudioContext : option AudioContextState
}.

Definition set_sip (c : Sip.client) (h : client) : client :=
  {| sip := c; localStream := localStream h;
     holdMusicAudioContext := holdMusicAudioContext h |}.

Definition set_context (a : option AudioContextState) (h : client) : client :=
  {| sip := sip h; localStream := localStream h;
     holdMusicAudioContext := a |}.

(** [track.kind === 'audio'] on the track that [k] refers to. *)
Definition is_audio (σ : TrackStore) (k : nat) : bool :=
  match kind <$> σ !! k with Some audio => true | _ => false end.

(** [senders.find(sender => sender.track && sender.track.kind ===
    'audio')]: the index of the sender found. *)
Fixpoint find_audio_sender (σ : TrackStore) (senders : list (option nat))
  : option nat :=
  match senders with
  | [] => None
  | sender :: rest =>
      if from_option (is_audio σ) false sender then Some 0%nat
      else S <$> find_audio_sender σ rest
  end.

(** [stream.getAudioTracks()] *)
Definition getAudioTracks (σ : TrackStore) (stream : list nat) : list nat :=
  List.filter (is_audio σ) stream.

(** [sender.replaceTrack(track)] on the sender at index [i] of the peer
    connection of the session. *)
Definition replaceTrack (i : nat) (track : nat) (s : Session) : Session :=
  match sessionDescriptionHandler s with
  | Some {| peerConnection := Some pc |} =>
      {| state := state s; isOnHold := isOnHold s;
         sessionDescriptionHandlerOptionsReInvite :=
           sessionDescriptionHandlerOptionsReInvite s;
         sessionDescriptionHandler :=
           Some (mkSDH (Some (mkPC (receivers pc)
                                (<[i := Some track]> (senders pc)))));
         data := data s; sent := sent s |}
  | _ => s
  end.

(** The track of [destination.stream]: [createMediaStreamDestination()]
    makes a new audio track, which is enabled. *)
Definition destination_track : Track :=
  {| kind := audio; enabled := true; IsMixedTrack := false |}.

(** [injectHoldMusicIntoCall()]: [resumed] tells whether the promise of
    [resume()] is fulfilled, which leaves the context running, and
    [replaced] whether the one of [replaceTrack] is; a promise that is
    rejected ends the method in its [catch] block.
    [createMediaStreamSource] throws for a stream without audio
    tracks. *)
Definition injectHoldMusicIntoCall (resumed replaced : bool) (h : client)
  : client :=
  match currentSession (sip h) with
  | None => h
  | Some s =>
      match sessionDescriptionHandler s with
      | Some {| peerConnection := Some pc |} =>
          match holdMusicAudioContext h with
          | None => h
          | Some closed =>
              set_context (Some (if resumed then running else suspended)) h
          | Some audioContext =>
              if bool_decide (audioContext = suspended) && negb resumed then h
              else
                let h := set_context (Some running) h in
                match localStream h with
                | None => h
                | Some stream =>
                    let σ := tracks (sip h) in
                    if bool_decide (getAudioTracks σ stream = []) then h
                    else
                      let newTrack := fresh (dom σ) in
                      let σ := <[newTrack := destination_track]> σ in
                      let h := set_sip (set_tracks σ (sip h)) h in
                      match find_audio_sender σ (senders pc) with
                      | Some audioSender =>
                          if replaced then
                            set_sip
                              (set_session
                                 (replaceTrack audioSender newTrack s) (sip h))
                              h
                          else h
                      | None => h
                      end
                end
          end
      | _ => h
      end
  end.

(** [removeHoldMusicFromCall()]: [replaced] tells whether the promise of
    [replaceTrack] is fulfilled. *)
Definition removeHoldMusicFromCall (replaced : bool) (h : client) : client :=
  match currentSession (sip h) with
  | None => h
  | Some s =>
      match sessionDescriptionHandler s with
      | Some {| peerConnection := Some pc |} =>
          match localStream h with
          | None => h
          | Some stream =>
              let σ := tracks (sip h) in
              match find_audio_sender σ (senders pc), getAudioTracks σ stream with
              | Some audioSender, track :: _ =>
                  if replaced then
                    set_sip
                      (set_session (replaceTrack audioSender track s) (sip h)) h
                  else h
              | _, _ => h
              end
          end
      | _ => h
      end
  end.

(** What the hold music does to a call: the two methods above, and the
    other methods of the hold music ([createHoldMusicWithWebAudio],
    [stopHoldMusic]) giving [this.holdMusicAudioContext] a new value. *)
Inductive op :=
| Inject (resumed replaced : bool)
| Remove (replaced : bool)
| Context (a : option AudioContextState).

Definition apply (o : op) (h : client) : client :=
  match o with
  | Inject resumed replaced => injectHoldMusicIntoCall resumed replaced h
  | Remove replaced => removeHoldMusicFromCall replaced h
  | Context a => set_context a h
  end.

Definition run (ops : list op) (h : client) : client :=
  fold_left (fun h o => apply o h) ops h.

(** What the hold music leaves alone: [h] has a session that is [s] but
    for the senders of its peer connection, which are as many as those
    of [pc], and its store has the tracks of [σ], and possibly more. *)
Definition keeps (s : Session) (pc : PeerConnection) (σ : TrackStore)
  (h : client) : Prop :=
  exists s' pc',
    currentSession (sip h) = Some s' /\
    sessionDescriptionHandler s' = Some (mkSDH (Some pc')) /\
    state s' = state s /\ isOnHold s' = isOnHold s /\
    sessionDescriptionHandlerOptionsReInvite s' =
      sessionDescriptionHandlerOptionsReInvite s /\
    data s' = data s /\ sent s' = sent s /\
    receivers pc' = receivers pc /\
    length (senders pc') = length (senders pc) /\
    (forall k t, σ !! k = Some t -> tracks (sip h) !! k = Some t).

(** The senders of the peer connection of the current session. *)
Definition outbound (c : Sip.client) : list (option nat) :=
  match currentSession c with
  | Some s =>
      match sessionDescriptionHandler s with
      | Some {| peerConnection := Some pc |} => senders pc
      | _ => []
      end
  | None => []
  end.

(** The call of [Scenario.established] with the microphone as its local
    stream, and the same call with the microphone muted. *)
Definition in_call : client :=
  {| sip := Scenario.established; localStream := Some [1%nat];
     holdMusicAudioContext := Some running |}.

Definition muted : Sip.client :=
  set_tracks (write_enabled false 1%nat (tracks Scenario.established))
    Scenario.established.

End HoldMusic.

(** ** Call duration tracking: [updateCallState] and the interval timer
    (lines 75-133) *)

Module Tracking.

(** [this.callStartTime] is a [Date] ([new Date()], line 97) or a number
    of milliseconds ([Date.now()], line 1819); a [Date] is always truthy,
    a number is truthy unless it is zero. *)
Inductive StartTime := DateObject (t : Z) | Millis (t : Z).

Definition time (s : StartTime) : Z :=
  match s with DateObject t | Millis t => t end.

Definition truthy (s : option StartTime) : bool :=
  match s with
  | Some (DateObject _) => true
  | Some (Millis t) => negb (t =? 0)
  | None => false
  end.

(** The fields used, and the timers of the page: [intervals] holds the
    identifiers that [setInterval] returned and [clearInterval] has not
    taken back, [next_timer] is the next identifier.  [setInterval]
    returns an integer greater than zero, so the first one is 1; the
    code tests [this.durationInterval] for truthiness, and 0 would be
    falsy. *)
Record state := mkState {
  callState : Outbound.CallState;
  callStartTime : option StartTime;
  callDuration : Z;
  durationInterval : option nat;
  intervals : gset nat;
  next_timer : nat
}.

(** The constructor and [initCallStateManagement]. *)
Definition constructor : state :=
  {| callState := Outbound.idle; callStartTime := None; callDuration := 0;
     durationInterval := None; intervals := ∅; next_timer := 1 |}.

(** [if (this.durationInterval)]: the identifier when it is truthy. *)
Definition noted (s : state) : option nat :=
  match durationInterval s with
  | Some id => if (id =? 0)%nat then None else Some id
  | None => None
  end.

Definition stopCallDurationTracking (s : state) : state :=
  match noted s with
  | Some id =>
      {| callState := callState s; callStartTime := callStartTime s;
         callDuration := callDuration s; durationInterval := None;
         intervals := intervals s ∖ {[id]}; next_timer := next_timer s |}
  | None => s
  end.

Definition startCallDurationTracking (s : state) : state :=
  let live :=
    match noted s with
    | Some id => intervals s ∖ {[id]}
    | None => intervals s
    end in
  {| callState := callState s; callStartTime := callStartTime s;
     callDuration := callDuration s;
     durationInterval := Some (next_timer s);
     intervals := live ∪ {[next_timer s]};
     next_timer := S (next_timer s) |}.

Definition set_callState (st : Outbound.CallState) (s : state) : state :=
  {| callState := st; callStartTime := callStartTime s;
     callDuration := callDuration s; durationInterval := durationInterval s;
     intervals := intervals s; next_timer := next_timer s |}.

Definition set_callStartTime (t : option StartTime) (s : state) : state :=
  {| callState := callState s; callStartTime := t;
     callDuration := callDuration s; durationInterval := durationInterval s;
     intervals := intervals s; next_timer := next_timer s |}.

Definition set_callDuration (n : Z) (s : state) : state :=
  {| callState := callState s; callStartTime := callStartTime s;
     callDuration := n; durationInterval := durationInterval s;
     intervals := intervals s; next_timer := next_timer s |}.

Definition updateCallState (newState : Outbound.CallState) (now : Z)
  (s : state) : state :=
  let s := set_callState newState s in
  match newState with
  | Outbound.ringing => set_callStartTime (Some (DateObject now)) s
  | Outbound.connected => startCallDurationTracking s
  | Outbound.ended | Outbound.idle => stopCallDurationTracking s
  | Outbound.held => s
  end.

(** The callback given to [setInterval], lines 117-122, when the timer
    [id] fires; a timer that has been cleared does not fire. *)
Definition tick (id : nat) (now : Z) (s : state) : state :=
  if bool_decide (id ∈ intervals s) && truthy (callStartTime s) then
    set_callDuration ((now - from_option time 0 (callStartTime s)) / 1000) s
  else s.

(** [onCallEstablished] sets the start of the call, line 1819. *)
Definition set_start (now : Z) (s : state) : state :=
  set_callStartTime (Some (Millis now)) s.

(** What [cleanup] (lines 229-246) does to these fields. *)
Definition cleanup (s : state) : state :=
  set_callDuration 0
    (set_callStartTime None
       (set_callState Outbound.idle (stopCallDurationTracking s))).

(** Everything in the file that writes one of these fields: the three
    methods, [onCallEstablished], [cleanup], the [onstop] handler of the
    recorder (lines 2214 and 2221, [callStartTime = null]), the webhook
    handler (lines 3690-3694, [callState] written directly), and a timer
    firing. *)
Inductive op :=
| UpdateCallState (newState : Outbound.CallState) (now : Z)
| StartTracking
| StopTracking
| Established (now : Z)
| Cleanup
| ClearStart
| Webhook (st : Outbound.CallState)
| Tick (id : nat) (now : Z).

Definition apply (o : op) (s : state) : state :=
  match o with
  | UpdateCallState st now => updateCallState st now s
  | StartTracking => startCallDurationTracking s
  | StopTracking => stopCallDurationTracking s
  | Established now => set_start now s
  | Cleanup => cleanup s
  | ClearStart => set_callStartTime None s
  | Webhook st => set_callState st s
  | Tick id now => tick id now s
  end.

Definition run (ops : list op) (s : state) : state :=
  fold_left (fun s o => apply o s) ops s.

(** The timers that are running are exactly the one noted in
    [durationInterval], and identifiers are positive and below the next
    one to be handed out. *)
Definition tidy (s : state) : Prop :=
  intervals s = from_option (fun id => {[id]}) ∅ (durationInterval s) /\
  (forall id, id ∈ intervals s -> (0 < id < next_timer s)%nat) /\
  (0 < next_timer s)%nat.

End Tracking.

(** ** Registration and transport events (lines 1086-1105, 2322-2334) *)

Module Registration.

(** [SIP.RegistererState]. *)
Inductive RegistererState := Initial | Registered | Unregistered | Terminated.

Definition set_isRegistered (b : bool) (c : Outbound.client) : Outbound.client :=
  {| Outbound.userAgent := Outbound.userAgent c;
     Outbound.isRegistered := b;
     Outbound.realm := Outbound.realm c; Outbound.host := Outbound.host c;
     Outbound.callState := Outbound.callState c;
     Outbound.callStartTime := Outbound.callStartTime c;
     Outbound.tones := Outbound.tones c;
     Outbound.currentSession := Outbound.currentSession c;
     Outbound.sipCallId := Outbound.sipCallId c;
     Outbound.mediaRecorder := Outbound.mediaRecorder c;
     Outbound.recordedChunks := Outbound.recordedChunks c |}.

(** The listener on [registerer.stateChange], lines 1086-1105. *)
Definition onRegistererState (st : RegistererState) (c : Outbound.client)
  : Outbound.client :=
  match st with
  | Registered => set_isRegistered true c
  | Unregistered => set_isRegistered false c
  | Terminated => set_isRegistered false c
  | Initial => c
  end.

Definition onTransportConnected (c : Outbound.client) : Outbound.client := c.
Definition onTransportDisconnected (c : Outbound.client) : Outbound.client :=
  set_isRegistered false c.
Definition onTransportError (c : Outbound.client) : Outbound.client :=
  set_isRegistered false c.

Inductive event :=
| StateChange (st : RegistererState)
| TransportConnected
| TransportDisconnected
| TransportError.

Definition handle (e : event) (c : Outbound.client) : Outbound.client :=
  match e with
  | StateChange st => onRegistererState st c
  | TransportConnected => onTransportConnected c
  | TransportDisconnected => onTransportDisconnected c
  | TransportError => onTransportError c
  end.

Definition run (es : list event) (c : Outbound.client) : Outbound.client :=
  fold_left (fun c e => handle e c) es c.

(** What an event says about the registration, if anything. *)
Definition verdict (e : event) : option bool :=
  match e with
  | StateChange Registered => Some true
  | StateChange Unregistered | StateChange Terminated => Some false
  | TransportDisconnected | TransportError => Some false
  | StateChange Initial | TransportConnected => None
  end.

End Registration.

(** ** The microphone: [muteMicrophone] and [unmuteMicrophone]
    (lines 2974-3009) *)

Module Microphone.
Import Sip.

(** The client with [this.localStream]: the tracks of the stream, which
    [onCallEstablished] (lines 1891-1899 and 1955-1957) takes from the
    senders of the peer connection, so they are references into the
    same store. *)
Record client := mkClient {
  sip : Sip.client;
  localStream : option (list nat)
}.

(** [track.kind === 'audio'] on the track that [k] refers to. *)
Definition is_audio (σ : TrackStore) (k : nat) : bool :=
  match kind <$> σ !! k with Some audio => true | _ => false end.

(** [localStream.getTracks().forEach(track => { if (track.kind ===
    'audio') track.enabled = b })] *)
Definition set_microphone (b : bool) (ts : list nat) (σ : TrackStore)
  : TrackStore :=
  fold_left (fun σ k => if is_audio σ k then write_enabled b k σ else σ) ts σ.

Definition switch (b : bool) (c : client) : client * bool :=
  match localStream c with
  | Some ts =>
      ({| sip := set_tracks (set_microphone b ts (tracks (sip c))) (sip c);
          localStream := localStream c |}, true)
  | None => (c, false)
  end.

Definition muteMicrophone : client -> client * bool := switch false.
Definition unmuteMicrophone : client -> client * bool := switch true.

End Microphone.

(** ** WAV files: [bufferToWave] (lines 775-825) and [encodeWAV]
    (lines 3446-3481, the same text as lines 3361-3396) *)

Module Wave.

(** A call on a [DataView] returns, or throws a [RangeError] when it
    would write outside the buffer; [OutOfFuel] is a loop that was still
    running when the model stopped following it. *)
Inductive result (A : Type) : Type :=
| Ok : A -> result A
| RangeError : result A
| OutOfFuel : result A.
Arguments Ok {A} _.
Arguments RangeError {A}.
Arguments OutOfFuel {A}.

Definition bind {A B} (m : result A) (k : A -> result B) : result B :=
  match m with
  | Ok a => k a
  | RangeError => RangeError
  | OutOfFuel => OutOfFuel
  end.

Notation "'let*' x ':=' m 'in' k" := (bind m (fun x => k))
  (at level 10, x name, m at level 100, k at level 200).

(** [new ArrayBuffer(length)]: [length] bytes, all zero. *)
Definition ArrayBuffer (length : nat) : list Z := replicate length 0.

(** The bytes of the low 16 and 32 bits of an integer, lowest first
    ([littleEndian] is [true] in every call); for a negative integer
    these are the bytes of its two's complement. *)
Definition le16 (value : Z) : list Z :=
  [value mod 256; value / 256 mod 256].

Definition le32 (value : Z) : list Z :=
  [value mod 256; value / 256 mod 256; value / 65536 mod 256;
   value / 16777216 mod 256].

Definition write (byteOffset : nat) (bytes : list Z) (view : list Z)
  : result (list Z) :=
  if (byteOffset + length bytes <=? length view)%nat then
    Ok (take byteOffset view ++ bytes ++
        drop (byteOffset + length bytes) view)
  else RangeError.

Definition setUint8 (byteOffset : nat) (value : Z) := write byteOffset [value mod 256].
Definition setUint16 (byteOffset : nat) (value : Z) := write byteOffset (le16 value).
Definition setInt16 (byteOffset : nat) (value : Z) := write byteOffset (le16 value).
Definition setUint32 (byteOffset : nat) (value : Z) := write byteOffset (le32 value).

(** [getUint32(byteOffset, true)], with [None] for the [RangeError]. *)
Definition getUint32 (byteOffset : nat) (view : list Z) : option Z :=
  match take 4 (drop byteOffset view) with
  | [a; b; c; d] => Some (a + 256 * b + 65536 * c + 16777216 * d)
  | _ => None
  end.

(** [string.charCodeAt(i)] for each [i]. *)
Definition charCodes (s : string) : list Z :=
  map (fun c => Z.of_N (N_of_ascii c)) (list_ascii_of_string s).

(** The 44 bytes that open a PCM file with 16-bit samples, as the
    format lays them out: the chunk sizes, one format chunk of 16 bytes
    with the channel count, the sample rate, the byte rate and the block
    size, then the size of the data.  Both methods are compared with
    it. *)
Definition header (numOfChan sampleRate dataBytes : Z) : list Z :=
  charCodes "RIFF" ++ le32 (36 + dataBytes) ++
  charCodes "WAVE" ++
  charCodes "fmt " ++ le32 16 ++ le16 1 ++ le16 numOfChan ++
  le32 sampleRate ++ le32 (sampleRate * numOfChan * 2) ++
  le16 (numOfChan * 2) ++ le16 16 ++
  charCodes "data" ++ le32 dataBytes.

(** The view and [pos] of [bufferToWave], which its two closures
    [setUint16] and [setUint32] write at and advance. *)
Record writer := mkWriter { view : list Z; pos : nat }.

Definition put16 (data : Z) (w : writer) : result writer :=
  let* v := setUint16 (pos w) data (view w) in
  Ok (mkWriter v (pos w + 2)).

Definition put32 (data : Z) (w : writer) : result writer :=
  let* v := setUint32 (pos w) data (view w) in
  Ok (mkWriter v (pos w + 4)).

Section Samples.

(** [sample16 i offset] is the number handed to [setInt16] for
    [channels[i][offset]], clamped and scaled (lines 813-814), as the
    integer that [setInt16] makes of it.  The arithmetic on the
    floating-point samples is not followed. *)
Variable sample16 : nat -> nat -> Z.

(** [for (let i = 0; i < numOfChan; i++)], lines 812-817, with [todo]
    turns left. *)
Fixpoint for_channels (todo i offset : nat) (w : writer) : result writer :=
  match todo with
  | O => Ok w
  | S todo =>
      let* v := setInt16 (pos w) (sample16 i offset) (view w) in
      for_channels todo (S i) offset (mkWriter v (pos w + 2))
  end.

(** [while (pos < length)], lines 811-819. *)
Fixpoint while_pos (fuel numOfChan length offset : nat) (w : writer)
  : result writer :=
  if (pos w <? length)%nat then
    match fuel with
    | O => OutOfFuel
    | S fuel =>
        let* w := for_channels numOfChan 0 offset w in
        while_pos fuel numOfChan length (S offset) w
    end
  else Ok w.

(** [bufferToWave(buffer, len)] up to the bytes of the [Blob]:
    [numOfChan] is [buffer.numberOfChannels] and [sampleRate] is
    [buffer.sampleRate], a whole number. *)
Definition bufferToWave (numOfChan : nat) (sampleRate : Z) (len : nat)
  (fuel : nat) : result (list Z) :=
  let length := (len * numOfChan * 2 + 44)%nat in
  let w := mkWriter (ArrayBuffer length) 0 in
  let* w := put32 0x46464952 w in
  let* w := put32 (Z.of_nat length - 8) w in
  let* w := put32 0x45564157 w in
  let* w := put32 0x20746d66 w in
  let* w := put32 16 w in
  let* w := put16 1 w in
  let* w := put16 (Z.of_nat numOfChan) w in
  let* w := put32 sampleRate w in
  let* w := put32 (sampleRate * 2 * Z.of_nat numOfChan) w in
  let* w := put16 (Z.of_nat numOfChan * 2) w in
  let* w := put16 16 w in
  let* w := put32 0x61746164 w in
  let* w := put32 (Z.of_nat length - Z.of_nat (pos w) - 4) w in
  let* w := while_pos fuel numOfChan length 0 w in
  Ok (view w).

(** The data section that a PCM file of [len] frames has: the frames in
    order, in each frame the channels in order, two bytes a sample. *)
Definition interleaved (numOfChan len : nat) : list Z :=
  flat_map
    (fun offset =>
       flat_map (fun i => le16 (sample16 i offset)) (seq 0 numOfChan))
    (seq 0 len).

End Samples.

Section Mono.

(** [sample16 i] is the number handed to [setInt16] for [buffer[i]],
    as above. *)
Variable sample16 : nat -> Z.

(** The closure [writeString], lines 3452-3456. *)
Fixpoint writeString_loop (offset i : nat) (codes : list Z) (view : list Z)
  : result (list Z) :=
  match codes with
  | [] => Ok view
  | c :: codes =>
      let* view := setUint8 (offset + i) c view in
      writeString_loop offset (S i) codes view
  end.

Definition writeString (offset : nat) (s : string) (view : list Z)
  : result (list Z) :=
  writeString_loop offset 0 (charCodes s) view.

(** [for (let i = 0; i < length; i++)], lines 3474-3478. *)
Fixpoint for_samples (todo i offset : nat) (view : list Z)
  : result (list Z) :=
  match todo with
  | O => Ok view
  | S todo =>
      let* view := setInt16 offset (sample16 i) view in
      for_samples todo (S i) (offset + 2) view
  end.

(** [encodeWAV(buffer)], with [length] for [buffer.length]. *)
Definition encodeWAV (length : nat) : result (list Z) :=
  let view := ArrayBuffer (44 + length * 2) in
  let* view := writeString 0 "RIFF" view in
  let* view := setUint32 4 (36 + Z.of_nat length * 2) view in
  let* view := writeString 8 "WAVE" view in
  let* view := writeString 12 "fmt " view in
  let* view := setUint32 16 16 view in
  let* view := setUint16 20 1 view in
  let* view := setUint16 22 1 view in
  let* view := setUint32 24 44100 view in
  let* view := setUint32 28 88200 view in
  let* view := setUint16 32 2 view in
  let* view := setUint16 34 16 view in
  let* view := writeString 36 "data" view in
  let* view := setUint32 40 (Z.of_nat length * 2) view in
  for_samples length 0 44 view.

End Mono.

End Wave.

(** ** Error handling: [handleError], [isCriticalError],
    [isRetryableError], [retry] and [cleanup] (lines 145-246) *)

Module Errors.

(** The fields that these methods read or write. *)
Record client := mkClient {
  tracking : Tracking.state;
  retries : Retry.state;
  tones : Tones.state
}.

Definition criticalErrors : list string :=
  ["Not registered"; "Invalid configuration"; "WebRTC not supported";
   "Microphone access denied"].

Definition retryableErrors : list string :=
  ["Network error"; "Connection timeout"; "ICE gathering failed";
   "Server unavailable"].

(** [phrases.some(phrase => error.message &&
    error.message.includes(phrase))] *)
Definition some_included (phrases : list string) (error : JsError) : bool :=
  existsb
    (fun phrase =>
       negb (bool_decide (err_message error = "")) &&
       includes phrase (err_message error))
    phrases.

Definition isCriticalError : JsError -> bool := some_included criticalErrors.
Definition isRetryableError : JsError -> bool := some_included retryableErrors.

Definition set_retryCount (n : Z) (s : Retry.state) : Retry.state :=
  {| Retry.retryCount := n; Retry.maxRetries := Retry.maxRetries s;
     Retry.retryDelay := Retry.retryDelay s; Retry.timers := Retry.timers s |}.

(** [cleanup()], lines 229-246; [stopHoldMusic] works on other fields. *)
Definition cleanup (c : client) : client :=
  {| tracking := Tracking.cleanup (tracking c);
     retries := set_retryCount 0 (retries c);
     tones := Tones.stopAllTones (tones c) |}.

Definition updateCallState (newState : Outbound.CallState) (now : Z)
  (c : client) : client :=
  {| tracking := Tracking.updateCallState newState now (tracking c);
     retries := retries c; tones := tones c |}.

Definition scheduleRetry (context : string) (c : client) : client :=
  {| tracking := tracking c;
     retries := Retry.scheduleRetry context (retries c);
     tones := tones c |}.

Definition handleError (error : JsError) (context : string) (now : Z)
  (c : client) : client :=
  let c :=
    if isCriticalError error
    then cleanup (updateCallState Outbound.idle now c)
    else c in
  if isRetryableError error then scheduleRetry context c else c.

(** [retry(context)]: [register] is what [await this.register()] does,
    return or throw. *)
Definition retry (context : string) (register : option JsError) (now : Z)
  (c : client) : client :=
  if decide (context = "registration") then
    match register with
    | Some error => handleError error context now c
    | None => c
    end
  else c.

(** The client and its timers: those before [fired] have fired. *)
Record loop := mkLoop { current : client; fired : nat }.

Definition pending (l : loop) : list (Z * string) :=
  drop (fired l) (Retry.timers (retries (current l))).

(** The oldest pending timer fires and its callback runs [retry]. *)
Definition fire (register : option JsError) (now : Z) (l : loop) : loop :=
  match pending l with
  | [] => l
  | (_, context) :: _ =>
      {| current := retry context register now (current l);
         fired := S (fired l) |}
  end.

(** Timers fire as long as there are any, up to [n] of them, and every
    registration attempt fails with [error]. *)
Fixpoint failing (n : nat) (error : JsError) (now : Z) (l : loop) : loop :=
  match n with
  | O => l
  | S n => failing n error now (fire (Some error) now l)
  end.

End Errors.

(** ** The Call-ID of the call: lines 1222-1252 of [makeCall],
    [handleIncomingCall] (lines 1289-1355), lines 1846-1880 of
    [onCallEstablished] and lines 2024-2044 of [onCallTerminated] *)

Module CallId.

(** What the code reads of a session of SIP.js: a property that is
    missing is [None]. *)
Record Message := mkMessage { CallID : option string }.

Record Request := mkRequest {
  message : option Message;
  callId : option string
}.

Record Dialog := mkDialog { dialog_request : option Request }.

(** [peerConnection] tells whether the session has a
    [sessionDescriptionHandler] that has a [peerConnection]. *)
Record Session := mkSession {
  incomingInviteRequest : option Request;
  request : option Request;
  dialog : option Dialog;
  id : option string;
  peerConnection : bool
}.

Record client := mkClient {
  currentSession : option Session;
  sipCallId : option string;
  tones : Tones.state
}.

(** The constructor, line 62. *)
Definition constructor : client :=
  {| currentSession := None; sipCallId := None;
     tones := Tones.initCallTones |}.

(** A string, [null] or [undefined] as a condition. *)
Definition truthy (v : option string) : bool :=
  match v with
  | Some s => negb (bool_decide (s = ""))
  | None => false
  end.

(** [a || b] *)
Definition or (a b : option string) : option string :=
  if truthy a then a else b.

Definition set_sipCallId (v : option string) (c : client) : client :=
  {| currentSession := currentSession c; sipCallId := v; tones := tones c |}.

(** [if (sipCallId) { this.sipCallId = sipCallId; }] *)
Definition store (v : option string) (c : client) : client :=
  if truthy v then set_sipCallId v c else c.

(** [r && r.message], then [r.message.getHeader('Call-ID')]. *)
Definition header (r : option Request) : option string :=
  (r ≫= message) ≫= CallID.

(** Lines 1316-1322 and 1238-1244: the fallbacks. *)
Definition fallback (s : Session) (v : option string) : option string :=
  if truthy v then v
  else if truthy (request s ≫= callId) then request s ≫= callId
  else if truthy (id s) then id s
  else v.

(** Lines 1222-1252 of [makeCall]. *)
Definition makeCall_stored (inviter : Session) (c : client) : client :=
  let c :=
    {| currentSession := Some inviter; sipCallId := sipCallId c;
       tones := tones c |} in
  let sipCallId :=
    if truthy (header (request inviter)) then header (request inviter)
    else None in
  store (fallback inviter sipCallId) c.

Section Trim.

(** [String.prototype.trim]. *)
Variable trim : string -> string.

(** [if (callIdHeader) { v = callIdHeader.trim(); }] *)
Definition trimmed (h v : option string) : option string :=
  match h with
  | Some s => if truthy h then Some (trim s) else v
  | None => v
  end.

(** [handleIncomingCall(invitation)]: [allowed] tells whether the
    browser lets the ring tone play. *)
Definition handleIncomingCall (allowed : bool) (invitation : Session)
  (c : client) : client :=
  let c :=
    {| currentSession := Some invitation; sipCallId := sipCallId c;
       tones := tones c |} in
  let sipCallId := trimmed (header (incomingInviteRequest invitation)) None in
  let sipCallId :=
    if negb (truthy sipCallId) then
      match request invitation ≫= message with
      | Some m => trimmed (CallID m) sipCallId
      | None => sipCallId
      end
    else sipCallId in
  let c := store (fallback invitation sipCallId) c in
  {| currentSession := currentSession c; sipCallId := CallId.sipCallId c;
     tones := Tones.playRingTone allowed (tones c) |}.

(** Lines 1846-1880 of [onCallEstablished], which run only inside the
    [if (sessionDescriptionHandler && sessionDescriptionHandler
    .peerConnection)] of line 1831.  Reading [message] of a request of
    the dialog that has none throws, and the [catch] leaves the Call-ID
    as it is. *)
Definition onCallEstablished (session : Session) (c : client) : client :=
  let from_dialog : option (option string) :=
    match dialog session ≫= dialog_request with
    | Some r =>
        match message r with
        | Some m => Some (trimmed (CallID m) None)
        | None => None
        end
    | None => Some None
    end in
  match (if peerConnection session then from_dialog else None) with
  | None => c
  | Some confirmed =>
      let confirmed :=
        if negb (truthy confirmed) then
          match request session ≫= message with
          | Some m => trimmed (CallID m) confirmed
          | None => confirmed
          end
        else confirmed in
      let confirmed :=
        if negb (truthy confirmed)
        then or (sipCallId c) (or (id session) None)
        else confirmed in
      if truthy confirmed && negb (bool_decide (confirmed = sipCallId c))
      then set_sipCallId confirmed c
      else if truthy confirmed && negb (truthy (sipCallId c))
      then set_sipCallId confirmed c
      else c
  end.

(** Lines 2024-2044 of [onCallTerminated]: the client, and the Call-ID
    that is reported to the server with the end of the call. *)
Definition onCallTerminated (session : Session) (c : client)
  : client * option string :=
  let sipCallId :=
    if truthy (header (request session)) then header (request session)
    else None in
  let sipCallId :=
    if negb (truthy sipCallId)
    then or (CallId.sipCallId c) (or (id session) None)
    else sipCallId in
  let c :=
    if truthy sipCallId && negb (truthy (CallId.sipCallId c))
    then set_sipCallId sipCallId c else c in
  (c, sipCallId).

Inductive event :=
| Outgoing (inviter : Session)
| Incoming (allowed : bool) (invitation : Session)
| Established (session : Session)
| Terminated (session : Session).

Definition handle (e : event) (c : client) : client :=
  match e with
  | Outgoing inviter => makeCall_stored inviter c
  | Incoming allowed invitation => handleIncomingCall allowed invitation c
  | Established session => onCallEstablished session c
  | Terminated session => fst (onCallTerminated session c)
  end.

Definition run (es : list event) (c : client) : client :=
  fold_left (fun c e => handle e c) es c.

End Trim.

End CallId.

(** ** Ending a call: [answerCall], [reject], [hangup] (lines 1666-1770)
    and [disconnect] (lines 2350-2374) *)

Module Teardown.

(** The methods of the session and of the user agent that are called. *)
Inductive method := Accept | Cancel | Bye | Reject | Unregister | Stop.

(** The fields used.  The session is known by its [state];
    [userAgent] and [registerer] tell whether [this.userAgent] and its
    [registerer] exist; [called] is what has been called so far, whether
    it went well or not; [stopped] holds the tracks on which [stop()]
    has been called. *)
Record client := mkClient {
  userAgent : bool;
  registerer : bool;
  isRegistered : bool;
  currentSession : option Sip.SessionState;
  called : list method;
  tones : Tones.state;
  localStream : option (list nat);
  stopped : gset nat;
  recording : Recording.system
}.

Definition call (m : method) (c : client) : client :=
  {| userAgent := userAgent c; registerer := registerer c;
     isRegistered := isRegistered c; currentSession := currentSession c;
     called := called c ++ [m]; tones := tones c;
     localStream := localStream c; stopped := stopped c;
     recording := recording c |}.

Definition set_currentSession (s : option Sip.SessionState) (c : client)
  : client :=
  {| userAgent := userAgent c; registerer := registerer c;
     isRegistered := isRegistered c; currentSession := s;
     called := called c; tones := tones c;
     localStream := localStream c; stopped := stopped c;
     recording := recording c |}.

Definition set_isRegistered (b : bool) (c : client) : client :=
  {| userAgent := userAgent c; registerer := registerer c;
     isRegistered := b; currentSession := currentSession c;
     called := called c; tones := tones c;
     localStream := localStream c; stopped := stopped c;
     recording := recording c |}.

(** [answerCall()]: [accepted] is what [await session.accept(...)]
    does, return or throw. *)
Definition answerCall (accepted : option JsError) (c : client)
  : client * completion bool :=
  match currentSession c with
  | None =>
      (c, Throw (Outbound.formatError (Error "No incoming call to answer")))
  | Some _ =>
      match accepted with
      | None => (call Accept c, Return true)
      | Some error => (call Accept c, Throw (Outbound.formatError error))
      end
  end.

(** [reject()]: [ok] tells whether [await session.reject()] returns. *)
Definition reject (ok : bool) (c : client) : client * bool :=
  match currentSession c with
  | None => (c, false)
  | Some _ =>
      let c :=
        {| userAgent := userAgent c; registerer := registerer c;
           isRegistered := isRegistered c;
           currentSession := currentSession c; called := called c;
           tones := Tones.stopAllTones (tones c);
           localStream := localStream c; stopped := stopped c;
           recording := recording c |} in
      (set_currentSession None (call Reject c), ok)
  end.

(** The method that [hangup] picks for the state of the session. *)
Definition terminate (state : Sip.SessionState) : method :=
  match state with
  | Sip.Initial | Sip.Establishing => Cancel
  | Sip.Established => Bye
  | _ => Reject
  end.

(** [hangup()]: [stop_throws] tells whether [mediaRecorder.stop()]
    throws and [ok] whether the awaited method of the session returns. *)
Definition hangup (now : Z) (stop_throws ok : bool) (c : client)
  : client * bool :=
  match currentSession c with
  | None => (c, false)
  | Some state =>
      let c :=
        {| userAgent := userAgent c; registerer := registerer c;
           isRegistered := isRegistered c;
           currentSession := currentSession c; called := called c;
           tones := tones c;
           localStream := None;
           stopped :=
             match localStream c with
             | Some ts => stopped c ∪ list_to_set ts
             | None => stopped c
             end;
           recording :=
             Recording.stopRecording now stop_throws (recording c) |} in
      (set_currentSession None (call (terminate state) c), ok)
  end.

(** [disconnect()]: [unregistered] and [stopped_ok] tell whether
    [registerer.unregister()] and [userAgent.stop()] return. *)
Definition disconnect (now : Z) (stop_throws hangup_ok unregistered
  stopped_ok : bool) (c : client) : client * bool :=
  let c :=
    match currentSession c with
    | Some _ => fst (hangup now stop_throws hangup_ok c)
    | None => c
    end in
  let '(c, went) :=
    if userAgent c && registerer c
    then (call Unregister c, unregistered) else (c, true) in
  if negb went then (c, false)
  else
    let '(c, went) :=
      if userAgent c then (call Stop c, stopped_ok) else (c, true) in
    if negb went then (c, false)
    else (set_isRegistered false c, true).

(** What is done to a client during a call: the user answers, rejects
    or hangs up, and the session moves to another state. *)
Inductive op :=
| AnswerCall (accepted : option JsError)
| RejectCall (ok : bool)
| Hangup (now : Z) (stop_throws ok : bool)
| StateChange (state : Sip.SessionState).

Definition apply (o : op) (c : client) : client :=
  match o with
  | AnswerCall accepted => fst (answerCall accepted c)
  | RejectCall ok => fst (reject ok c)
  | Hangup now stop_throws ok => fst (hangup now stop_throws ok c)
  | StateChange state =>
      match currentSession c with
      | Some _ => set_currentSession (Some state) c
      | None => c
      end
  end.

Definition run (ops : list op) (c : client) : client :=
  fold_left (fun c o => apply o c) ops c.

(** The methods that end a session. *)
Definition ends_session (m : method) : bool :=
  match m with Cancel | Bye | Reject => true | _ => false end.

End Teardown.

(** ** The systray: [holdCurrentCall], [resumeCall] and [toggleMute] of
    [VoipSystray] (lines 766-798 and 1417-1443 of the component; the
    [toggleMute] of line 1263 is replaced by the later one) *)

Module Systray.

(** [this.state.isMuted] and [this.state.isOnHold], and the client that
    [this.voip.getVoipClient()] returns, [None] for none. *)
Record state := mkState {
  voipClient : option Microphone.client;
  isMuted : bool;
  isOnHold : bool
}.

Definition with_sip (sc : Sip.client) (c : Microphone.client)
  : Microphone.client :=
  {| Microphone.sip := sc;
     Microphone.localStream := Microphone.localStream c |}.

(** [holdCurrentCall()]: [o] is what becomes of the re-INVITE.  When
    [holdCall] throws, the [catch] shows a notification. *)
Definition holdCurrentCall (o : Hold.outcome) (ui : state) : state :=
  match voipClient ui with
  | Some c =>
      match Sip.currentSession (Microphone.sip c) with
      | Some _ =>
          let '(sc, r) := Hold.holdCall o (Microphone.sip c) in
          {| voipClient := Some (with_sip sc c);
             isMuted := isMuted ui;
             isOnHold :=
               match Hold.returned r with
               | Return _ => true
               | Throw _ => isOnHold ui
               end |}
      | None => ui
      end
  | None => ui
  end.

(** [resumeCall()] of the systray. *)
Definition resumeCall (o : Hold.outcome) (ui : state) : state :=
  match voipClient ui with
  | Some c =>
      match Sip.currentSession (Microphone.sip c) with
      | Some _ =>
          let '(sc, r) := Hold.resumeCall o (Microphone.sip c) in
          {| voipClient := Some (with_sip sc c);
             isMuted := isMuted ui;
             isOnHold :=
               match Hold.returned r with
               | Return _ => false
               | Throw _ => isOnHold ui
               end |}
      | None => ui
      end
  | None => ui
  end.

(** [toggleMute()]: without a client it throws and the [catch] shows a
    notification; what the client's methods return is not looked at. *)
Definition toggleMute (ui : state) : state :=
  match voipClient ui with
  | None => ui
  | Some c =>
      if isMuted ui then
        {| voipClient := Some (Microphone.unmuteMicrophone c).1;
           isMuted := false; isOnHold := isOnHold ui |}
      else
        {| voipClient := Some (Microphone.muteMicrophone c).1;
           isMuted := true; isOnHold := isOnHold ui |}
  end.

End Systray.

(** ** Loading SIP.js: [loadSipLibrary] of [sip_init.js], which
    [initialize] awaits (line 885) *)

Module Loader.

(** A promise of the loader: pending, or settled for good. *)
Inductive settled := Pending | Fulfilled | Rejected (message : string).

(** The page: whether [window.SIP] is defined, the module variable
    [sipLoadPromise] (a promise, by its index), the promises the loader
    has made, the [src] of the scripts of the document and its origin,
    and the script elements the loader has appended to the head, each
    with its [src] and the promise its handlers settle. *)
Record page := mkPage {
  SIP : bool;
  sipLoadPromise : option nat;
  promises : list settled;
  origin : string;
  scripts : list string;
  appended : list (string * nat)
}.

(** [s.endsWith(suffix)] *)
Definition endsWith (suffix s : string) : bool :=
  (String.length suffix <=? String.length s)%nat &&
  String.eqb
    (substring (String.length s - String.length suffix)
       (String.length suffix) s)
    suffix.

(** Lines 41-57: the loop over the scripts, which stops at the first
    [src] that has "/assets/" after its first character. *)
Fixpoint baseUrl (origin : string) (srcs : list string) : string :=
  match srcs with
  | [] => origin
  | src :: srcs =>
      if includes "/assets/" src then
        match index 0 "/assets/" src with
        | Some (S i) =>
            let baseUrl := substring 0 (S i) src in
            if endsWith "/web" baseUrl
            then substring 0 (String.length baseUrl - 4) baseUrl
            else baseUrl
        | _ => baseUrl origin srcs
        end
      else baseUrl origin srcs
  end.

(** [resolve] and [reject]: a promise that is settled stays as it is. *)
Definition settle (pr : nat) (o : settled) (p : page) : page :=
  match promises p !! pr with
  | Some Pending =>
      {| SIP := SIP p; sipLoadPromise := sipLoadPromise p;
         promises := <[pr := o]> (promises p);
         origin := origin p; scripts := scripts p; appended := appended p |}
  | _ => p
  end.

(** [loadSipLibrary()]: the page and the promise returned. *)
Definition loadSipLibrary (p : page) : page * nat :=
  match sipLoadPromise p with
  | Some pr => (p, pr)
  | None =>
      let pr := length (promises p) in
      if SIP p then
        ({| SIP := SIP p; sipLoadPromise := None;
            promises := promises p ++ [Fulfilled];
            origin := origin p; scripts := scripts p;
            appended := appended p |}, pr)
      else if SIP p then
        ({| SIP := SIP p; sipLoadPromise := Some pr;
            promises := promises p ++ [Fulfilled];
            origin := origin p; scripts := scripts p;
            appended := appended p |}, pr)
      else
        let sipUrl :=
          (baseUrl (origin p) (scripts p ++ (appended p).*1) +:+
           "/voip_webrtc_freepbx/static/src/js/sip.min.js")%string in
        ({| SIP := SIP p; sipLoadPromise := Some pr;
            promises := promises p ++ [Pending];
            origin := origin p; scripts := scripts p;
            appended := appended p ++ [(sipUrl, pr)] |}, pr)
  end.

(** The timer that [script.onload] sets, lines 72-81, when it fires for
    the [i]-th script appended. *)
Definition onload_timer (i : nat) (p : page) : page :=
  match appended p !! i with
  | Some (_, pr) =>
      if SIP p then settle pr Fulfilled p
      else
        settle pr
          (Rejected "SIP.js library loaded but window.SIP is not defined") p
  | None => p
  end.

(** [script.onerror], lines 84-88. *)
Definition onerror (i : nat) (p : page) : page :=
  match appended p !! i with
  | Some (sipUrl, pr) =>
      settle pr (Rejected ("Failed to load SIP.js from " +:+ sipUrl)) p
  | None => p
  end.

(** The timer set when the module is loaded, lines 101-112. *)
Definition preload (p : page) : page :=
  if SIP p then p else (loadSipLibrary p).1.

(** [window.SIP] becomes defined: the library has run. *)
Definition define (p : page) : page :=
  {| SIP := true; sipLoadPromise := sipLoadPromise p;
     promises := promises p; origin := origin p; scripts := scripts p;
     appended := appended p |}.

Inductive event :=
| Call
| Preload
| Defined
| Loaded (i : nat)
| Failed (i : nat).

Definition handle (e : event) (p : page) : page :=
  match e with
  | Call => (loadSipLibrary p).1
  | Preload => preload p
  | Defined => define p
  | Loaded i => onload_timer i p
  | Failed i => onerror i p
  end.

Definition run (es : list event) (p : page) : page :=
  fold_left (fun p e => handle e p) es p.

(** The page when the module is loaded. *)
Definition boot (SIP : bool) (origin : string) (scripts : list string)
  : page :=
  {| SIP := SIP; sipLoadPromise := None; promises := [];
     origin := origin; scripts := scripts; appended := [] |}.

(** What the loader keeps true: the module variable refers to a promise
    that exists, and a script has been appended only if the module
    variable is set, and then only one. *)
Definition tidy (p : page) : Prop :=
  (forall pr, sipLoadPromise p = Some pr -> (pr < length (promises p))%nat) /\
  (sipLoadPromise p = None -> appended p = []) /\
  (length (appended p) <= 1)%nat.

(** [p'] is a later state of the page [p]: what is settled or set
    in [p] is the same in [p']. *)
Definition later (p p' : page) : Prop :=
  (forall pr, sipLoadPromise p = Some pr ->
     sipLoadPromise p' = Some pr /\ appended p' = appended p) /\
  (forall pr o, promises p !! pr = Some o -> o <> Pending ->
     promises p' !! pr = Some o).

End Loader.

(** * Properties *)

(** ** Retry policy *)

Lemma scheduleRetry_below (context : string) (s : Retry.state) :
  Retry.retryCount s < Retry.maxRetries s ->
  Retry.scheduleRetry context s =
    {| Retry.retryCount := Retry.retryCount s + 1;
       Retry.maxRetries := Retry.maxRetries s;
       Retry.retryDelay := Retry.retryDelay s;
       Retry.timers :=
         Retry.timers s ++ [(Retry.retryDelay s * 2 ^ Retry.retryCount s, context)] |}.
Proof.
  intros Hlt. unfold Retry.scheduleRetry.
  destruct (Z.ltb_spec (Retry.retryCount s) (Retry.maxRetries s)); [|lia].
  cbv zeta. by replace (Retry.retryCount s + 1 - 1) with (Retry.retryCount s) by lia.
Qed.

Lemma scheduleRetry_exhausted (context : string) (s : Retry.state) :
  Retry.maxRetries s <= Retry.retryCount s ->
  Retry.scheduleRetry context s =
    {| Retry.retryCount := 0;
       Retry.maxRetries := Retry.maxRetries s;
       Retry.retryDelay := Retry.retryDelay s;
       Retry.timers := Retry.timers s |}.
Proof.
  intros Hge. unfold Retry.scheduleRetry.
  destruct (Z.ltb_spec (Retry.retryCount s) (Retry.maxRetries s)); [lia|done].
Qed.

(** Four retryable errors in a row on a new client: three timers, of one,
    two and four seconds, and the counter back at zero. *)
Example retries_of_a_new_client :
  Retry.retries 4 "registration" Retry.constructor =
    {| Retry.retryCount := 0; Retry.maxRetries := 3; Retry.retryDelay := 1000;
       Retry.timers := [(1000, "registration"); (2000, "registration");
                        (4000, "registration")] |}.
Proof. reflexivity. Qed.

(** C9. The constructor sets [maxRetries] to 3 and [retryDelay] to 1000.
    When [scheduleRetry] is called for the [k]-th time in a row (the
    counter stands at [k - 1]) and [k] is at most [maxRetries], it arms one
    timer with delay [retryDelay * 2^(k-1)] and the counter becomes [k];
    when the counter has reached [maxRetries], it arms no timer and resets
    the counter to zero. *)
Theorem scheduleRetry_backoff (context : string) (s : Retry.state) (k : Z) :
  1 <= k ->
  Retry.retryCount s = k - 1 ->
  let s' := Retry.scheduleRetry context s in
  (Retry.maxRetries Retry.constructor = 3 /\
   Retry.retryDelay Retry.constructor = 1000 /\
   Retry.retryCount Retry.constructor = 0) /\
  (Retry.maxRetries s' = Retry.maxRetries s /\
   Retry.retryDelay s' = Retry.retryDelay s) /\
  (k <= Retry.maxRetries s ->
   Retry.retryCount s' = k /\
   Retry.timers s' =
     Retry.timers s ++ [(Retry.retryDelay s * 2 ^ (k - 1), context)]) /\
  (Retry.maxRetries s < k ->
   Retry.retryCount s' = 0 /\ Retry.timers s' = Retry.timers s).
Proof.
  intros Hk Hcount s'. split; [done|].
  destruct (Z.lt_ge_cases (Retry.retryCount s) (Retry.maxRetries s)) as [Hlt|Hge].
  - subst s'. rewrite (scheduleRetry_below _ _ Hlt). cbn.
    split; [done|]. split; [|lia].
    intros _. split; [lia|]. by rewrite Hcount.
  - subst s'. rewrite (scheduleRetry_exhausted _ _ Hge). cbn.
    split; [done|]. split; [lia|done].
Qed.

Lemma scheduleRetry_backoff_witness :
  Retry.retryCount (Retry.scheduleRetry "registration" Retry.constructor) = 1 /\
  Retry.timers (Retry.scheduleRetry "registration" Retry.constructor) =
    [(1000, "registration")].
Proof.
  destruct (scheduleRetry_backoff "registration" Retry.constructor 1)
    as (_ & _ & Hk & _); [lia | reflexivity |].
  apply Hk. simpl. lia.
Defined.

(** ** Indicator tones *)

Lemma apply_at_most_one (o : Tones.op) (s : Tones.state) :
  (Tones.playing_count s <= 1)%nat ->
  (Tones.playing_count (Tones.apply o s) <= 1)%nat.
Proof.
  destruct o as [[]|[]|[]| |dt]; cbn; try lia.
  destruct s as [[[] ?] [[] ?] [[] ?]]; cbn; lia.
Qed.

Lemma run_at_most_one (ops : list Tones.op) (s : Tones.state) :
  (Tones.playing_count s <= 1)%nat ->
  (Tones.playing_count (Tones.run ops s) <= 1)%nat.
Proof.
  revert s. induction ops as [|o ops IH]; intros s Hs; [done|].
  cbn. apply IH, apply_at_most_one, Hs.
Qed.

(** C10. Each of [playRingbackTone], [playBusyTone] and [playRingTone]
    first does what [stopAllTones] does, so in any state it leaves the
    other two tones paused at position zero; and after any sequence of
    play and stop operations on a new client (with time passing in
    between) at most one of the three tones is playing. *)
Theorem at_most_one_tone (ops : list Tones.op) (s : Tones.state) (allowed : bool) :
  Tones.playRingbackTone allowed s =
    Tones.playRingbackTone allowed (Tones.stopAllTones s) /\
  Tones.playBusyTone allowed s =
    Tones.playBusyTone allowed (Tones.stopAllTones s) /\
  Tones.playRingTone allowed s =
    Tones.playRingTone allowed (Tones.stopAllTones s) /\
  (Tones.silenced (Tones.busyTone (Tones.playRingbackTone allowed s)) /\
   Tones.silenced (Tones.ringTone (Tones.playRingbackTone allowed s))) /\
  (Tones.silenced (Tones.ringbackTone (Tones.playBusyTone allowed s)) /\
   Tones.silenced (Tones.ringTone (Tones.playBusyTone allowed s))) /\
  (Tones.silenced (Tones.ringbackTone (Tones.playRingTone allowed s)) /\
   Tones.silenced (Tones.busyTone (Tones.playRingTone allowed s))) /\
  (Tones.playing_count (Tones.run ops Tones.initCallTones) <= 1)%nat.
Proof.
  repeat split; try reflexivity.
  apply run_at_most_one. cbn. lia.
Qed.

(** ** Recording *)

Lemma saveRecording_start_guarded (now : Z) (s : Recording.state) :
  Recording.recordingSaved s || Recording.recordingSaving s = true ->
  snd (Recording.saveRecording_start now s) = None.
Proof. intros H. unfold Recording.saveRecording_start. by rewrite H. Qed.

Lemma saveRecording_start_sends (now : Z) (s s1 : Recording.state)
  (r : Recording.Request) :
  Recording.saveRecording_start now s = (s1, Some r) ->
  Recording.recordingSaved s = false /\
  Recording.recordingSaving s = false /\
  Recording.recordedChunks s <> [] /\
  s1 = Recording.set_saving true s /\
  Recording.req_recording r = concat (Recording.recordedChunks s).
Proof.
  unfold Recording.saveRecording_start.
  destruct (Recording.recordingSaved s), (Recording.recordingSaving s);
    cbn [orb]; try discriminate.
  case_bool_decide; [discriminate|].
  intros [= <- <-]. done.
Qed.

Lemma saveRecording_start_retry (now : Z) (s : Recording.state) :
  Recording.recordingSaved s = false ->
  Recording.recordingSaving s = false ->
  Recording.recordedChunks s <> [] ->
  exists r,
    snd (Recording.saveRecording_start now s) = Some r /\
    Recording.req_recording r = concat (Recording.recordedChunks s).
Proof.
  intros Hsaved Hsaving Hchunks. unfold Recording.saveRecording_start.
  rewrite Hsaved, Hsaving. cbn [orb].
  case_bool_decide; [done|]. eexists. split; reflexivity.
Qed.

(** C2. When [saveRecording] has sent its request and the upload fails
    (fetch rejects, or the server answers with a status that is not OK),
    the call ends with the chunks as they were, the saving flag cleared
    and the saved flag still false; a later call of [saveRecording] then
    sends a request again, with the same recording. *)
Theorem failed_upload_keeps_chunks (now : Z) (o : Recording.upload_outcome)
  (s s' : Recording.state) (r : Recording.Request) :
  Recording.saveRecording now o s = (s', Some r) ->
  Recording.failed o = true ->
  Recording.recordedChunks s' = Recording.recordedChunks s /\
  Recording.recordingSaving s' = false /\
  Recording.recordingSaved s' = false /\
  forall later, exists r',
    snd (Recording.saveRecording_start later s') = Some r' /\
    Recording.req_recording r' = Recording.req_recording r.
Proof.
  unfold Recording.saveRecording.
  destruct (Recording.saveRecording_start now s) as [s1 [r1|]] eqn:Hstart;
    [|discriminate].
  intros [= <- <-] Hfailed.
  apply saveRecording_start_sends in Hstart
    as (Hsaved & Hsaving & Hchunks & -> & Hblob).
  assert (Recording.settle o (Recording.set_saving true s)
          = Recording.set_saving false (Recording.set_saving true s)) as ->.
  { destruct o as [|status b|status b]; cbn in Hfailed |- *;
      [done| |discriminate].
    apply negb_true_iff in Hfailed. by rewrite Hfailed. }
  repeat split; try done.
  intros later. rewrite Hblob.
  apply (saveRecording_start_retry later
           (Recording.set_saving false (Recording.set_saving true s))); done.
Qed.

Lemma failed_upload_keeps_chunks_witness :
  Recording.recordedChunks
    (fst (Recording.saveRecording 6000 (Recording.ServerRefused 500 true)
            Scenario.two_chunks))
  = [Scenario.chunk1; Scenario.chunk2].
Proof.
  destruct (Recording.saveRecording 6000 (Recording.ServerRefused 500 true)
              Scenario.two_chunks) as [s' r] eqn:E.
  destruct r as [r|]; [|vm_compute in E; discriminate].
  destruct (failed_upload_keeps_chunks _ _ _ _ _ E eq_refl) as (H & _).
  cbn [fst]. rewrite H. reflexivity.
Defined.

(** The guard of [saveRecording] is left through the [finally] block: a
    call that finds an upload under way clears the saving flag. *)
Lemma saveRecording_guard_unlocks (now : Z) (s : Recording.state) :
  Recording.recordingSaved s = false ->
  Recording.recordingSaving s = true ->
  Recording.saveRecording_start now s = (Recording.set_saving false s, None).
Proof.
  intros Hsaved Hsaving. unfold Recording.saveRecording_start.
  by rewrite Hsaved, Hsaving.
Qed.

(** C1. The user stops the recording and hangs up before the upload has
    been answered (the run [Scenario.stop_then_hangup]): [saveRecording]
    is called three times, the second call finds the saving flag set and
    clears it on its way out, the third call sends a second request, and
    the server accepts both requests, each with the whole recording. *)
Theorem two_uploads_accepted :
  let sys := Recording.run Scenario.stop_then_hangup
               (Recording.boot Scenario.in_call) in
  Recording.accepted sys = [0; 1]%nat /\
  Recording.req_recording <$> Recording.posts sys =
    [Scenario.chunk1 ++ Scenario.chunk2; Scenario.chunk1 ++ Scenario.chunk2] /\
  Recording.inflight sys = ∅.
Proof. vm_compute. done. Qed.

(** ** Hold and resume *)

Lemma flowed_refl (b : bool) (σ : Sip.TrackStore) : Hold.flowed b σ σ.
Proof. intros k. by left. Qed.

Lemma set_enabled_twice (b b' : bool) (o : option Sip.Track) :
  Sip.set_enabled b <$> (Sip.set_enabled b' <$> o) = Sip.set_enabled b <$> o.
Proof. by destruct o. Qed.

Lemma write_flowed (b : bool) (σ0 σ : Sip.TrackStore) (j : nat) :
  Hold.flowed b σ0 σ -> Hold.flowed b σ0 (Sip.write_enabled b j σ).
Proof.
  intros H k. unfold Sip.write_enabled.
  destruct (decide (j = k)) as [->|Hne].
  - right. rewrite lookup_alter_eq.
    destruct (H k) as [-> | ->]; [done|apply set_enabled_twice].
  - rewrite lookup_alter_ne by done. apply H.
Qed.

Lemma write_written (b : bool) (σ0 σ : Sip.TrackStore) (j : nat) :
  Hold.flowed b σ0 σ -> Hold.written b σ0 (Sip.write_enabled b j σ) j.
Proof.
  intros H. unfold Hold.written, Sip.write_enabled. rewrite lookup_alter_eq.
  destruct (H j) as [-> | ->]; [done|apply set_enabled_twice].
Qed.

Lemma written_kept (b : bool) (σ0 σ : Sip.TrackStore) (j k : nat) :
  Hold.written b σ0 σ k -> Hold.written b σ0 (Sip.write_enabled b j σ) k.
Proof.
  unfold Hold.written, Sip.write_enabled. intros H.
  destruct (decide (j = k)) as [->|Hne].
  - rewrite lookup_alter_eq, H. apply set_enabled_twice.
  - by rewrite lookup_alter_ne.
Qed.

Lemma absent_written (b : bool) (σ0 σ : Sip.TrackStore) (k : nat) :
  Hold.flowed b σ0 σ -> σ !! k = None -> Hold.written b σ0 σ k.
Proof.
  intros H Hk. unfold Hold.written.
  rewrite Hk. destruct (H k) as [E|E]; rewrite Hk in E; [by rewrite <- E | done].
Qed.

Lemma receivers_flow_spec (b : bool) (rs : list (option nat))
  (σ0 σ : Sip.TrackStore) :
  Hold.flowed b σ0 σ ->
  Hold.flowed b σ0 (Hold.receivers_flow b rs σ) /\
  (forall k, Hold.written b σ0 σ k ->
             Hold.written b σ0 (Hold.receivers_flow b rs σ) k) /\
  (forall k, Some k ∈ rs -> Hold.written b σ0 (Hold.receivers_flow b rs σ) k).
Proof.
  revert σ. induction rs as [|r rs IH]; intros σ Hσ; cbn.
  - split; [done|]. split; [done|]. intros k Hk. by apply elem_of_nil in Hk.
  - set (σ1 := match r with Some k => Sip.write_enabled b k σ | None => σ end).
    assert (Hold.flowed b σ0 σ1) as H1.
    { subst σ1. destruct r; [by apply write_flowed|done]. }
    destruct (IH σ1 H1) as (Hf & Hkeep & Hin).
    split; [done|]. split.
    + intros k Hk. apply Hkeep. subst σ1.
      destruct r; [by apply written_kept|done].
    + intros k Hk. apply elem_of_cons in Hk as [Hr|Hk]; [|by apply Hin].
      apply Hkeep. subst σ1 r. by apply write_written.
Qed.

Lemma sender_flow_spec (b : bool) (d : option Sip.SessionData)
  (r : option nat) (σ0 σ σ' : Sip.TrackStore) (e : option JsError) :
  Hold.flowed b σ0 σ ->
  Hold.sender_flow b d r σ = (σ', e) ->
  Hold.flowed b σ0 σ' /\
  (forall k, Hold.written b σ0 σ k -> Hold.written b σ0 σ' k) /\
  (e = None -> forall k, r = Some k -> Hold.written b σ0 σ' k) /\
  (is_Some d -> e = None).
Proof.
  intros Hσ. unfold Hold.sender_flow.
  destruct r as [k|]; [|by intros [= <- <-]].
  destruct (σ !! k) as [t|] eqn:Hk.
  2:{ intros [= <- <-]. split; [done|]. split; [done|]. split; [|done].
      intros _ k' [= <-]. by apply absent_written. }
  assert (forall σ1, Hold.flowed b σ0 σ1 ->
            (forall k', Hold.written b σ0 σ k' -> Hold.written b σ0 σ1 k') ->
            Hold.flowed b σ0 (Sip.write_enabled b k σ1) /\
            (forall k', Hold.written b σ0 σ k' ->
                        Hold.written b σ0 (Sip.write_enabled b k σ1) k') /\
            (@None JsError = None -> forall k', Some k = Some k' ->
                        Hold.written b σ0 (Sip.write_enabled b k σ1) k') /\
            (is_Some d -> @None JsError = None)) as Hwrite.
  { intros σ1 H1 Hkeep. split; [by apply write_flowed|]. split.
    - intros k' Hk'. by apply written_kept, Hkeep.
    - split; [|done]. intros _ k' [= <-]. by apply write_written. }
  destruct (Sip.kind t).
  - destruct (Sip.IsMixedTrack t).
    + destruct d as [d|].
      * intros [= <- <-]. apply Hwrite.
        -- destruct (Sip.AudioSourceTrack d) as [a|]; [|done].
           destruct (Sip.kind <$> σ !! a) as [[]|]; try done.
           by apply write_flowed.
        -- intros k' Hk'.
           destruct (Sip.AudioSourceTrack d) as [a|]; [|done].
           destruct (Sip.kind <$> σ !! a) as [[]|]; try done.
           by apply written_kept.
      * intros [= <- <-]. split; [done|]. split; [done|]. split; [done|].
        by intros [? ?].
    + intros [= <- <-]. by apply Hwrite.
  - intros [= <- <-]. by apply Hwrite.
Qed.

Lemma senders_flow_spec (b : bool) (d : option Sip.SessionData)
  (rs : list (option nat)) (σ0 σ σ' : Sip.TrackStore) (e : option JsError) :
  Hold.flowed b σ0 σ ->
  Hold.senders_flow b d rs σ = (σ', e) ->
  Hold.flowed b σ0 σ' /\
  (forall k, Hold.written b σ0 σ k -> Hold.written b σ0 σ' k) /\
  (e = None -> forall k, Some k ∈ rs -> Hold.written b σ0 σ' k) /\
  (is_Some d -> e = None).
Proof.
  revert σ. induction rs as [|r rs IH]; intros σ Hσ; cbn.
  - intros [= <- <-]. split; [done|]. split; [done|]. split; [|done].
    intros _ k Hk. by apply elem_of_nil in Hk.
  - destruct (Hold.sender_flow b d r σ) as [σ1 e1] eqn:E1.
    destruct (sender_flow_spec _ _ _ _ _ _ _ Hσ E1) as (H1 & Hkeep1 & Hin1 & Hd1).
    destruct e1 as [e1|].
    + intros [= <- <-]. split; [done|]. split; [done|]. split; [done|].
      intros Hd. by specialize (Hd1 Hd).
    + intros E. destruct (IH σ1 H1 E) as (H2 & Hkeep2 & Hin2 & Hd2).
      split; [done|]. split; [by auto|]. split; [|done].
      intros -> k Hk. apply elem_of_cons in Hk as [Hr|Hk].
      * apply Hkeep2. by apply Hin1.
      * by apply Hin2.
Qed.

Lemma onAccept_returns (held : bool) (ev now : string) (c c' : Sip.client)
  (s : Sip.Session) (pc : Sip.PeerConnection) :
  Sip.currentSession c = Some s ->
  Sip.sessionDescriptionHandler s = Some (Sip.mkSDH (Some pc)) ->
  Hold.onAccept held ev now c = (c', Return tt) ->
  Sip.currentSession c' = Some (Hold.log_hold ev now (Sip.set_isOnHold held s)) /\
  Hold.flowed (negb held) (Sip.tracks c) (Sip.tracks c') /\
  forall k, Some k ∈ Sip.receivers pc ++ Sip.senders pc ->
            Hold.written (negb held) (Sip.tracks c) (Sip.tracks c') k.
Proof.
  intros Hs Hpc. unfold Hold.onAccept. rewrite Hs, Hpc.
  destruct (receivers_flow_spec (negb held) (Sip.receivers pc)
              (Sip.tracks c) (Sip.tracks c) (flowed_refl _ _))
    as (Hr & _ & Hrin).
  destruct (Hold.senders_flow _ _ _ _) as [σ e] eqn:E.
  destruct (senders_flow_spec _ _ _ _ _ _ _ Hr E) as (Hf & Hkeep & Hsin & _).
  destruct e as [e|]; [discriminate|]. intros [= <-]. cbn.
  split; [done|]. split; [done|].
  intros k Hk. apply elem_of_app in Hk as [Hk|Hk]; [|by apply Hsin].
  by apply Hkeep, Hrin.
Qed.

Lemma onAccept_with_data (held : bool) (ev now : string) (c : Sip.client)
  (s : Sip.Session) :
  Sip.currentSession c = Some s ->
  is_Some (Sip.data s) ->
  exists c', Hold.onAccept held ev now c = (c', Return tt).
Proof.
  intros Hs Hd. unfold Hold.onAccept. rewrite Hs.
  destruct (Sip.sessionDescriptionHandler s) as [[[pc|]]|]; try by eexists.
  destruct (Hold.senders_flow _ _ _ _) as [σ e] eqn:E.
  destruct (senders_flow_spec _ _ _ _ _ _ _
              (flowed_refl _ _) E) as (_ & _ & _ & He).
  rewrite (He Hd). by eexists.
Qed.

(** The part of the roll-back that holds: a hold that is rejected, or
    whose re-INVITE fails, leaves the flag as false as it was. *)
Lemma holdCall_failure_keeps_flag (o : Hold.outcome) (c : Sip.client)
  (s : Sip.Session) :
  Sip.currentSession c = Some s ->
  (forall now, o <> Hold.Accepted now) ->
  exists s', Sip.currentSession (fst (Hold.holdCall o c)) = Some s' /\
             Sip.heldFlag s' = Sip.heldFlag s.
Proof.
  intros Hs Ho.
  unfold Hold.holdCall, Hold.attempt, Hold.holdCall_begin, Hold.begin.
  rewrite Hs. unfold Sip.heldFlag.
  case_bool_decide as Hheld; [by exists s|].
  assert (match Sip.isOnHold s with Some true => true | _ => false end = false)
    as -> by (destruct (Sip.isOnHold s) as [[]|]; done).
  cbn. destruct (Sip.sessionDescriptionHandlerOptionsReInvite s); cbn.
  - destruct o as [now| |e]; cbn; [by destruct (Ho now)| |]; by eexists.
  - by eexists.
Qed.

(** The same for a resume, when the call was on hold. *)
Lemma resumeCall_failure_keeps_flag (o : Hold.outcome) (c : Sip.client)
  (s : Sip.Session) :
  Sip.currentSession c = Some s ->
  is_Some (Sip.isOnHold s) ->
  (forall now, o <> Hold.Accepted now) ->
  exists s', Sip.currentSession (fst (Hold.resumeCall o c)) = Some s' /\
             Sip.heldFlag s' = Sip.heldFlag s.
Proof.
  intros Hs [b Hb] Ho.
  unfold Hold.resumeCall, Hold.attempt, Hold.resumeCall_begin, Hold.begin.
  rewrite Hs. unfold Sip.heldFlag. rewrite Hb.
  case_bool_decide as Hheld; [by exists s; rewrite Hb|].
  destruct b; [|done].
  cbn. destruct (Sip.sessionDescriptionHandlerOptionsReInvite s); cbn.
  - destruct o as [now| |e]; cbn; [by destruct (Ho now)| |]; by eexists.
  - by eexists.
Qed.

(** C3. [resumeCall] on an established call that was never put on hold
    ([isOnHold] is still [undefined]): the guard [isOnHold === false] does
    not stop it, the re-INVITE is sent, and when the peer rejects it
    [onReject] sets [isOnHold] to [true] and throws: the call, which was
    not on hold before the attempt, is left marked as held. *)
Theorem resume_rejected_marks_call_held :
  Sip.heldFlag Scenario.established_session = false /\
  exists c' s',
    Hold.resumeCall Hold.Rejected Scenario.established =
      (c', Hold.mkReport (Return true)
             (Some (Error "Failed to take call off hold"))) /\
    Sip.currentSession c' = Some s' /\
    Sip.sent s' = [Sip.ReInvite false] /\
    Sip.isOnHold s' = Some true /\
    Sip.heldFlag s' = true.
Proof.
  split; [reflexivity|]. do 2 eexists.
  split; [reflexivity|]. cbn. done.
Qed.

(** ** Hold, hold music and resume *)

Lemma flowed_fields (b : bool) (σ0 σ : Sip.TrackStore) (k : nat) (t : Sip.Track) :
  Hold.flowed b σ0 σ ->
  σ0 !! k = Some t ->
  exists e,
    σ !! k = Some {| Sip.kind := Sip.kind t; Sip.enabled := e;
                     Sip.IsMixedTrack := Sip.IsMixedTrack t |}.
Proof.
  intros Hf Ht. destruct (Hf k) as [E|E]; rewrite E, Ht.
  - exists (Sip.enabled t). by destruct t.
  - by exists b.
Qed.

Lemma written_fields (b : bool) (σ0 σ : Sip.TrackStore) (k : nat) (t : Sip.Track) :
  Hold.written b σ0 σ k ->
  σ0 !! k = Some t ->
  σ !! k = Some {| Sip.kind := Sip.kind t; Sip.enabled := b;
                   Sip.IsMixedTrack := Sip.IsMixedTrack t |}.
Proof. unfold Hold.written. intros -> ->. done. Qed.

(** An accepted hold of a call that is not on hold. *)
Lemma holdCall_accepted (c c1 : Sip.client) (s : Sip.Session)
  (pc : Sip.PeerConnection) (t1 : string) :
  Sip.currentSession c = Some s ->
  Sip.sessionDescriptionHandler s = Some (Sip.mkSDH (Some pc)) ->
  Sip.heldFlag s = false ->
  Hold.holdCall (Hold.Accepted t1) c = (c1, Hold.mkReport (Return true) None) ->
  exists s1,
    Sip.currentSession c1 = Some s1 /\
    Sip.isOnHold s1 = Some true /\
    Sip.state s1 = Sip.state s /\
    Sip.sessionDescriptionHandler s1 = Some (Sip.mkSDH (Some pc)) /\
    Sip.sessionDescriptionHandlerOptionsReInvite s1 = Some (Some true) /\
    is_Some (Sip.data s1) /\
    Hold.flowed false (Sip.tracks c) (Sip.tracks c1) /\
    forall k, Some k ∈ Sip.receivers pc ++ Sip.senders pc ->
              Hold.written false (Sip.tracks c) (Sip.tracks c1) k.
Proof.
  intros Hs Hpc Hheld.
  unfold Hold.holdCall, Hold.attempt, Hold.holdCall_begin, Hold.begin.
  rewrite Hs.
  case_bool_decide as Hflag;
    [unfold Sip.heldFlag in Hheld; by rewrite Hflag in Hheld|].
  cbn [Sip.set_isOnHold Sip.sessionDescriptionHandlerOptionsReInvite].
  destruct (Sip.sessionDescriptionHandlerOptionsReInvite s) as [h|];
    [|cbn; intros [= _ ?]; discriminate].
  set (sb := Sip.send _ _). set (cb := Sip.set_session sb c).
  destruct (Hold.holdCall_onAccept t1 cb) as [c1' r] eqn:Eaccept.
  intros [= <- Hr]. destruct r as [[]|e]; [clear Hr|discriminate].
  destruct (onAccept_returns true "hold" t1 cb c1' sb pc eq_refl Hpc Eaccept)
    as (Hs1 & Hflow1 & Hoff).
  cbn [negb] in Hflow1, Hoff.
  eexists. split; [exact Hs1|]. split; [done|]. split; [done|].
  split; [exact Hpc|]. split; [done|]. split; [by eexists|]. done.
Qed.

(** An accepted resume of a call that is on hold. *)
Lemma resumeCall_accepted (c : Sip.client) (s : Sip.Session)
  (pc : Sip.PeerConnection) (t2 : string) :
  Sip.currentSession c = Some s ->
  Sip.sessionDescriptionHandler s = Some (Sip.mkSDH (Some pc)) ->
  Sip.isOnHold s = Some true ->
  is_Some (Sip.sessionDescriptionHandlerOptionsReInvite s) ->
  is_Some (Sip.data s) ->
  exists c2 s2,
    Hold.resumeCall (Hold.Accepted t2) c =
      (c2, Hold.mkReport (Return true) None) /\
    Sip.currentSession c2 = Some s2 /\
    Sip.isOnHold s2 = Some false /\
    Sip.state s2 = Sip.state s /\
    Sip.sessionDescriptionHandler s2 = Some (Sip.mkSDH (Some pc)) /\
    Hold.flowed true (Sip.tracks c) (Sip.tracks c2) /\
    forall k, Some k ∈ Sip.receivers pc ++ Sip.senders pc ->
              Hold.written true (Sip.tracks c) (Sip.tracks c2) k.
Proof.
  intros Hs Hpc Hheld [o Ho] Hd.
  unfold Hold.resumeCall, Hold.attempt, Hold.resumeCall_begin, Hold.begin.
  rewrite Hs, Hheld. rewrite bool_decide_eq_false_2 by done.
  cbn [Sip.set_isOnHold Sip.sessionDescriptionHandlerOptionsReInvite].
  rewrite Ho.
  set (sr := Sip.send _ _). set (cr := Sip.set_session sr c).
  destruct (onAccept_with_data false "unhold" t2 cr sr eq_refl) as [c2 Eresume];
    [done|].
  unfold Hold.resumeCall_onAccept. rewrite Eresume.
  destruct (onAccept_returns false "unhold" t2 cr c2 sr pc eq_refl Hpc Eresume)
    as (Hs2 & Hflow2 & Hon).
  cbn [negb] in Hflow2, Hon.
  exists c2. eexists. split; [reflexivity|]. split; [exact Hs2|].
  split; [done|]. split; [done|]. split; [exact Hpc|]. done.
Qed.

Lemma replaceTrack_keeps (i track : nat) (s : Sip.Session)
  (pc : Sip.PeerConnection) (σ : Sip.TrackStore) (h : HoldMusic.client)
  (s' : Sip.Session) (c' : Sip.client) :
  HoldMusic.keeps s pc σ h ->
  Sip.currentSession (HoldMusic.sip h) = Some s' ->
  Sip.tracks c' = Sip.tracks (HoldMusic.sip h) ->
  HoldMusic.keeps s pc σ
    (HoldMusic.set_sip
       (Sip.set_session (HoldMusic.replaceTrack i track s') c') h).
Proof.
  intros (s0 & pc0 & Hs0 & Hpc0 & Hst & Hh & Ho & Hd & Hsent & Hr & Hl & Hσ) Hs'
    Htracks.
  rewrite Hs0 in Hs'. injection Hs' as <-.
  unfold HoldMusic.replaceTrack. rewrite Hpc0.
  eexists. eexists. split; [reflexivity|]. cbn.
  split; [reflexivity|]. cbn. rewrite length_insert, Htracks. done.
Qed.

Lemma apply_keeps (o : HoldMusic.op) (s : Sip.Session)
  (pc : Sip.PeerConnection) (σ : Sip.TrackStore) (h : HoldMusic.client) :
  HoldMusic.keeps s pc σ h -> HoldMusic.keeps s pc σ (HoldMusic.apply o h).
Proof.
  intros Hk. pose proof Hk as
    (s0 & pc0 & Hs0 & Hpc0 & Hst & Hh & Ho & Hd & Hsent & Hr & Hl & Hσ).
  destruct o as [resumed replaced|replaced|a]; cbn [HoldMusic.apply].
  - unfold HoldMusic.injectHoldMusicIntoCall. rewrite Hs0, Hpc0.
    destruct (HoldMusic.holdMusicAudioContext h) as [a|]; [|done].
    assert (forall a', HoldMusic.keeps s pc σ (HoldMusic.set_context a' h))
      as Hctx.
    { intros a'. by exists s0, pc0. }
    assert (HoldMusic.keeps s pc σ
              (if bool_decide (a = HoldMusic.suspended) && negb resumed then h
               else
                 let h := HoldMusic.set_context (Some HoldMusic.running) h in
                 match HoldMusic.localStream h with
                 | None => h
                 | Some stream =>
                     let σ := Sip.tracks (HoldMusic.sip h) in
                     if bool_decide (HoldMusic.getAudioTracks σ stream = [])
                     then h
                     else
                       let newTrack := fresh (dom σ) in
                       let σ := <[newTrack := HoldMusic.destination_track]> σ in
                       let h := HoldMusic.set_sip
                                  (Sip.set_tracks σ (HoldMusic.sip h)) h in
                       match HoldMusic.find_audio_sender σ (Sip.senders pc0) with
                       | Some audioSender =>
                           if replaced then
                             HoldMusic.set_sip
                               (Sip.set_session
                                  (HoldMusic.replaceTrack audioSender newTrack s0)
                                  (HoldMusic.sip h)) h
                           else h
                       | None => h
                       end
                 end)) as Hgo.
    { destruct (_ && _); [done|]. cbv zeta. cbn [HoldMusic.localStream HoldMusic.set_context].
      destruct (HoldMusic.localStream h) as [stream|]; [|apply Hctx].
      case_bool_decide; [apply Hctx|].
      set (σ1 := <[_ := _]> _).
      assert (HoldMusic.keeps s pc σ
                (HoldMusic.set_sip
                   (Sip.set_tracks σ1
                      (HoldMusic.sip
                         (HoldMusic.set_context (Some HoldMusic.running) h)))
                   (HoldMusic.set_context (Some HoldMusic.running) h))) as Hnew.
      { exists s0, pc0. cbn. do 9 (split; [done|]).
        intros k t Hk'. subst σ1. rewrite lookup_insert_ne; [by apply Hσ|].
        intros <-. apply Hσ in Hk'.
        pose proof (is_fresh (dom (Sip.tracks (HoldMusic.sip h)))) as Hfresh.
        apply Hfresh. by apply elem_of_dom. }
      destruct (HoldMusic.find_audio_sender _ _) as [i|]; [|done].
      destruct replaced; [|done].
      by apply replaceTrack_keeps. }
    destruct a; done.
  - unfold HoldMusic.removeHoldMusicFromCall. rewrite Hs0, Hpc0.
    destruct (HoldMusic.localStream h) as [stream|]; [|done].
    cbv zeta.
    destruct (HoldMusic.find_audio_sender _ _) as [i|]; [|done].
    destruct (HoldMusic.getAudioTracks _ _) as [|track ?]; [done|].
    destruct replaced; [|done].
    by apply replaceTrack_keeps.
  - by exists s0, pc0.
Qed.

Lemma run_keeps (ops : list HoldMusic.op) (s : Sip.Session)
  (pc : Sip.PeerConnection) (σ : Sip.TrackStore) (h : HoldMusic.client) :
  HoldMusic.keeps s pc σ h -> HoldMusic.keeps s pc σ (HoldMusic.run ops h).
Proof.
  revert h. induction ops as [|o ops IH]; intros h Hk; [done|].
  cbn. apply IH. by apply apply_keeps.
Qed.

Lemma outbound_senders (c : Sip.client) (s : Sip.Session)
  (pc : Sip.PeerConnection) :
  Sip.currentSession c = Some s ->
  Sip.sessionDescriptionHandler s = Some (Sip.mkSDH (Some pc)) ->
  HoldMusic.outbound c = Sip.senders pc.
Proof. intros Hs Hpc. unfold HoldMusic.outbound. by rewrite Hs, Hpc. Qed.

(** C4, as the code has it.  An established call that is not on hold is
    put on hold and the re-INVITE is accepted; hold music may then be
    injected into the call and removed from it any number of times; then
    the call is resumed and that re-INVITE is accepted too.  The hold sets
    the flag and disables every receiver and sender track.  The resume
    does not throw and clears the flag.  It replaces no track: the
    receivers are those of before the hold and the senders are those the
    peer connection has when the resume is called, which are those of
    before the hold when no hold music came in between.  Every track of
    these receivers and senders ends enabled and otherwise as it was,
    whether or not it was enabled before the hold, and no track of before
    the hold differs afterwards in anything but [enabled]. *)
Theorem hold_then_resume (c c1 : Sip.client) (s : Sip.Session)
  (pc : Sip.PeerConnection) (t1 t2 : string)
  (localStream : option (list nat))
  (context : option HoldMusic.AudioContextState)
  (music : list HoldMusic.op) :
  Sip.currentSession c = Some s ->
  Sip.sessionDescriptionHandler s = Some (Sip.mkSDH (Some pc)) ->
  Sip.heldFlag s = false ->
  Hold.holdCall (Hold.Accepted t1) c = (c1, Hold.mkReport (Return true) None) ->
  let h := HoldMusic.run music (HoldMusic.mkClient c1 localStream context) in
  (exists s1,
     Sip.currentSession c1 = Some s1 /\ Sip.isOnHold s1 = Some true /\
     HoldMusic.outbound c1 = Sip.senders pc /\
     forall k t,
       Some k ∈ Sip.receivers pc ++ Sip.senders pc ->
       Sip.tracks c !! k = Some t ->
       Sip.tracks c1 !! k =
         Some {| Sip.kind := Sip.kind t; Sip.enabled := false;
                 Sip.IsMixedTrack := Sip.IsMixedTrack t |}) /\
  exists c2 s2 pc2,
    Hold.resumeCall (Hold.Accepted t2) (HoldMusic.sip h) =
      (c2, Hold.mkReport (Return true) None) /\
    Sip.currentSession c2 = Some s2 /\
    Sip.isOnHold s2 = Some false /\
    Sip.state s2 = Sip.state s /\
    Sip.sessionDescriptionHandler s2 = Some (Sip.mkSDH (Some pc2)) /\
    Sip.receivers pc2 = Sip.receivers pc /\
    Sip.senders pc2 = HoldMusic.outbound (HoldMusic.sip h) /\
    (music = [] -> Sip.senders pc2 = Sip.senders pc) /\
    (forall k t,
       Some k ∈ Sip.receivers pc2 ++ Sip.senders pc2 ->
       Sip.tracks (HoldMusic.sip h) !! k = Some t ->
       Sip.tracks c2 !! k =
         Some {| Sip.kind := Sip.kind t; Sip.enabled := true;
                 Sip.IsMixedTrack := Sip.IsMixedTrack t |}) /\
    (forall k t,
       Some k ∈ Sip.receivers pc2 ++ Sip.senders pc2 ->
       Sip.tracks c !! k = Some t ->
       Sip.tracks c2 !! k =
         Some {| Sip.kind := Sip.kind t; Sip.enabled := true;
                 Sip.IsMixedTrack := Sip.IsMixedTrack t |}) /\
    (forall k t,
       Sip.tracks c !! k = Some t ->
       exists e,
         Sip.tracks c2 !! k =
           Some {| Sip.kind := Sip.kind t; Sip.enabled := e;
                   Sip.IsMixedTrack := Sip.IsMixedTrack t |}).
Proof.
  intros Hs Hpc Hheld Hhold h.
  destruct (holdCall_accepted c c1 s pc t1 Hs Hpc Hheld Hhold)
    as (s1 & Hs1 & Hflag1 & Hstate1 & Hpc1 & Ho1 & Hd1 & Hflow1 & Hoff).
  split.
  { exists s1. split; [done|]. split; [done|].
    split; [by apply outbound_senders with s1|].
    intros k t Hk Ht.
    apply (written_fields false (Sip.tracks c)); [by apply Hoff|done]. }
  assert (HoldMusic.keeps s1 pc (Sip.tracks c1)
            (HoldMusic.mkClient c1 localStream context)) as Hinit.
  { exists s1, pc. done. }
  apply (run_keeps music) in Hinit. fold h in Hinit.
  destruct Hinit
    as (s' & pc' & Hs' & Hpc' & Hst' & Hh' & Ho' & Hd' & _ & Hr' & _ & Hσ').
  destruct (resumeCall_accepted (HoldMusic.sip h) s' pc' t2 Hs' Hpc')
    as (c2 & s2 & Hresume & Hs2 & Hflag2 & Hstate2 & Hpc2 & Hflow2 & Hon).
  { by rewrite Hh'. }
  { rewrite Ho', Ho1. by eexists. }
  { by rewrite Hd'. }
  assert (forall k t,
            Sip.tracks c !! k = Some t ->
            exists e,
              Sip.tracks (HoldMusic.sip h) !! k =
                Some {| Sip.kind := Sip.kind t; Sip.enabled := e;
                        Sip.IsMixedTrack := Sip.IsMixedTrack t |}) as Hheld_track.
  { intros k t Ht. destruct (flowed_fields _ _ _ k t Hflow1 Ht) as [e He].
    exists e. by apply Hσ'. }
  exists c2, s2, pc'. split; [done|]. split; [done|]. split; [done|].
  split; [by rewrite Hstate2, Hst'|]. split; [done|]. split; [done|].
  split; [symmetry; by apply outbound_senders with s'|].
  split.
  { intros ->. subst h. cbn in Hs'. rewrite Hs1 in Hs'. injection Hs' as <-.
    rewrite Hpc1 in Hpc'. by injection Hpc' as <-. }
  split.
  { intros k t Hk Ht.
    apply (written_fields true (Sip.tracks (HoldMusic.sip h)));
      [by apply Hon|done]. }
  split.
  { intros k t Hk Ht. destruct (Hheld_track k t Ht) as [e He].
    by rewrite (written_fields _ _ _ k _ (Hon k Hk) He). }
  intros k t Ht. destruct (Hheld_track k t Ht) as [e He].
  destruct (flowed_fields _ _ _ k _ Hflow2 He) as [e' He']. by exists e'.
Qed.

Lemma hold_then_resume_witness :
  exists c2,
    fst (Hold.resumeCall (Hold.Accepted "2026-01-01T10:00:09.000Z")
           (fst (Hold.holdCall (Hold.Accepted "2026-01-01T10:00:00.000Z")
                   HoldMusic.muted))) = c2 /\
    Sip.tracks HoldMusic.muted !! 1%nat =
      Some (Sip.mkTrack Sip.audio false false) /\
    Sip.tracks c2 !! 1%nat = Some (Sip.mkTrack Sip.audio true false).
Proof.
  destruct (hold_then_resume HoldMusic.muted
              (fst (Hold.holdCall (Hold.Accepted "2026-01-01T10:00:00.000Z")
                      HoldMusic.muted))
              Scenario.established_session
              (Sip.mkPC [Some 0%nat] [Some 1%nat])
              "2026-01-01T10:00:00.000Z" "2026-01-01T10:00:09.000Z"
              (Some [1%nat]) None []
              eq_refl eq_refl eq_refl eq_refl)
    as (_ & c2 & s2 & pc2 & Hresume & _ & _ & _ & _ & Hr & _ & Hsame & _ & Hon & _).
  exists c2. split; [cbn in Hresume; by rewrite Hresume|].
  split; [reflexivity|].
  rewrite (Hon 1%nat (Sip.mkTrack Sip.audio false false)); [done| |reflexivity].
  rewrite Hr, (Hsame eq_refl). cbn. set_solver.
Defined.

(** C4 as it is written fails.  A call whose microphone track is
    disabled is put on hold and resumed, both re-INVITEs being accepted:
    the track that was disabled before the hold is enabled after the
    resume, so the tracks are not in the configuration of before the
    hold.  And when hold music is injected into a call that is on hold,
    the sender of the peer connection gets the track of the hold music
    in place of the microphone; after the accepted resume that track is
    still the outbound source, and the microphone track, which is no
    longer a sender, is still disabled. *)
Lemma hold_then_resume_counterexample :
  let t1 := "2026-01-01T10:00:00.000Z" in
  let t2 := "2026-01-01T10:00:09.000Z" in
  let held := Hold.holdCall (Hold.Accepted t1) HoldMusic.muted in
  let resumed := Hold.resumeCall (Hold.Accepted t2) (fst held) in
  let held' := Hold.holdCall (Hold.Accepted t1) Scenario.established in
  let music :=
    HoldMusic.injectHoldMusicIntoCall true true
      (HoldMusic.set_sip (fst held') HoldMusic.in_call) in
  let resumed' := Hold.resumeCall (Hold.Accepted t2) (HoldMusic.sip music) in
  (snd held = Hold.mkReport (Return true) None /\
   snd resumed = Hold.mkReport (Return true) None /\
   Sip.isOnHold <$> Sip.currentSession (fst resumed) = Some (Some false) /\
   Sip.tracks HoldMusic.muted !! 1%nat =
     Some (Sip.mkTrack Sip.audio false false) /\
   Sip.tracks (fst resumed) !! 1%nat =
     Some (Sip.mkTrack Sip.audio true false) /\
   Sip.tracks (fst resumed) <> Sip.tracks HoldMusic.muted) /\
  (snd held' = Hold.mkReport (Return true) None /\
   snd resumed' = Hold.mkReport (Return true) None /\
   Sip.isOnHold <$> Sip.currentSession (fst resumed') = Some (Some false) /\
   HoldMusic.outbound Scenario.established = [Some 1%nat] /\
   HoldMusic.localStream music = Some [1%nat] /\
   HoldMusic.outbound (fst resumed') = [Some 2%nat] /\
   Sip.tracks Scenario.established !! 2%nat = None /\
   Sip.tracks (fst resumed') !! 2%nat = Some HoldMusic.destination_track /\
   Sip.tracks (fst resumed') !! 1%nat =
     Some (Sip.mkTrack Sip.audio false false) /\
   HoldMusic.outbound (fst resumed') <> HoldMusic.outbound Scenario.established).
Proof.
  cbv zeta. split.
  - split; [reflexivity|]. split; [reflexivity|]. split; [reflexivity|].
    split; [reflexivity|]. split; [reflexivity|].
    intros H. apply (f_equal (fun σ => σ !! 1%nat)) in H.
    vm_compute in H. discriminate.
  - split; [reflexivity|]. split; [vm_compute; reflexivity|].
    split; [vm_compute; reflexivity|]. split; [reflexivity|].
    split; [vm_compute; reflexivity|]. split; [vm_compute; reflexivity|].
    split; [reflexivity|]. split; [vm_compute; reflexivity|].
    split; [vm_compute; reflexivity|]. vm_compute. discriminate.
Qed.

(** ** Outbound calls *)

Lemma rejectionError_nonempty (r : Outbound.Response) :
  Outbound.rejectionError r <> "".
Proof.
  unfold Outbound.rejectionError.
  repeat (destruct (_ =? _); [done|]).
  unfold str_or. destruct (Outbound.reasonPhrase r) as [p|]; [|done].
  by destruct (decide (p = "")).
Qed.

Lemma formatError_message (msg : string) :
  msg <> "" -> err_message (Outbound.formatError (Error msg)) = msg.
Proof.
  intros Hmsg. unfold Outbound.formatError. cbn.
  destruct (_ && _); [done|]. cbn. by destruct (decide (msg = "")).
Qed.

Lemma catch_silences_ringback (allowed : bool) (e : JsError)
  (c : Outbound.client) :
  let c' := fst (Outbound.catch allowed e c) in
  Tones.silenced (Tones.ringbackTone (Outbound.tones c')) /\
  Tones.silenced (Tones.ringTone (Outbound.tones c')) /\
  Outbound.callState c' = Outbound.callState c /\
  Outbound.mediaRecorder c' = Outbound.mediaRecorder c /\
  Outbound.recordedChunks c' = Outbound.recordedChunks c.
Proof. unfold Outbound.catch. cbn. by destruct (_ || _). Qed.

(** [onReject] of the INVITE stops the ringback tone and touches neither
    the call state nor the recording, whatever the client it runs on. *)
Lemma onReject_silences_ringback (allowed : bool) (r : Outbound.Response)
  (c : Outbound.client) :
  let c' := Outbound.onReject allowed r c in
  Tones.silenced (Tones.ringbackTone (Outbound.tones c')) /\
  Outbound.callState c' = Outbound.callState c /\
  Outbound.mediaRecorder c' = Outbound.mediaRecorder c /\
  Outbound.recordedChunks c' = Outbound.recordedChunks c.
Proof. unfold Outbound.onReject. cbn. by destruct (_ || _). Qed.

(** When no final response comes while [makeCall] awaits [invite], the
    method has returned [true] before a later rejection is delivered:
    the check of [callRejected] at lines 1260-1263 has been passed. *)
Lemma makeCall_sent (makeURI : string -> option string)
  (phoneNumber : string) (now : Z) (allowed : bool) (captured : option string)
  (c : Outbound.client) :
  Outbound.userAgent c = true ->
  Outbound.isRegistered c = true ->
  is_Some (makeURI ("sip:" +:+ phoneNumber +:+ "@" +:+
                    str_or (Outbound.realm c) (Outbound.host c))%string) ->
  let result :=
    Outbound.makeCall makeURI phoneNumber now allowed Outbound.Sent captured c in
  snd result = Return true /\
  Outbound.callState (fst result) = Outbound.ringing /\
  Outbound.mediaRecorder (fst result) = Outbound.mediaRecorder c /\
  Outbound.recordedChunks (fst result) = Outbound.recordedChunks c.
Proof.
  intros Hua Hreg [inviter Huri]. cbv zeta.
  unfold Outbound.makeCall. rewrite Hua, Hreg, Huri. done.
Qed.

(** C5, as the code has it.  When the INVITE of an outbound call gets a
    final rejection, the [onReject] delegate chooses the reason from the
    status code: "Busy Here" for 486, "Not Found" for 404, "Request
    Timeout" for 408, "Service Unavailable" for 503, "Temporarily
    Unavailable" for 480, and otherwise the reason phrase of the response,
    or "Unknown error" when that phrase is empty or missing.  When the
    rejection is delivered while [makeCall] awaits [invite] ([early]),
    [makeCall] throws an error with that message.  Whether it is delivered
    then or after [invite] has resolved and [makeCall] has returned
    ([late]), the ringback tone ends paused at position zero, the call
    state is still "ringing", and the recorder and the recorded chunks are
    what they were. *)
Theorem rejected_call_reason (makeURI : string -> option string)
  (phoneNumber : string) (now : Z) (allowed : bool) (captured : option string)
  (r : Outbound.Response) (c : Outbound.client) :
  Outbound.userAgent c = true ->
  Outbound.isRegistered c = true ->
  is_Some (makeURI ("sip:" +:+ phoneNumber +:+ "@" +:+
                    str_or (Outbound.realm c) (Outbound.host c))%string) ->
  let result :=
    Outbound.makeCall makeURI phoneNumber now allowed
      (Outbound.RejectedWith r) captured c in
  let late :=
    Outbound.onReject allowed r
      (fst (Outbound.makeCall makeURI phoneNumber now allowed
              Outbound.Sent captured c)) in
  Outbound.reason (snd result) = Some (Outbound.rejectionError r) /\
  Outbound.rejectionError r =
    (let code := Outbound.statusCode r in
     if decide (code = 486) then "Busy Here"
     else if decide (code = 404) then "Not Found"
     else if decide (code = 408) then "Request Timeout"
     else if decide (code = 503) then "Service Unavailable"
     else if decide (code = 480) then "Temporarily Unavailable"
     else match Outbound.reasonPhrase r with
          | Some phrase => if decide (phrase = "") then "Unknown error" else phrase
          | None => "Unknown error"
          end) /\
  Tones.silenced (Tones.ringbackTone (Outbound.tones (fst result))) /\
  Outbound.callState (fst result) = Outbound.ringing /\
  Outbound.mediaRecorder (fst result) = Outbound.mediaRecorder c /\
  Outbound.recordedChunks (fst result) = Outbound.recordedChunks c /\
  Tones.silenced (Tones.ringbackTone (Outbound.tones late)) /\
  Outbound.callState late = Outbound.ringing /\
  Outbound.mediaRecorder late = Outbound.mediaRecorder c /\
  Outbound.recordedChunks late = Outbound.recordedChunks c.
Proof.
  intros Hua Hreg Huri result late.
  destruct (makeCall_sent makeURI phoneNumber now allowed captured c
              Hua Hreg Huri) as (_ & Hstate' & Hrec' & Hchunks').
  destruct (onReject_silences_ringback allowed r
              (fst (Outbound.makeCall makeURI phoneNumber now allowed
                      Outbound.Sent captured c)))
    as (Hring'' & Hstate'' & Hrec'' & Hchunks'').
  fold late in Hring'', Hstate'', Hrec'', Hchunks''.
  rewrite Hstate' in Hstate''. rewrite Hrec' in Hrec''.
  rewrite Hchunks' in Hchunks''. clearbody late.
  destruct Huri as [inviter Huri]. subst result.
  unfold Outbound.makeCall. rewrite Hua, Hreg, Huri. cbn [negb orb].
  set (c1 := Outbound.store_session _ _ _).
  destruct (catch_silences_ringback allowed
              (Error (Outbound.rejectionError r)) c1)
    as (Hring & _ & Hstate & Hrec & Hchunks).
  split.
  { unfold Outbound.catch. cbn.
    by rewrite formatError_message by apply rejectionError_nonempty. }
  split.
  { unfold Outbound.rejectionError, str_or.
    destruct (Outbound.statusCode r =? 503) eqn:E503;
      [apply Z.eqb_eq in E503; rewrite E503; done|apply Z.eqb_neq in E503].
    destruct (Outbound.statusCode r =? 486) eqn:E486;
      [apply Z.eqb_eq in E486; rewrite E486; done|apply Z.eqb_neq in E486].
    destruct (Outbound.statusCode r =? 404) eqn:E404;
      [apply Z.eqb_eq in E404; rewrite E404; done|apply Z.eqb_neq in E404].
    destruct (Outbound.statusCode r =? 408) eqn:E408;
      [apply Z.eqb_eq in E408; rewrite E408; done|apply Z.eqb_neq in E408].
    destruct (Outbound.statusCode r =? 480) eqn:E480;
      [apply Z.eqb_eq in E480; rewrite E480; done|apply Z.eqb_neq in E480].
    cbv zeta. repeat (case_decide; [done|]). done. }
  split; [exact Hring|].
  rewrite Hstate, Hrec, Hchunks. subst c1. cbn.
  split; [unfold Outbound.onReject; by destruct (_ || _)|].
  split; [unfold Outbound.onReject; by destruct (_ || _)|].
  split; [unfold Outbound.onReject; by destruct (_ || _)|].
  done.
Qed.

Lemma rejected_call_reason_witness :
  Outbound.reason
    (snd (Outbound.makeCall Scenario.makeURI "1001" 1000 true
            (Outbound.RejectedWith (Outbound.mkResponse 486 (Some "Busy Here")))
            None Scenario.registered))
  = Some "Busy Here".
Proof.
  destruct (rejected_call_reason Scenario.makeURI "1001" 1000 true None
              (Outbound.mkResponse 486 (Some "Busy Here")) Scenario.registered
              eq_refl eq_refl (ex_intro _ _ eq_refl))
    as (H & _).
  exact H.
Defined.

(** C5 as it is written fails, whenever the rejection is delivered.  The
    reason chosen for a final 486 is "Busy Here", not "Busy", and the
    one chosen for a final 500 whose reason phrase is empty is "Unknown
    error", not the (empty) reason phrase of the response.  When the
    rejection is delivered while [makeCall] awaits [invite], [makeCall]
    fails with these reasons; when it is delivered after [invite] has
    resolved, [makeCall] has returned [true] and fails with no reason at
    all. *)
Lemma rejection_reason_counterexample :
  let call o :=
    Outbound.makeCall Scenario.makeURI "1001" 1000 true o None
      Scenario.registered in
  let r500 := Outbound.mkResponse 500 (Some "") in
  let r486 := Outbound.mkResponse 486 (Some "Busy Here") in
  Outbound.rejectionError r500 = "Unknown error" /\
  Some (Outbound.rejectionError r500) <> Outbound.reasonPhrase r500 /\
  Outbound.rejectionError r486 = "Busy Here" /\
  Outbound.rejectionError r486 <> "Busy" /\
  Outbound.reason (snd (call (Outbound.RejectedWith r500))) = Some "Unknown error" /\
  Outbound.reason (snd (call (Outbound.RejectedWith r500))) <>
    Outbound.reasonPhrase r500 /\
  Outbound.reason (snd (call (Outbound.RejectedWith r486))) = Some "Busy Here" /\
  Outbound.reason (snd (call (Outbound.RejectedWith r486))) <> Some "Busy" /\
  snd (call Outbound.Sent) = Return true /\
  Outbound.reason (snd (call Outbound.Sent)) <> Some "Busy".
Proof. cbn. repeat split; try done. Qed.

(** ** Transfers *)

Lemma escape_hash_no_hash (s : string) :
  "#"%char ∉ list_ascii_of_string (Transfer.escape_hash s).
Proof.
  induction s as [|a s IH]; cbn; [apply not_elem_of_nil|].
  destruct (Ascii.eqb_spec a "#"%char) as [->|Hne]; cbn.
  - intros H. repeat (apply elem_of_cons in H as [H|H]; [discriminate|]). done.
  - intros H. apply elem_of_cons in H as [H|H]; [by subst|done].
Qed.

Lemma escape_hash_without_hash (s : string) :
  "#"%char ∉ list_ascii_of_string s -> Transfer.escape_hash s = s.
Proof.
  induction s as [|a s IH]; cbn; [done|]. intros H.
  destruct (Ascii.eqb_spec a "#"%char) as [->|Hne].
  - exfalso. apply H. apply elem_of_cons. by left.
  - f_equal. apply IH. intros Hs. apply H. apply elem_of_cons. by right.
Qed.

Lemma index_nat {A} (l : list A) (n : nat) :
  Transfer.index l (Z.of_nat n) = l !! n.
Proof.
  unfold Transfer.index.
  destruct (Z.ltb_spec (Z.of_nat n) 0); [lia|]. by rewrite Nat2Z.id.
Qed.

Lemma index_Some {A} (l : list A) (i : Z) (x : A) :
  Transfer.index l i = Some x -> 0 <= i /\ l !! Z.to_nat i = Some x.
Proof.
  unfold Transfer.index. destruct (Z.ltb_spec i 0); [done|]. by split.
Qed.

(** [update_record] rewrites the record at [i] or throws and changes
    nothing; either way only [data.transfer] may differ. *)
Lemma update_record_spec (i : Z) (f : Sip.TransferRecord -> Sip.TransferRecord)
  (s s' : Sip.Session) (r : completion unit) :
  Transfer.update_record i f s = (s', r) ->
  Sip.state s' = Sip.state s /\ Sip.isOnHold s' = Sip.isOnHold s /\
  Sip.sent s' = Sip.sent s /\
  Sip.sessionDescriptionHandler s' = Sip.sessionDescriptionHandler s /\
  ((s' = s /\ is_throw r = true /\
    Transfer.index (Transfer.log s) i = None) \/
   (exists rec,
      Transfer.index (Transfer.log s) i = Some rec /\
      Transfer.log s' =
        <[Z.to_nat i := f rec]> (Transfer.log s) /\
      r = Return tt)).
Proof.
  unfold Transfer.update_record, Transfer.log. intros H.
  assert (forall A, Transfer.index [] i = @None A) as Hnil.
  { intros. unfold Transfer.index. by destruct (i <? 0). }
  destruct (Sip.data s) as [d|] eqn:Hd; cbn in *.
  2:{ injection H as <- <-. do 4 (split; [done|]). left. by rewrite Hnil. }
  destruct (Sip.transfer d) as [l|] eqn:Hl; cbn in *.
  2:{ injection H as <- <-. do 4 (split; [done|]). left. by rewrite Hnil. }
  destruct (Transfer.index l i) as [rec|] eqn:Hi; injection H as <- <-.
  - do 4 (split; [done|]). right. exists rec. cbn. by rewrite ?Hl.
  - do 4 (split; [done|]). by left.
Qed.

Lemma session_updates_only (i : Z)
  (f : Sip.TransferRecord -> Sip.TransferRecord)
  (h : Sip.Session -> Sip.Session * completion unit) :
  (forall r, Sip.type (f r) = Sip.type r /\ Sip.to (f r) = Sip.to r /\
             Sip.transferTime (f r) = Sip.transferTime r) ->
  (forall s,
     Transfer.log (fst (h s)) =
       Transfer.log s \/
     exists rec,
       Transfer.index (Transfer.log s) i = Some rec /\
       Transfer.log (fst (h s)) =
         <[Z.to_nat i := f rec]> (Transfer.log s)) ->
  Transfer.updates_only i (Transfer.on_session h).
Proof.
  intros Hf Hh c. unfold Transfer.on_session, Transfer.transferLog.
  destruct (Sip.currentSession c) as [s|] eqn:Hs.
  2:{ cbn [fst]. rewrite Hs. cbn. split; [done|]. split; [done|].
      intros j r Hj. by rewrite lookup_nil in Hj. }
  specialize (Hh s). destruct (h s) as [s' r].
  cbn [fst Sip.set_session Sip.currentSession from_option] in *.
  destruct Hh as [-> | (rec & Hrec & ->)].
  { split; [done|]. split; [done|]. intros j r0 Hj. by exists r0. }
  apply index_Some in Hrec as [Hi Hrec].
  split; [apply length_insert|]. split.
  - intros j Hj. apply list_lookup_insert_ne. lia.
  - intros j r0 Hj. destruct (decide (Z.to_nat i = j)) as [<-|Hne].
    + exists (f rec). rewrite list_lookup_insert_eq
        by (by apply lookup_lt_Some in Hrec).
      split; [done|]. rewrite Hrec in Hj. injection Hj as <-. apply Hf.
    + exists r0. rewrite list_lookup_insert_ne by done. done.
Qed.

Lemma update_record_updates_only (i : Z)
  (f : Sip.TransferRecord -> Sip.TransferRecord) :
  (forall r, Sip.type (f r) = Sip.type r /\ Sip.to (f r) = Sip.to r /\
             Sip.transferTime (f r) = Sip.transferTime r) ->
  Transfer.updates_only i (Transfer.on_session (Transfer.update_record i f)).
Proof.
  intros Hf. apply (session_updates_only i f); [done|]. intros s.
  destruct (Transfer.update_record i f s) as [s' r] eqn:E.
  destruct (update_record_spec _ _ _ _ _ E)
    as (_ & _ & _ & _ & [(-> & _) | (rec & Hrec & Hlog & _)]); cbn.
  - by left.
  - right. by exists rec.
Qed.

Lemma refer_onAccept_updates_only (text : string) (i : Z)
  (phrase : option string) (now : string) :
  Transfer.updates_only i (Transfer.refer_onAccept text i phrase now).
Proof.
  unfold Transfer.refer_onAccept.
  apply (session_updates_only i (Transfer.set_accept true phrase now)); [done|].
  intros s. destruct (Sip.data s) as [d|] eqn:Hd; [|by left].
  assert (Transfer.log (Sip.set_data (Transfer.set_reason text d) s)
          = Transfer.log s) as Hsame.
  { unfold Transfer.log. by rewrite Hd. }
  destruct (Transfer.update_record _ _ _) as [s' r] eqn:E.
  destruct (update_record_spec _ _ _ _ _ E)
    as (_ & _ & _ & _ & [(-> & Hthrow & _) | (rec & Hrec & Hlog & ->)]).
  - destruct r; [done|]. cbn [fst]. by left.
  - cbn [fst]. right. exists rec. rewrite <- Hsame. split; [done|].
    by rewrite <- Hlog.
Qed.

(** A delegate that only calls [update_record] finds the record at the
    index it captured, when there is one, and puts [f] of it there. *)
Lemma update_record_writes (i : Z)
  (f : Sip.TransferRecord -> Sip.TransferRecord) (c : Sip.client)
  (r : Sip.TransferRecord) :
  Transfer.index (Transfer.transferLog c) i = Some r ->
  snd (Transfer.on_session (Transfer.update_record i f) c) = Return tt /\
  Transfer.index
    (Transfer.transferLog
       (fst (Transfer.on_session (Transfer.update_record i f) c))) i =
    Some (f r).
Proof.
  unfold Transfer.on_session, Transfer.transferLog.
  destruct (Sip.currentSession c) as [s|] eqn:Hs; cbn [from_option];
    [|unfold Transfer.index; by destruct (i <? 0)].
  intros Hr. destruct (Transfer.update_record i f s) as [s' res] eqn:E.
  destruct (update_record_spec _ _ _ _ _ E)
    as (_ & _ & _ & _ & [(_ & _ & Hnone) | (rec & Hrec & Hlog & ->)]);
    [by rewrite Hnone in Hr|].
  rewrite Hr in Hrec. injection Hrec as <-.
  cbn. split; [done|]. rewrite Hlog.
  apply index_Some in Hr as [Hi Hr]. unfold Transfer.index.
  destruct (Z.ltb_spec i 0); [lia|].
  apply list_lookup_insert_eq. by apply lookup_lt_Some in Hr.
Qed.

(** The same for [onAccept] of a REFER, which writes the reason of the
    end of the call first and sends the BYE afterwards. *)
Lemma refer_onAccept_writes (text : string) (i : Z) (phrase : option string)
  (now : string) (c : Sip.client) (r : Sip.TransferRecord) :
  Transfer.index (Transfer.transferLog c) i = Some r ->
  snd (Transfer.refer_onAccept text i phrase now c) = Return tt /\
  Transfer.index
    (Transfer.transferLog (fst (Transfer.refer_onAccept text i phrase now c))) i =
    Some (Transfer.set_accept true phrase now r).
Proof.
  unfold Transfer.refer_onAccept, Transfer.on_session, Transfer.transferLog.
  destruct (Sip.currentSession c) as [s|] eqn:Hs; cbn [from_option];
    [|unfold Transfer.index; by destruct (i <? 0)].
  intros Hr.
  destruct (Sip.data s) as [d|] eqn:Hd;
    [|unfold Transfer.log in Hr; rewrite Hd in Hr; cbn in Hr;
      unfold Transfer.index in Hr; by destruct (i <? 0)].
  assert (Transfer.log (Sip.set_data (Transfer.set_reason text d) s)
          = Transfer.log s) as Hsame.
  { unfold Transfer.log. by rewrite Hd. }
  destruct (Transfer.update_record _ _ _) as [s' res] eqn:E.
  destruct (update_record_spec _ _ _ _ _ E)
    as (_ & _ & _ & _ & [(_ & _ & Hnone) | (rec & Hrec & Hlog & ->)]);
    [by rewrite Hsame, Hr in Hnone|].
  rewrite Hsame, Hr in Hrec. injection Hrec as <-.
  cbn [fst snd Sip.set_session Sip.currentSession from_option].
  split; [done|].
  change (Transfer.log (Sip.send Sip.Bye s')) with (Transfer.log s').
  rewrite Hlog, Hsame.
  apply index_Some in Hr as [Hi Hr]. unfold Transfer.index.
  destruct (Z.ltb_spec i 0); [lia|].
  apply list_lookup_insert_eq. by apply lookup_lt_Some in Hr.
Qed.

(** What a blind transfer that passes the checks does. *)
Lemma transferCall_established (makeURI : string -> option string)
  (extension now : string) (c : Sip.client) (s : Sip.Session) :
  Sip.currentSession c = Some s ->
  Sip.state s = Sip.Established ->
  exists c',
    Transfer.transferCall makeURI (Some extension) now c = (c', Return true) /\
    Transfer.transferLog c' =
      Transfer.transferLog c ++ [Transfer.new_record Sip.Blind extension now "refer"] /\
    Transfer.requests c' =
      Transfer.requests c ++
      [Sip.Refer (makeURI ("sip:" +:+ Transfer.escape_hash extension +:+ "@" +:+
                           Sip.host c)%string)
                 (Z.of_nat (length (Transfer.transferLog c)))] /\
    Sip.tracks c' = Sip.tracks c /\
    (Sip.state <$> Sip.currentSession c') = Some Sip.Established /\
    (Sip.isOnHold <$> Sip.currentSession c') = Some (Sip.isOnHold s).
Proof.
  intros Hs Hstate. unfold Transfer.transferCall.
  rewrite Hs, Hstate. rewrite bool_decide_eq_false_2 by (by intros H; apply H).
  eexists. split; [reflexivity|].
  unfold Transfer.transferLog, Transfer.requests, Transfer.log.
  rewrite Hs. cbn.
  split; [by destruct (Sip.data s)|]. split; [|by rewrite Hstate].
  destruct (Sip.data s) as [d|]; cbn; rewrite ?length_app; cbn;
    do 3 f_equal; lia.
Qed.

Lemma update_record_last (f : Sip.TransferRecord -> Sip.TransferRecord)
  (s : Sip.Session) (d : Sip.SessionData) (old : list Sip.TransferRecord)
  (rec : Sip.TransferRecord) :
  Sip.data s = Some d ->
  Sip.transfer d = Some (old ++ [rec]) ->
  Transfer.update_record (Z.of_nat (length old)) f s =
    (Sip.set_data (Transfer.set_transfer (old ++ [f rec]) d) s, Return tt).
Proof.
  intros Hd Hl. unfold Transfer.update_record. rewrite Hd, Hl, index_nat.
  rewrite list_lookup_middle by done. rewrite Nat2Z.id.
  rewrite insert_app_r_alt by done. by rewrite Nat.sub_diag.
Qed.

(** C7. A blind transfer of an established call appends its record and
    sends a REFER whose delegate holds the index of that record.  When
    the REFER is accepted, [onAccept] sets [accept.complete] of that
    record to [true], stores the reason phrase and the time, and calls
    [bye] on the session; when it is rejected, [onReject] sets
    [accept.complete] to [false], stores the phrase and the time, and
    sends nothing: the state of the session, its held flag, its requests
    and the tracks are as they were. *)
Theorem blind_transfer_disposition (makeURI : string -> option string)
  (extension now : string) (c c1 : Sip.client) (s : Sip.Session) :
  Sip.currentSession c = Some s ->
  Sip.state s = Sip.Established ->
  Transfer.transferCall makeURI (Some extension) now c = (c1, Return true) ->
  let i := Z.of_nat (length (Transfer.transferLog c)) in
  let rec := Transfer.new_record Sip.Blind extension now "refer" in
  Transfer.transferLog c1 = Transfer.transferLog c ++ [rec] /\
  Sip.complete (Sip.accept rec) = None /\
  last (Transfer.requests c1) =
    Some (Sip.Refer (makeURI ("sip:" +:+ Transfer.escape_hash extension +:+ "@" +:+
                              Sip.host c)%string) i) /\
  (forall phrase t, exists c2 rec',
     Transfer.transferCall_onAccept i phrase t c1 = (c2, Return tt) /\
     Transfer.transferLog c2 = Transfer.transferLog c ++ [rec'] /\
     Sip.accept rec' = Sip.mkAccept (Some true) (Some t) phrase /\
     Transfer.requests c2 = Transfer.requests c1 ++ [Sip.Bye]) /\
  (forall phrase t, exists c2 rec',
     Transfer.transferCall_onReject i phrase t c1 = (c2, Return tt) /\
     Transfer.transferLog c2 = Transfer.transferLog c ++ [rec'] /\
     Sip.accept rec' = Sip.mkAccept (Some false) (Some t) phrase /\
     Transfer.requests c2 = Transfer.requests c1 /\
     (Sip.state <$> Sip.currentSession c2) = Some Sip.Established /\
     (Sip.isOnHold <$> Sip.currentSession c2) = Some (Sip.isOnHold s) /\
     Sip.tracks c2 = Sip.tracks c).
Proof.
  intros Hs Hstate Hcall i rec.
  assert (Transfer.transferLog c =
          default [] (Sip.transfer (default Sip.empty_data (Sip.data s)))) as Hold.
  { unfold Transfer.transferLog, Transfer.log. rewrite Hs. cbn.
    by destruct (Sip.data s). }
  subst i. rewrite Hold. clear Hold.
  unfold Transfer.transferCall in Hcall. rewrite Hs, Hstate in Hcall.
  rewrite bool_decide_eq_false_2 in Hcall by (by intros H; apply H).
  injection Hcall as <-.
  set (d0 := default Sip.empty_data (Sip.data s)).
  set (old := default [] (Sip.transfer d0)).
  split; [reflexivity|]. split; [reflexivity|]. split.
  { unfold Transfer.requests. cbn. rewrite last_snoc. do 3 f_equal.
    rewrite length_app. cbn. lia. }
  split.
  - intros phrase t. do 2 eexists.
    unfold Transfer.transferCall_onAccept, Transfer.refer_onAccept,
      Transfer.on_session.
    cbn [Sip.currentSession Sip.set_session Sip.send Sip.set_data Sip.data].
    erewrite (update_record_last _ _ _ old rec); [|reflexivity..].
    split; [reflexivity|]. by cbn.
  - intros phrase t. do 2 eexists.
    unfold Transfer.transferCall_onReject, Transfer.refer_onReject,
      Transfer.on_session.
    cbn [Sip.currentSession Sip.set_session Sip.send Sip.set_data Sip.data].
    erewrite (update_record_last _ _ _ old rec); [|reflexivity..].
    split; [reflexivity|]. cbn. by rewrite Hstate.
Qed.

Lemma blind_transfer_disposition_witness :
  exists c2,
    fst (Transfer.transferCall_onAccept 0 (Some "Accepted")
           "2026-01-01T10:01:01.000Z"
           (fst (Transfer.transferCall Scenario.makeURI (Some "2002")
                   "2026-01-01T10:01:00.000Z" Scenario.established))) = c2 /\
    Transfer.requests c2 =
      [Sip.Refer (Some "sip:2002@pbx.example.com") 0; Sip.Bye].
Proof.
  destruct (blind_transfer_disposition Scenario.makeURI "2002"
              "2026-01-01T10:01:00.000Z" Scenario.established
              (fst (Transfer.transferCall Scenario.makeURI (Some "2002")
                      "2026-01-01T10:01:00.000Z" Scenario.established))
              Scenario.established_session eq_refl eq_refl eq_refl)
    as (_ & _ & _ & Haccept & _).
  destruct (Haccept (Some "Accepted") "2026-01-01T10:01:01.000Z")
    as (c2 & rec' & Hc2 & _ & _ & Hreq).
  exists c2. split; [exact (f_equal fst Hc2)|]. rewrite Hreq. reflexivity.
Defined.

(** C6, as the code has it.  [transferCall] throws, and changes nothing,
    when there is no current session or when the state of the session is
    not Established; the held flag is not looked at.  For an established
    session, a missing target makes it throw before a record is appended
    or a request sent, and a target that is not empty is sent in one REFER
    to the address made of the target with every "#" replaced by "%23"
    and the configured host. *)
Theorem transferCall_checks (makeURI : string -> option string)
  (extension : option string) (now : string) (c : Sip.client) :
  let c' := fst (Transfer.transferCall makeURI extension now c) in
  let result := snd (Transfer.transferCall makeURI extension now c) in
  (Sip.currentSession c = None ->
   result = Throw (Error "No active call to transfer") /\ c' = c) /\
  (forall s, Sip.currentSession c = Some s ->
     Sip.state s <> Sip.Established ->
     result = Throw (Error "Call must be established to transfer") /\ c' = c) /\
  (forall s, Sip.currentSession c = Some s ->
     Sip.state s = Sip.Established ->
     extension = None ->
     is_throw result = true /\
     Transfer.requests c' = Transfer.requests c /\
     Transfer.transferLog c' = Transfer.transferLog c) /\
  (forall s target, Sip.currentSession c = Some s ->
     Sip.state s = Sip.Established ->
     extension = Some target ->
     target <> "" ->
     result = Return true /\
     Transfer.requests c' =
       Transfer.requests c ++
       [Sip.Refer (makeURI ("sip:" +:+ Transfer.escape_hash target +:+ "@" +:+
                            Sip.host c)%string)
                  (Z.of_nat (length (Transfer.transferLog c)))] /\
     ("#"%char ∉ list_ascii_of_string (Transfer.escape_hash target)) /\
     ("#"%char ∉ list_ascii_of_string target ->
      Transfer.escape_hash target = target)).
Proof.
  intros c' result. split; [|split; [|split]].
  - intros Hs. subst c' result. unfold Transfer.transferCall. by rewrite Hs.
  - intros s Hs Hstate. subst c' result. unfold Transfer.transferCall.
    rewrite Hs. by rewrite bool_decide_eq_true_2.
  - intros s Hs Hstate ->. subst c' result. unfold Transfer.transferCall.
    rewrite Hs, Hstate.
    rewrite bool_decide_eq_false_2 by (by intros H; apply H).
    unfold Transfer.requests, Transfer.transferLog, Transfer.log.
    rewrite Hs. cbn. split; [done|]. split; [done|].
    by destruct (Sip.data s).
  - intros s target Hs Hstate -> _. subst c' result.
    destruct (transferCall_established makeURI target now c s Hs Hstate)
      as (c1 & -> & _ & Hreq & _).
    cbn [fst snd]. split; [done|]. split; [done|].
    split; [apply escape_hash_no_hash|apply escape_hash_without_hash].
Qed.

Lemma transferCall_checks_witness :
  Transfer.requests
    (fst (Transfer.transferCall Scenario.makeURI (Some "20#2")
            "2026-01-01T10:01:00.000Z" Scenario.established))
  = [Sip.Refer (Some "sip:20%232@pbx.example.com") 0].
Proof.
  destruct (transferCall_checks Scenario.makeURI (Some "20#2")
              "2026-01-01T10:01:00.000Z" Scenario.established)
    as (_ & _ & _ & H).
  destruct (H Scenario.established_session "20#2" eq_refl eq_refl eq_refl)
    as (_ & -> & _); [done|]. reflexivity.
Defined.

(** C6 as it is written fails: a call that is on hold is still in the
    state Established, and [transferCall] sends the REFER for it. *)
Lemma transfer_from_held_call :
  (Sip.heldFlag <$> Sip.currentSession Scenario.on_hold) = Some true /\
  snd (Transfer.transferCall Scenario.makeURI (Some "2002")
         "2026-01-01T10:01:00.000Z" Scenario.on_hold) = Return true /\
  Transfer.requests
    (fst (Transfer.transferCall Scenario.makeURI (Some "2002")
            "2026-01-01T10:01:00.000Z" Scenario.on_hold))
  = [Sip.ReInvite true; Sip.Refer (Some "sip:2002@pbx.example.com") 0].
Proof. repeat split. Qed.

(** What an attended transfer that passes the checks appends. *)
Lemma attendedTransfer_established (makeURI : string -> option string)
  (extension now : string) (mediaDevices : bool) (c : Sip.client)
  (s : Sip.Session) :
  Sip.currentSession c = Some s ->
  Sip.state s = Sip.Established ->
  Transfer.transferLog
    (fst (Transfer.attendedTransfer makeURI (Some extension) now mediaDevices c)) =
  Transfer.transferLog c ++ [Transfer.new_record Sip.Attended extension now "invite"].
Proof.
  intros Hs Hstate. unfold Transfer.attendedTransfer.
  rewrite Hs, Hstate. rewrite bool_decide_eq_false_2 by (by intros H; apply H).
  unfold Transfer.transferLog, Transfer.log. rewrite Hs.
  destruct mediaDevices; cbn; by destruct (Sip.data s).
Qed.

(** C8, as the code has it.  The log only grows at its end: a blind or
    attended transfer of an established call appends exactly one record
    and leaves the earlier records as they are; a transfer that fails its
    checks, and [completeAttendedTransfer], leave the log as it is.  The
    delegates of an attempt do write into the log: each rewrites the
    record at the index it captured, keeping its type, target and request
    time, and touches no other record and not the length.  When the log
    has a record at that index, the delegates of a REFER (of a blind
    transfer or of the completion of an attended one) set its
    [accept.complete] to [true] on acceptance and to [false] on
    rejection, its [accept.disposition] to the reason phrase of the
    response and its [accept.eventTime] to the time, and keep its
    [disposition] and [dispositionTime]; the delegates of the
    consultation leg set its [disposition] to "trying", "progress",
    "accepted", the reason phrase of the rejection or "bye" and its
    [dispositionTime] to the time, and keep its [accept]. *)
Theorem transfer_log_appends (makeURI : string -> option string)
  (c : Sip.client) :
  (forall s extension now,
     Sip.currentSession c = Some s -> Sip.state s = Sip.Established ->
     Transfer.transferLog
       (fst (Transfer.transferCall makeURI (Some extension) now c)) =
     Transfer.transferLog c ++
     [Transfer.new_record Sip.Blind extension now "refer"]) /\
  (forall s extension now mediaDevices,
     Sip.currentSession c = Some s -> Sip.state s = Sip.Established ->
     Transfer.transferLog
       (fst (Transfer.attendedTransfer makeURI (Some extension) now
               mediaDevices c)) =
     Transfer.transferLog c ++
     [Transfer.new_record Sip.Attended extension now "invite"]) /\
  (forall extension now mediaDevices,
     (Sip.state <$> Sip.currentSession c) <> Some Sip.Established \/
     extension = None ->
     Transfer.transferLog (fst (Transfer.transferCall makeURI extension now c)) =
       Transfer.transferLog c /\
     Transfer.transferLog
       (fst (Transfer.attendedTransfer makeURI extension now mediaDevices c)) =
       Transfer.transferLog c) /\
  (forall newSession,
     Transfer.transferLog (fst (Transfer.completeAttendedTransfer newSession c)) =
     Transfer.transferLog c) /\
  (forall i phrase now,
     Transfer.updates_only i (Transfer.transferCall_onAccept i phrase now) /\
     Transfer.updates_only i (Transfer.transferCall_onReject i phrase now) /\
     Transfer.updates_only i (Transfer.attendedTransfer_onTrying i now) /\
     Transfer.updates_only i (Transfer.attendedTransfer_onProgress i now) /\
     Transfer.updates_only i (Transfer.attendedTransfer_onAccept i now) /\
     Transfer.updates_only i (Transfer.attendedTransfer_onReject i phrase now) /\
     Transfer.updates_only i (Transfer.attendedTransfer_onBye i now) /\
     Transfer.updates_only i (Transfer.completeAttendedTransfer_onAccept i phrase now) /\
     Transfer.updates_only i (Transfer.completeAttendedTransfer_onReject i phrase now)) /\
  (forall i phrase now,
     Transfer.writes_accept i true phrase now
       (Transfer.transferCall_onAccept i phrase now) /\
     Transfer.writes_accept i false phrase now
       (Transfer.transferCall_onReject i phrase now) /\
     Transfer.writes_accept i true phrase now
       (Transfer.completeAttendedTransfer_onAccept i phrase now) /\
     Transfer.writes_accept i false phrase now
       (Transfer.completeAttendedTransfer_onReject i phrase now) /\
     Transfer.writes_disposition i (Some "trying") now
       (Transfer.attendedTransfer_onTrying i now) /\
     Transfer.writes_disposition i (Some "progress") now
       (Transfer.attendedTransfer_onProgress i now) /\
     Transfer.writes_disposition i (Some "accepted") now
       (Transfer.attendedTransfer_onAccept i now) /\
     Transfer.writes_disposition i phrase now
       (Transfer.attendedTransfer_onReject i phrase now) /\
     Transfer.writes_disposition i (Some "bye") now
       (Transfer.attendedTransfer_onBye i now)).
Proof.
  split; [|split; [|split; [|split; [|split]]]].
  - intros s extension now Hs Hstate.
    destruct (transferCall_established makeURI extension now c s Hs Hstate)
      as (c1 & -> & Hlog & _). exact Hlog.
  - intros s extension now md Hs Hstate. by apply attendedTransfer_established with s.
  - intros extension now md H.
    unfold Transfer.transferCall, Transfer.attendedTransfer.
    destruct (Sip.currentSession c) as [s|] eqn:Hs; [|done].
    case_bool_decide as Hstate; [done|].
    destruct H as [H| ->].
    { exfalso. apply H. cbn. f_equal.
      destruct (Sip.state s); try done; exfalso; apply Hstate; discriminate. }
    unfold Transfer.transferLog, Transfer.log. rewrite Hs. cbn.
    by destruct (Sip.data s).
  - intros n. unfold Transfer.completeAttendedTransfer.
    destruct (Sip.currentSession c) as [s|] eqn:Hs; [|done].
    destruct n; [|done]. destruct (Transfer.last_index s); [|done].
    unfold Transfer.transferLog. cbn. by rewrite Hs.
  - intros i phrase now.
    repeat split;
      first [ apply refer_onAccept_updates_only
            | by apply update_record_updates_only ].
  - intros i phrase now.
    repeat apply conj; intros c0 r Hr;
      first [ exact (refer_onAccept_writes _ i phrase now c0 r Hr)
            | exact (update_record_writes i _ c0 r Hr) ].
Qed.

Lemma transfer_log_appends_witness :
  Transfer.transferLog
    (fst (Transfer.attendedTransfer Scenario.makeURI (Some "2002")
            "2026-01-01T10:02:00.000Z" true
            (fst (Transfer.transferCall Scenario.makeURI (Some "3003")
                    "2026-01-01T10:01:00.000Z" Scenario.established))))
  = [Transfer.new_record Sip.Blind "3003" "2026-01-01T10:01:00.000Z" "refer";
     Transfer.new_record Sip.Attended "2002" "2026-01-01T10:02:00.000Z" "invite"].
Proof.
  destruct (transfer_log_appends Scenario.makeURI
              (fst (Transfer.transferCall Scenario.makeURI (Some "3003")
                      "2026-01-01T10:01:00.000Z" Scenario.established)))
    as (_ & H & _).
  erewrite H; [reflexivity|reflexivity|reflexivity].
Defined.

(** C8 as it is written fails: when the REFER of a blind transfer is
    accepted, [onAccept] rewrites the record that the transfer appended. *)
Lemma transfer_record_rewritten :
  let c1 := fst (Transfer.transferCall Scenario.makeURI (Some "2002")
                   "2026-01-01T10:01:00.000Z" Scenario.established) in
  let c2 := fst (Transfer.transferCall_onAccept 0 (Some "Accepted")
                   "2026-01-01T10:01:01.000Z" c1) in
  Transfer.transferLog c1 =
    [Transfer.new_record Sip.Blind "2002" "2026-01-01T10:01:00.000Z" "refer"] /\
  Transfer.transferLog c2 !! 0%nat <> Transfer.transferLog c1 !! 0%nat.
Proof. split; [reflexivity|]. cbn. discriminate. Qed.

(** * Further properties of the code *)

(** ** Retry policy, over any number of errors *)

Lemma retries_S (n : nat) (context : string) (s : Retry.state) :
  Retry.retries (S n) context s =
  Retry.scheduleRetry context (Retry.retries n context s).
Proof. reflexivity. Qed.

(** X1. However many retryable errors come in a row, the counter stays
    between zero and [maxRetries], the settings are untouched, timers are
    only ever added, at most one per error, and no timer waits less than
    [retryDelay] or more than [retryDelay * 2^(maxRetries - 1)]. *)
Theorem retries_bounded (n : nat) (context : string) (s0 : Retry.state) :
  0 <= Retry.retryCount s0 <= Retry.maxRetries s0 ->
  0 <= Retry.retryDelay s0 ->
  let s := Retry.retries n context s0 in
  0 <= Retry.retryCount s <= Retry.maxRetries s0 /\
  Retry.maxRetries s = Retry.maxRetries s0 /\
  Retry.retryDelay s = Retry.retryDelay s0 /\
  exists armed,
    Retry.timers s = Retry.timers s0 ++ armed /\
    (length armed <= n)%nat /\
    Forall (fun t => (Retry.retryDelay s0 <= t.1 <=
                        Retry.retryDelay s0 * 2 ^ (Retry.maxRetries s0 - 1)) /\
                     t.2 = context) armed.
Proof.
  intros Hcount Hdelay. induction n as [|n IH]; cbn zeta.
  - cbn. split; [done|]. split; [done|]. split; [done|].
    exists []. rewrite app_nil_r. by repeat split.
  - rewrite retries_S. cbn zeta in IH.
    set (s := Retry.retries n context s0) in *.
    destruct IH as (Hc & Hmax & Hd & armed & Htimers & Hlen & Hall).
    destruct (Z.lt_ge_cases (Retry.retryCount s) (Retry.maxRetries s))
      as [Hlt|Hge].
    + rewrite (scheduleRetry_below _ _ Hlt). cbn.
      split; [lia|]. split; [done|]. split; [done|].
      exists (armed ++ [(Retry.retryDelay s * 2 ^ Retry.retryCount s, context)]).
      rewrite Htimers, <- app_assoc. split; [done|].
      split; [rewrite length_app; cbn; lia|].
      apply Forall_app. split; [done|]. constructor; [|done]. cbn.
      rewrite Hd. split; [|done].
      pose proof (Z.pow_pos_nonneg 2 (Retry.retryCount s)
                    ltac:(lia) ltac:(lia)).
      assert (2 ^ Retry.retryCount s <= 2 ^ (Retry.maxRetries s0 - 1))
        by (apply Z.pow_le_mono_r; lia).
      nia.
    + rewrite (scheduleRetry_exhausted _ _ Hge). cbn.
      split; [lia|]. split; [done|]. split; [done|].
      exists armed. split; [done|]. split; [lia|done].
Qed.

Lemma retries_bounded_witness :
  exists armed,
    Retry.timers (Retry.retries 9 "registration" Retry.constructor) = armed /\
    (length armed <= 9)%nat.
Proof.
  destruct (retries_bounded 9 "registration" Retry.constructor)
    as (_ & _ & _ & armed & H & Hlen & _); [cbn; lia | cbn; lia |].
  exists armed. split; [exact H | exact Hlen].
Defined.

Lemma retries_settings (n : nat) (context : string) (s0 : Retry.state) :
  Retry.maxRetries (Retry.retries n context s0) = Retry.maxRetries s0 /\
  Retry.retryDelay (Retry.retries n context s0) = Retry.retryDelay s0.
Proof.
  induction n as [|n [IH1 IH2]]; [done|]. rewrite retries_S.
  unfold Retry.scheduleRetry. by destruct (_ <? _).
Qed.

(** X2. From a counter at zero, the errors come in rounds of [maxRetries + 1]:
    after [n] errors the counter is [n mod (maxRetries + 1)], and
    [n / (maxRetries + 1)] of them, the last of each full round, armed no
    timer. *)
Theorem retries_rounds (n : nat) (context : string) (s0 : Retry.state) :
  Retry.retryCount s0 = 0 ->
  0 <= Retry.maxRetries s0 ->
  let s := Retry.retries n context s0 in
  let round := Retry.maxRetries s0 + 1 in
  Retry.retryCount s = Z.of_nat n mod round /\
  Z.of_nat (length (Retry.timers s)) =
    Z.of_nat (length (Retry.timers s0)) + Z.of_nat n - Z.of_nat n / round.
Proof.
  intros Hzero Hmax s round. subst s.
  assert (0 < round) as Hround by (subst round; lia).
  induction n as [|n IH].
  - cbn [Retry.retries]. rewrite Hzero. rewrite Z.mod_0_l by lia.
    rewrite Z.div_0_l by lia. lia.
  - rewrite retries_S.
    destruct (retries_settings n context s0) as [Hm _].
    set (s := Retry.retries n context s0) in *.
    destruct IH as [Hc Hlen].
    pose proof (Z.div_mod (Z.of_nat n) round ltac:(lia)) as Hdm.
    pose proof (Z.mod_pos_bound (Z.of_nat n) round Hround) as Hb.
    set (q := Z.of_nat n / round) in *.
    set (r := Z.of_nat n mod round) in *.
    rewrite Nat2Z.inj_succ.
    destruct (Z.lt_ge_cases (Retry.retryCount s) (Retry.maxRetries s))
      as [Hlt|Hge].
    + rewrite (scheduleRetry_below _ _ Hlt). cbn.
      rewrite length_app. cbn.
      assert (Z.succ (Z.of_nat n) = round * q + (r + 1)) as E by lia.
      rewrite <- (Z.mod_unique_pos _ _ q (r + 1)) by lia.
      rewrite <- (Z.div_unique_pos _ _ q (r + 1)) by lia. lia.
    + rewrite (scheduleRetry_exhausted _ _ Hge). cbn.
      assert (Z.succ (Z.of_nat n) = round * (q + 1) + 0) as E by lia.
      rewrite <- (Z.mod_unique_pos _ _ (q + 1) 0) by lia.
      rewrite <- (Z.div_unique_pos _ _ (q + 1) 0) by lia. lia.
Qed.

Lemma retries_rounds_witness :
  Retry.retryCount (Retry.retries 6 "registration" Retry.constructor) = 2.
Proof.
  destruct (retries_rounds 6 "registration" Retry.constructor) as [H _];
    [reflexivity | cbn; lia |].
  exact H.
Defined.

(** ** Recording: what is uploaded *)

Lemma totalSize_concat (chunks : list Recording.Blob) :
  Recording.totalSize chunks = Z.of_nat (length (concat chunks)).
Proof.
  unfold Recording.totalSize.
  assert (forall acc,
            fold_left (fun sum chunk => sum + Recording.size chunk) chunks acc =
            acc + Z.of_nat (length (concat chunks))) as H.
  { induction chunks as [|b chunks IH]; intros acc; cbn; [lia|].
    rewrite IH, length_app. unfold Recording.size. lia. }
  by rewrite H.
Qed.

(** X3. The duration sent with a recording is the number of whole seconds
    since the call started, and when that is zero (the start is unknown
    or zero, or the call is shorter than a second) it is an estimate
    from the size of the recording that is sent: one second for every
    10000 bytes, rounded down, and at least one.  So the duration is
    never zero: unless the clock went backwards since the call started,
    it is at least one second. *)
Theorem upload_duration_positive (now : Z) (s s1 : Recording.state)
  (r : Recording.Request) :
  Recording.saveRecording_start now s = (s1, Some r) ->
  let elapsed :=
    match Recording.callStartTime s with
    | Some t => if decide (t = 0) then 0 else (now - t) / 1000
    | None => 0
    end in
  Recording.req_recording r = concat (Recording.recordedChunks s) /\
  Recording.req_duration r =
    (if decide (elapsed = 0)
     then Z.max 1 (Z.of_nat (length (Recording.req_recording r)) / 10000)
     else elapsed) /\
  ((forall t, Recording.callStartTime s = Some t -> t <= now) ->
   1 <= Recording.req_duration r).
Proof.
  unfold Recording.saveRecording_start.
  destruct (_ || _); [discriminate|]. case_bool_decide as Hne; [discriminate|].
  intros [= <- <-]. cbn.
  assert ((0 <? Z.of_nat (length (Recording.recordedChunks s))) = true) as ->.
  { apply Z.ltb_lt. destruct (Recording.recordedChunks s); [done|cbn; lia]. }
  rewrite totalSize_concat.
  unfold Recording.getCallDuration. cbn.
  split; [done|].
  destruct (Recording.callStartTime s) as [t|] eqn:Ht; [|cbn; split; [done|lia]].
  destruct (Z.eqb_spec t 0) as [->|Ht0]; cbn.
  { rewrite decide_True by done. cbn. split; [done|lia]. }
  rewrite (decide_False (P := t = 0)) by done.
  destruct (Z.eqb_spec ((now - t) / 1000) 0) as [E|E]; cbn.
  { rewrite decide_True by done. split; [done|lia]. }
  rewrite decide_False by done. split; [done|].
  intros Hclock. specialize (Hclock t eq_refl).
  pose proof (Z.div_pos (now - t) 1000 ltac:(lia) ltac:(lia)). lia.
Qed.

Lemma upload_duration_positive_witness :
  exists r,
    snd (Recording.saveRecording_start 1500 Scenario.two_chunks) = Some r /\
    Recording.req_duration r = 1 /\
    1 <= Recording.req_duration r.
Proof.
  destruct (Recording.saveRecording_start 1500 Scenario.two_chunks)
    as [s1 [r|]] eqn:E; [|vm_compute in E; discriminate].
  exists r. split; [reflexivity|].
  destruct (upload_duration_positive 1500 Scenario.two_chunks s1 r E)
    as (Hblob & Hd & Hpos).
  split; [rewrite Hd, Hblob; reflexivity|].
  apply Hpos. intros t [= <-]. lia.
Defined.

Lemma concat_nonempty {A} (ls : list (list A)) :
  ls <> [] -> Forall (fun l => l <> []) ls -> concat ls <> [].
Proof.
  destruct ls as [|l ls]; [done|]. intros _ H.
  apply Forall_cons in H as [Hl _]. cbn. by destruct l.
Qed.

Lemma call_saveRecording_chunks (now : Z) (f : bool) (sys : Recording.system) :
  Forall (fun b => b <> []) (Recording.recordedChunks (Recording.client sys)) ->
  Forall (fun r => Recording.req_recording r <> []) (Recording.posts sys) ->
  let sys' := Recording.call_saveRecording now f sys in
  Recording.recordedChunks (Recording.client sys') =
    Recording.recordedChunks (Recording.client sys) /\
  Forall (fun r => Recording.req_recording r <> []) (Recording.posts sys').
Proof.
  intros Hchunks Hposts. unfold Recording.call_saveRecording.
  destruct (Recording.saveRecording_start now (Recording.client sys))
    as [c [r|]] eqn:E.
  - apply saveRecording_start_sends in E as (_ & _ & Hne & -> & Hblob).
    cbn. split; [done|]. apply Forall_app. split; [done|].
    constructor; [|done]. rewrite Hblob. by apply concat_nonempty.
  - unfold Recording.saveRecording_start in E.
    destruct (_ || _); [|case_bool_decide; [|discriminate]];
      injection E as <-; cbn; by destruct f.
Qed.

Lemma startRecording_chunks (stream : option nat) (cr st : bool)
  (s : Recording.state) :
  Forall (fun b => b <> []) (Recording.recordedChunks s) ->
  Forall (fun b => b <> [])
    (Recording.recordedChunks (Recording.startRecording stream cr st s)).
Proof.
  intros H. unfold Recording.startRecording.
  destruct (Recording.mediaRecorder s) as [[[] p]|]; cbn; [|done|];
    (destruct stream as [n|]; [|done]);
    destruct (bool_decide (n = 0%nat)), cr, st; cbn; constructor.
Qed.

Lemma ondataavailable_chunks (data : Recording.Blob) (s : Recording.state) :
  Forall (fun b => b <> []) (Recording.recordedChunks s) ->
  Forall (fun b => b <> [])
    (Recording.recordedChunks (Recording.ondataavailable data s)).
Proof.
  intros H. unfold Recording.ondataavailable, Recording.size.
  destruct (Z.ltb_spec 0 (Z.of_nat (length data))); [|done]. cbn.
  apply Forall_app. split; [done|]. constructor; [|done].
  intros ->. cbn in *. lia.
Qed.

Lemma completed_chunks (f : bool) (s : Recording.state) :
  Recording.recordedChunks (Recording.completed f s) = Recording.recordedChunks s.
Proof. by destruct f. Qed.

Lemma step_uploads (e : Recording.event) (sys : Recording.system) :
  Forall (fun b => b <> []) (Recording.recordedChunks (Recording.client sys)) ->
  Forall (fun r => Recording.req_recording r <> []) (Recording.posts sys) ->
  Forall (fun b => b <> [])
    (Recording.recordedChunks (Recording.client (Recording.step e sys))) /\
  Forall (fun r => Recording.req_recording r <> [])
    (Recording.posts (Recording.step e sys)).
Proof.
  intros Hchunks Hposts.
  pose proof (fun now f => call_saveRecording_chunks now f sys Hchunks Hposts)
    as Hcall.
  destruct e as [n cr st|data|now th|now|id r|id b]; cbn [Recording.step].
  - split; [by apply startRecording_chunks|done].
  - split; [by apply ondataavailable_chunks|done].
  - unfold Recording.stopRecording.
    destruct (Recording.mediaRecorder (Recording.client sys)) as [[[] p]|].
    + case_bool_decide; [done|]. destruct (Hcall now false) as [-> ?]. done.
    + destruct th; [|done].
      case_bool_decide; [done|]. destruct (Hcall now false) as [-> ?]. done.
    + case_bool_decide; [done|]. destruct (Hcall now false) as [-> ?]. done.
  - unfold Recording.onstop.
    destruct (Recording.mediaRecorder (Recording.client sys)) as [[st []]|];
      [|done..].
    case_bool_decide; [done|].
    set (sys1 := Recording.with_client _ sys).
    destruct (call_saveRecording_chunks now true sys1 Hchunks Hposts) as [-> ?].
    done.
  - unfold Recording.fetch_settled.
    destruct (Recording.inflight sys !! id) as [[[] f]|]; [|done..].
    destruct r as [|status]; cbn.
    + by rewrite completed_chunks.
    + by destruct (Recording.response_ok status).
  - unfold Recording.body_settled.
    destruct (Recording.inflight sys !! id) as [[[] f]|]; [done| | |done]; cbn;
      rewrite completed_chunks; by destruct b.
Qed.

(** X4. Whatever the recorder, the user and the server do, and in whatever
    order, no upload carries an empty recording: the buffer only ever
    holds chunks that are not empty, and a request is only sent for a
    buffer that is not empty. *)
Theorem uploads_never_empty (es : list Recording.event) (sys : Recording.system) :
  Forall (fun b => b <> []) (Recording.recordedChunks (Recording.client sys)) ->
  Forall (fun r => Recording.req_recording r <> []) (Recording.posts sys) ->
  Forall (fun b => b <> [])
    (Recording.recordedChunks (Recording.client (Recording.run es sys))) /\
  Forall (fun r => Recording.req_recording r <> [])
    (Recording.posts (Recording.run es sys)).
Proof.
  revert sys. induction es as [|e es IH]; intros sys Hchunks Hposts; [done|].
  cbn. by apply IH; apply step_uploads.
Qed.

Lemma uploads_never_empty_witness :
  Forall (fun r => Recording.req_recording r <> [])
    (Recording.posts
       (Recording.run Scenario.stop_then_hangup (Recording.boot Scenario.in_call))).
Proof.
  apply (uploads_never_empty Scenario.stop_then_hangup
           (Recording.boot Scenario.in_call)); constructor.
Defined.

(** ** Errors shown to the user: [formatError] *)

Lemma str_or_self (s d : string) : s <> "" -> str_or (Some s) d = s.
Proof. intros H. unfold str_or. by destruct (decide (s = "")). Qed.

(** X5. [formatError] never yields an error without a message, and it is
    idempotent: an error that went through it comes out of it unchanged. *)
Theorem formatError_idempotent (e : JsError) :
  err_message (Outbound.formatError e) <> "" /\
  Outbound.formatError (Outbound.formatError e) = Outbound.formatError e.
Proof.
  assert (Outbound.formatError e =
            Error "Microphone access denied. Please allow microphone access." \/
          Outbound.formatError e =
            Error "No microphone found. Please connect a microphone." \/
          (Outbound.formatError e = e /\
           err_name e <> "NotAllowedError" /\ err_name e <> "NotFoundError" /\
           err_message e <> "" /\ includes "HTTPS" (err_message e) = true) \/
          (exists m, Outbound.formatError e = Error m /\ m <> "" /\
                     includes "HTTPS" m = false)) as Hcases.
  { unfold Outbound.formatError.
    destruct (decide (err_name e = "NotAllowedError")); [by left|].
    destruct (decide (err_name e = "NotFoundError")); [by right; left|].
    case_bool_decide as Hempty; cbn [negb andb].
    - do 3 right. exists "An error occurred". by rewrite Hempty.
    - destruct (includes "HTTPS" (err_message e)) eqn:Hhttps.
      + right; right; left. done.
      + do 3 right. exists (err_message e). by rewrite str_or_self. }
  destruct Hcases as [-> | [-> | [(-> & Hna & Hnf & Hmsg & Hhttps) |
                                  (m & -> & Hm & Hhttps)]]].
  - by split.
  - by split.
  - split; [done|]. unfold Outbound.formatError.
    destruct (decide (err_name e = "NotAllowedError")); [done|].
    destruct (decide (err_name e = "NotFoundError")); [done|].
    rewrite Hhttps. by rewrite bool_decide_eq_false_2.
  - split; [done|]. unfold Outbound.formatError. cbn.
    rewrite Hhttps, andb_false_r. by destruct (decide (m = "")).
Qed.

(** ** Outbound calls: the tones [makeCall] leaves behind *)

Lemma catch_tones (allowed : bool) (e : JsError) (c : Outbound.client) :
  let c' := fst (Outbound.catch allowed e c) in
  (Tones.playing_count (Outbound.tones c') <= 1)%nat /\
  Tones.playing (Tones.ringbackTone (Outbound.tones c')) = false /\
  Tones.playing (Tones.ringTone (Outbound.tones c')) = false.
Proof.
  unfold Outbound.catch. cbn. destruct (_ || _); cbn; [|by repeat split; lia].
  destruct allowed; cbn; repeat split; lia.
Qed.

(** X6. Whatever the client, the target and the fate of the INVITE, when
    [makeCall] is over at most one tone is playing and it is never the ring
    tone; the ringback tone is playing only if [makeCall] returned
    normally, that is, with the INVITE sent and not rejected so far. *)
Theorem makeCall_tones (makeURI : string -> option string)
  (phoneNumber : string) (now : Z) (allowed : bool)
  (o : Outbound.invite_outcome) (captured : option string)
  (c : Outbound.client) :
  let result := Outbound.makeCall makeURI phoneNumber now allowed o captured c in
  let tones := Outbound.tones (fst result) in
  (Tones.playing_count tones <= 1)%nat /\
  Tones.playing (Tones.ringTone tones) = false /\
  (Tones.playing (Tones.ringbackTone tones) = true ->
   snd result = Return true /\ o = Outbound.Sent /\ allowed = true) /\
  (snd result = Return true -> allowed = true ->
   Tones.playing (Tones.ringbackTone tones) = true).
Proof.
  cbv zeta. unfold Outbound.makeCall.
  assert (forall e c0,
    let r := Outbound.catch allowed e c0 in
    (Tones.playing_count (Outbound.tones (fst r)) <= 1)%nat /\
    Tones.playing (Tones.ringTone (Outbound.tones (fst r))) = false /\
    (Tones.playing (Tones.ringbackTone (Outbound.tones (fst r))) = true ->
     snd r = Return true /\ o = Outbound.Sent /\ allowed = true) /\
    (snd r = Return true -> allowed = true ->
     Tones.playing (Tones.ringbackTone (Outbound.tones (fst r))) = true))
    as Hcatch.
  { intros e c0. destruct (catch_tones allowed e c0) as (H1 & H2 & H3).
    cbv zeta. split; [done|]. split; [done|]. split.
    - intros H. by rewrite H2 in H.
    - unfold Outbound.catch. cbn. done. }
  destruct (_ || _); [apply Hcatch|].
  destruct (makeURI _) as [inviter|]; [|apply Hcatch].
  destruct o as [|r|e]; [|apply Hcatch..].
  cbn. destruct allowed; cbn; repeat split; try done; lia.
Qed.

Lemma makeCall_tones_witness :
  Tones.playing
    (Tones.ringbackTone
       (Outbound.tones
          (fst (Outbound.makeCall Scenario.makeURI "1001" 1000 true
                  Outbound.Sent None Scenario.registered)))) = true.
Proof.
  destruct (makeCall_tones Scenario.makeURI "1001" 1000 true Outbound.Sent
              None Scenario.registered) as (_ & _ & _ & H).
  apply H; reflexivity.
Defined.

(** X7. Whether the busy tone plays after a rejected call depends on when
    the rejection is delivered.  While [makeCall] awaits [invite]
    ([early]), the [catch] block has the last word and decides on the
    message alone: the tone plays when the browser allows it and the
    message mentions "Busy", "Unavailable", "503" or "486"; so it plays
    for 486, 503 and 480 and not for 404 and 408, and for any other
    status, 600 included, what [onReject] started is stopped again unless
    the reason phrase has one of those words.  After [invite] has
    resolved and [makeCall] has returned ([late]), [onReject] runs alone
    and decides on the status code: the tone plays when the browser
    allows it and the status is 486, 503 or 600; so it plays for 600 and
    not for 480, 404 and 408. *)
Theorem rejected_call_busy_tone (makeURI : string -> option string)
  (phoneNumber : string) (now : Z) (allowed : bool) (captured : option string)
  (r : Outbound.Response) (c : Outbound.client) :
  Outbound.userAgent c = true ->
  Outbound.isRegistered c = true ->
  is_Some (makeURI ("sip:" +:+ phoneNumber +:+ "@" +:+
                    str_or (Outbound.realm c) (Outbound.host c))%string) ->
  let c' := fst (Outbound.makeCall makeURI phoneNumber now allowed
                   (Outbound.RejectedWith r) captured c) in
  let late :=
    Outbound.onReject allowed r
      (fst (Outbound.makeCall makeURI phoneNumber now allowed
              Outbound.Sent captured c)) in
  let message := Outbound.rejectionError r in
  let code := Outbound.statusCode r in
  Tones.playing (Tones.busyTone (Outbound.tones c')) =
    allowed && (includes "Busy" message || includes "Unavailable" message ||
                includes "503" message || includes "486" message) /\
  (code = 486 \/ code = 503 \/ code = 480 ->
   Tones.playing (Tones.busyTone (Outbound.tones c')) = allowed) /\
  (code = 404 \/ code = 408 ->
   Tones.playing (Tones.busyTone (Outbound.tones c')) = false) /\
  Tones.playing (Tones.busyTone (Outbound.tones late)) =
    allowed && (bool_decide (code = 486) || bool_decide (code = 503) ||
                bool_decide (code = 600)) /\
  (code = 486 \/ code = 503 \/ code = 600 ->
   Tones.playing (Tones.busyTone (Outbound.tones late)) = allowed) /\
  (code = 480 \/ code = 404 \/ code = 408 ->
   Tones.playing (Tones.busyTone (Outbound.tones late)) = false).
Proof.
  intros Hua Hreg [inviter Huri]. cbv zeta.
  assert (Tones.playing
            (Tones.busyTone
               (Outbound.tones
                  (Outbound.onReject allowed r
                     (fst (Outbound.makeCall makeURI phoneNumber now allowed
                             Outbound.Sent captured c))))) =
          allowed && (bool_decide (Outbound.statusCode r = 486) ||
                      bool_decide (Outbound.statusCode r = 503) ||
                      bool_decide (Outbound.statusCode r = 600))) as Hlate.
  { unfold Outbound.makeCall. rewrite Hua, Hreg, Huri. cbn [negb orb fst].
    unfold Outbound.onReject.
    destruct (Z.eqb_spec (Outbound.statusCode r) 486) as [->|H486];
      [cbn; by destruct allowed|].
    destruct (Z.eqb_spec (Outbound.statusCode r) 503) as [->|H503];
      [cbn; by destruct allowed|].
    destruct (Z.eqb_spec (Outbound.statusCode r) 600) as [->|H600];
      [cbn; by destruct allowed|].
    rewrite !bool_decide_eq_false_2 by done. cbn. by rewrite andb_false_r. }
  rewrite !Hlate. clear Hlate.
  unfold Outbound.makeCall. rewrite Hua, Hreg, Huri. cbn [negb orb].
  set (c1 := Outbound.store_session _ _ _).
  assert (Tones.playing
            (Tones.busyTone
               (Outbound.tones
                  (fst (Outbound.catch allowed
                          (Error (Outbound.rejectionError r)) c1)))) =
          allowed &&
          (includes "Busy" (Outbound.rejectionError r) ||
           includes "Unavailable" (Outbound.rejectionError r) ||
           includes "503" (Outbound.rejectionError r) ||
           includes "486" (Outbound.rejectionError r))) as Hbusy.
  { unfold Outbound.catch.
    rewrite (str_or_self (err_message (Error (Outbound.rejectionError r))))
      by apply rejectionError_nonempty.
    cbn [err_message Error].
    destruct (_ || _); cbn; [by destruct allowed|by rewrite andb_false_r]. }
  split; [exact Hbusy|]. rewrite Hbusy. unfold Outbound.rejectionError.
  split; [|split; [|split; [done|split]]].
  - intros [-> | [-> | ->]]; cbn; by rewrite andb_true_r.
  - intros [-> | ->]; cbn; by rewrite andb_false_r.
  - intros [-> | [-> | ->]]; cbn; by rewrite andb_true_r.
  - intros [-> | [-> | ->]]; cbn; by rewrite andb_false_r.
Qed.

Lemma rejected_call_busy_tone_witness :
  let tone o :=
    Tones.playing
      (Tones.busyTone
         (Outbound.tones
            (fst (Outbound.makeCall Scenario.makeURI "1001" 1000 true o None
                    Scenario.registered)))) in
  let decline := Outbound.mkResponse 600 (Some "Decline") in
  tone (Outbound.RejectedWith decline) = false /\
  Tones.playing
    (Tones.busyTone
       (Outbound.tones
          (Outbound.onReject true decline
             (fst (Outbound.makeCall Scenario.makeURI "1001" 1000 true
                     Outbound.Sent None Scenario.registered))))) = true.
Proof.
  destruct (rejected_call_busy_tone Scenario.makeURI "1001" 1000 true None
              (Outbound.mkResponse 600 (Some "Decline")) Scenario.registered
              eq_refl eq_refl (ex_intro _ _ eq_refl)) as (H & _ & _ & H' & _).
  cbv beta zeta. rewrite H, H'. split; reflexivity.
Defined.


(** ** Call duration tracking *)

Lemma noted_tidy (s : Tracking.state) :
  Tracking.tidy s -> Tracking.noted s = Tracking.durationInterval s.
Proof.
  intros (Hlive & Hpos & _). unfold Tracking.noted.
  destruct (Tracking.durationInterval s) as [id|]; [|done].
  destruct (Nat.eqb_spec id 0) as [->|]; [|done].
  cbn in Hlive. specialize (Hpos 0%nat). rewrite Hlive in Hpos.
  assert (0 < 0)%nat by (apply Hpos; set_solver). lia.
Qed.

Lemma stop_tidy (s : Tracking.state) :
  Tracking.tidy s ->
  Tracking.tidy (Tracking.stopCallDurationTracking s) /\
  Tracking.intervals (Tracking.stopCallDurationTracking s) = ∅.
Proof.
  intros Ht. pose proof (noted_tidy s Ht) as Hn.
  destruct Ht as (Hlive & Hpos & Hnext).
  unfold Tracking.stopCallDurationTracking, Tracking.tidy. rewrite Hn.
  destruct (Tracking.durationInterval s) as [id|] eqn:E; cbn in *.
  - rewrite Hlive. split; [|set_solver]. split; [set_solver|].
    split; [|done]. intros i Hi. set_solver.
  - rewrite E. cbn. by rewrite Hlive in *.
Qed.

Lemma start_tidy (s : Tracking.state) :
  Tracking.tidy s -> Tracking.tidy (Tracking.startCallDurationTracking s).
Proof.
  intros Ht. pose proof (noted_tidy s Ht) as Hn.
  destruct Ht as (Hlive & Hpos & Hnext).
  unfold Tracking.startCallDurationTracking, Tracking.tidy. rewrite Hn. cbn.
  destruct (Tracking.durationInterval s) as [id|]; cbn in *; rewrite Hlive;
    (split; [set_solver|]); (split; [|lia]);
    intros i Hi; assert (i = Tracking.next_timer s) by set_solver; lia.
Qed.

Lemma set_callState_tidy (st : Outbound.CallState) (s : Tracking.state) :
  Tracking.tidy s -> Tracking.tidy (Tracking.set_callState st s).
Proof. done. Qed.

Lemma apply_tidy (o : Tracking.op) (s : Tracking.state) :
  Tracking.tidy s -> Tracking.tidy (Tracking.apply o s).
Proof.
  intros Ht.
  destruct o as [st now| | |now| | |st|id now]; cbn [Tracking.apply].
  - unfold Tracking.updateCallState.
    destruct st; try done.
    + by apply stop_tidy, set_callState_tidy.
    + by apply start_tidy, set_callState_tidy.
    + by apply stop_tidy, set_callState_tidy.
  - by apply start_tidy.
  - by apply stop_tidy.
  - done.
  - by destruct (stop_tidy s Ht).
  - done.
  - done.
  - unfold Tracking.tick. by destruct (_ && _).
Qed.

(** X8. From the constructor on, whatever the order of state changes,
    timer ticks, calls to start or stop the tracking, clean-ups and
    writes to the start time or the state, the only interval timer that
    runs is the one noted in [durationInterval], so at most one runs and
    none is leaked; [cleanup] leaves none, and once [updateCallState]
    has set the state to "ended" or "idle" no timer is left, so no tick
    changes the duration any more. *)
Theorem duration_timer_never_leaks (ops : list Tracking.op) :
  let s := Tracking.run ops Tracking.constructor in
  Tracking.intervals s =
    from_option (fun id => {[id]}) ∅ (Tracking.durationInterval s) /\
  (size (Tracking.intervals s) <= 1)%nat /\
  Tracking.intervals (Tracking.cleanup s) = ∅ /\
  forall newState now id later,
    newState = Outbound.ended \/ newState = Outbound.idle ->
    let s' := Tracking.updateCallState newState now s in
    Tracking.intervals s' = ∅ /\ Tracking.tick id later s' = s'.
Proof.
  cbv zeta.
  assert (Tracking.tidy (Tracking.run ops Tracking.constructor)) as Htidy.
  { assert (Tracking.tidy Tracking.constructor) as H0.
    { repeat split; cbn; [set_solver|set_solver|lia]. }
    revert H0. generalize Tracking.constructor.
    induction ops as [|o ops IH]; intros s Hs; [done|].
    cbn. by apply IH, apply_tidy. }
  set (s := Tracking.run ops Tracking.constructor) in *.
  pose proof Htidy as (Hlive & _). split; [done|]. split.
  { rewrite Hlive. destruct (Tracking.durationInterval s); cbn;
      [rewrite size_singleton|rewrite size_empty]; lia. }
  split; [by destruct (stop_tidy s Htidy)|].
  intros newState now id later Hstate.
  assert (Tracking.intervals (Tracking.updateCallState newState now s) = ∅)
    as Hempty.
  { destruct (stop_tidy (Tracking.set_callState newState s)
                (set_callState_tidy newState s Htidy)) as [_ He].
    by destruct Hstate as [-> | ->]. }
  split; [done|]. unfold Tracking.tick. rewrite Hempty.
  by rewrite bool_decide_eq_false_2 by set_solver.
Qed.

Lemma duration_timer_never_leaks_witness :
  Tracking.intervals
    (Tracking.updateCallState Outbound.ended 9000
       (Tracking.run
          [Tracking.UpdateCallState Outbound.connected 1000;
           Tracking.StartTracking; Tracking.Established 1200]
          Tracking.constructor)) = ∅.
Proof.
  destruct (duration_timer_never_leaks
              [Tracking.UpdateCallState Outbound.connected 1000;
               Tracking.StartTracking; Tracking.Established 1200])
    as (_ & _ & _ & H).
  destruct (H Outbound.ended 9000 1%nat 9500 (or_introl eq_refl)) as [He _].
  exact He.
Defined.

(** ** Registration and transport events *)

Lemma handle_frame (e : Registration.event) (c : Outbound.client) :
  Outbound.isRegistered (Registration.handle e c) =
    default (Outbound.isRegistered c) (Registration.verdict e) /\
  Registration.set_isRegistered false (Registration.handle e c) =
    Registration.set_isRegistered false c.
Proof. by destruct e as [[]| | |]. Qed.

Lemma run_frame (es : list Registration.event) (c : Outbound.client) :
  Outbound.isRegistered (Registration.run es c) =
    default (Outbound.isRegistered c) (last (omap Registration.verdict es)) /\
  Registration.set_isRegistered false (Registration.run es c) =
    Registration.set_isRegistered false c.
Proof.
  induction es as [|e es [IH1 IH2]] using rev_ind; [done|].
  unfold Registration.run in *. rewrite fold_left_app. cbn [fold_left].
  destruct (handle_frame e (fold_left (fun c e => Registration.handle e c) es c))
    as [He Hf].
  split; [|by rewrite Hf].
  rewrite He, IH1, omap_app. cbn.
  destruct (Registration.verdict e) as [b|]; cbn.
  - by rewrite last_snoc.
  - by rewrite app_nil_r.
Qed.

(** X9. The client counts as registered exactly when the last event that
    says anything about it is the registerer reaching Registered: a
    transport that disconnects or fails, and a registerer that becomes
    Unregistered or Terminated, unregister it; nothing else of the client
    changes, so a call in progress, its tones and its state are left as
    they are.  While the client does not count as registered, [makeCall]
    fails with "Not registered with SIP server" whatever the target, and
    starts nothing. *)
Theorem registration_follows_events (es : list Registration.event)
  (c : Outbound.client) :
  let c' := Registration.run es c in
  Outbound.isRegistered c' =
    default (Outbound.isRegistered c) (last (omap Registration.verdict es)) /\
  Registration.set_isRegistered false c' =
    Registration.set_isRegistered false c /\
  (Outbound.isRegistered c' = false ->
   forall makeURI phoneNumber now allowed o captured,
     let result :=
       Outbound.makeCall makeURI phoneNumber now allowed o captured c' in
     snd result = Throw (Error "Not registered with SIP server") /\
     Outbound.currentSession (fst result) = Outbound.currentSession c /\
     Outbound.callState (fst result) = Outbound.callState c /\
     Tones.playing_count (Outbound.tones (fst result)) = 0%nat).
Proof.
  cbv zeta. destruct (run_frame es c) as [Hreg Hframe].
  split; [done|]. split; [done|].
  intros Hno makeURI phoneNumber now allowed o captured.
  unfold Outbound.makeCall. rewrite Hno, orb_true_r. cbn.
  destruct (Registration.run es c) eqn:E. destruct c. cbn in *.
  by injection Hframe as -> -> -> -> -> -> -> -> ->.
Qed.

Lemma registration_follows_events_witness :
  snd (Outbound.makeCall Scenario.makeURI "1001" 1000 true Outbound.Sent None
         (Registration.run
            [Registration.StateChange Registration.Registered;
             Registration.TransportDisconnected;
             Registration.TransportConnected]
            Scenario.registered))
  = Throw (Error "Not registered with SIP server").
Proof.
  destruct (registration_follows_events
              [Registration.StateChange Registration.Registered;
               Registration.TransportDisconnected;
               Registration.TransportConnected]
              Scenario.registered) as (_ & _ & H).
  destruct (H eq_refl Scenario.makeURI "1001" 1000 true Outbound.Sent None)
    as (-> & _).
  reflexivity.
Defined.

(** ** The microphone *)

Lemma is_audio_write (b : bool) (j k : nat) (σ : Sip.TrackStore) :
  Microphone.is_audio (Sip.write_enabled b j σ) k = Microphone.is_audio σ k.
Proof.
  unfold Microphone.is_audio, Sip.write_enabled.
  destruct (decide (j = k)) as [->|Hne].
  - rewrite lookup_alter_eq. by destruct (σ !! k).
  - by rewrite lookup_alter_ne.
Qed.

Lemma set_microphone_lookup (b : bool) (ts : list nat) (σ : Sip.TrackStore)
  (k : nat) :
  Microphone.set_microphone b ts σ !! k =
    if bool_decide (k ∈ ts) && Microphone.is_audio σ k
    then Sip.set_enabled b <$> σ !! k else σ !! k.
Proof.
  revert σ. induction ts as [|a ts IH]; intros σ; [done|].
  cbn [Microphone.set_microphone fold_left].
  fold (Microphone.set_microphone b ts
          (if Microphone.is_audio σ a then Sip.write_enabled b a σ else σ)).
  rewrite IH.
  assert (Microphone.is_audio
            (if Microphone.is_audio σ a then Sip.write_enabled b a σ else σ) k
          = Microphone.is_audio σ k) as ->.
  { destruct (Microphone.is_audio σ a); [apply is_audio_write|done]. }
  destruct (decide (k = a)) as [->|Hne].
  - rewrite (bool_decide_eq_true_2 (a ∈ a :: ts)) by set_solver.
    destruct (Microphone.is_audio σ a) eqn:Ha; cbn [andb].
    + unfold Sip.write_enabled. rewrite lookup_alter_eq.
      destruct (bool_decide (a ∈ ts)); [apply set_enabled_twice|done].
    + by rewrite andb_false_r.
  - assert (bool_decide (k ∈ a :: ts) = bool_decide (k ∈ ts)) as ->.
    { apply bool_decide_ext. set_solver. }
    assert ((if Microphone.is_audio σ a then Sip.write_enabled b a σ else σ)
              !! k = σ !! k) as ->; [|done].
    destruct (Microphone.is_audio σ a); [|done].
    unfold Sip.write_enabled. by rewrite lookup_alter_ne.
Qed.

(** X10. Without a local stream both methods return [false] and do nothing.
    With one they return [true]; muting disables exactly the audio tracks
    of the stream, and unmuting afterwards leaves exactly those tracks
    enabled: every other track (a video track of the stream, a remote
    track) is as it was, and a track that was already disabled before
    muting comes back enabled. *)
Theorem mute_then_unmute (c : Microphone.client) :
  (Microphone.localStream c = None ->
   Microphone.muteMicrophone c = (c, false) /\
   Microphone.unmuteMicrophone c = (c, false)) /\
  (forall ts, Microphone.localStream c = Some ts ->
     let muted := Microphone.muteMicrophone c in
     let unmuted := Microphone.unmuteMicrophone (fst muted) in
     let σ := Sip.tracks (Microphone.sip c) in
     snd muted = true /\ snd unmuted = true /\
     forall k,
       Sip.tracks (Microphone.sip (fst muted)) !! k =
         (if bool_decide (k ∈ ts) && Microphone.is_audio σ k
          then Sip.set_enabled false <$> σ !! k else σ !! k) /\
       Sip.tracks (Microphone.sip (fst unmuted)) !! k =
         (if bool_decide (k ∈ ts) && Microphone.is_audio σ k
          then Sip.set_enabled true <$> σ !! k else σ !! k)).
Proof.
  split.
  - intros H. unfold Microphone.muteMicrophone, Microphone.unmuteMicrophone,
      Microphone.switch. by rewrite H.
  - intros ts H. cbv zeta.
    unfold Microphone.muteMicrophone, Microphone.unmuteMicrophone,
      Microphone.switch. rewrite H. cbn.
    split; [done|]. split; [done|]. intros k.
    rewrite !set_microphone_lookup. split; [done|].
    assert (Microphone.is_audio
              (Microphone.set_microphone false ts
                 (Sip.tracks (Microphone.sip c))) k =
            Microphone.is_audio (Sip.tracks (Microphone.sip c)) k) as ->.
    { unfold Microphone.is_audio at 1. rewrite set_microphone_lookup.
      unfold Microphone.is_audio.
      destruct (_ && _); [|done].
      by destruct (Sip.tracks (Microphone.sip c) !! k). }
    destruct (_ && _); [apply set_enabled_twice|done].
Qed.

Lemma mute_then_unmute_witness :
  Sip.tracks
    (Microphone.sip
       (fst (Microphone.muteMicrophone
               (Microphone.mkClient Scenario.established (Some [1%nat])))))
    !! 1%nat
  = Some (Sip.mkTrack Sip.audio false false).
Proof.
  destruct (mute_then_unmute
              (Microphone.mkClient Scenario.established (Some [1%nat])))
    as [_ H].
  destruct (H [1%nat] eq_refl) as (_ & _ & Hk).
  destruct (Hk 1%nat) as [-> _]. reflexivity.
Defined.

(** ** Hold and resume, further *)

Lemma onAccept_session (held : bool) (ev now : string) (c c' : Sip.client)
  (s : Sip.Session) :
  Sip.currentSession c = Some s ->
  Hold.onAccept held ev now c = (c', Return tt) ->
  Sip.currentSession c' = Some (Hold.log_hold ev now (Sip.set_isOnHold held s)) /\
  Sip.host c' = Sip.host c.
Proof.
  intros Hs. unfold Hold.onAccept. rewrite Hs.
  destruct (match Sip.sessionDescriptionHandler s with
            | Some {| Sip.peerConnection := Some pc |} => _
            | _ => _
            end) as [σ [e|]]; [discriminate|].
  by intros [= <-].
Qed.

(** What an accepted re-INVITE leaves, for either method. *)
Lemma attempt_accepted (held : bool) (no_call ev msg now : string)
  (c c1 : Sip.client) (s : Sip.Session) :
  Sip.currentSession c = Some s ->
  Sip.isOnHold s <> Some held ->
  Hold.attempt (Hold.begin held no_call) (Hold.onAccept held ev)
    (Hold.onReject (negb held) msg) (Hold.catch (negb held))
    (Hold.Accepted now) c = (c1, Hold.mkReport (Return true) None) ->
  let s0 := Sip.send (Sip.ReInvite held)
              (Sip.set_reinvite_hold held (Sip.set_isOnHold held s)) in
  Hold.onAccept held ev now (Sip.set_session s0 c) = (c1, Return tt) /\
  Sip.currentSession c1 = Some (Hold.log_hold ev now (Sip.set_isOnHold held s0)).
Proof.
  intros Hs Hflag. unfold Hold.attempt, Hold.begin. rewrite Hs.
  rewrite bool_decide_eq_false_2 by done.
  cbn [Sip.set_isOnHold Sip.sessionDescriptionHandlerOptionsReInvite].
  destruct (Sip.sessionDescriptionHandlerOptionsReInvite s) as [h|];
    [|cbn; intros [= _ ?]; discriminate].
  set (s0 := Sip.send _ _).
  destruct (Hold.onAccept held ev now (Sip.set_session s0 c)) as [c1' r] eqn:E.
  intros [= <- Hr]. destruct r as [[]|e]; [|discriminate].
  split; [done|]. by apply (onAccept_session held ev now _ _ s0) in E as [? _].
Qed.

(** X11. Once a hold has been accepted, [holdCall] does nothing more: whatever
    would become of a re-INVITE, none is sent, the client is unchanged and
    the method returns [true].  The same holds for [resumeCall] after an
    accepted resume. *)
Theorem hold_and_resume_are_idempotent (c c1 : Sip.client) (s : Sip.Session)
  (now : string) (o : Hold.outcome) :
  Sip.currentSession c = Some s ->
  (Sip.isOnHold s <> Some true ->
   Hold.holdCall (Hold.Accepted now) c = (c1, Hold.mkReport (Return true) None) ->
   Hold.holdCall o c1 = (c1, Hold.mkReport (Return true) None)) /\
  (Sip.isOnHold s <> Some false ->
   Hold.resumeCall (Hold.Accepted now) c = (c1, Hold.mkReport (Return true) None) ->
   Hold.resumeCall o c1 = (c1, Hold.mkReport (Return true) None)).
Proof.
  intros Hs. split; intros Hflag Hfirst.
  - destruct (attempt_accepted true _ _ _ _ _ _ _ Hs Hflag Hfirst) as [_ Hs1].
    unfold Hold.holdCall, Hold.attempt, Hold.holdCall_begin, Hold.begin.
    rewrite Hs1. by rewrite bool_decide_eq_true_2.
  - destruct (attempt_accepted false _ _ _ _ _ _ _ Hs Hflag Hfirst) as [_ Hs1].
    unfold Hold.resumeCall, Hold.attempt, Hold.resumeCall_begin, Hold.begin.
    rewrite Hs1. by rewrite bool_decide_eq_true_2.
Qed.

Lemma hold_and_resume_are_idempotent_witness :
  Hold.holdCall Hold.Rejected Scenario.on_hold =
    (Scenario.on_hold, Hold.mkReport (Return true) None).
Proof.
  destruct (hold_and_resume_are_idempotent Scenario.established
              Scenario.on_hold Scenario.established_session
              "2026-01-01T10:00:00.000Z" Hold.Rejected eq_refl) as [H _].
  apply H; [discriminate|reflexivity].
Defined.

(** X12. The hold log, [data.hold], and the requests follow the accepted
    re-INVITEs in order: an accepted hold of a call that is not on hold
    followed by an accepted resume adds the events "hold" and "unhold",
    with their times, to the log as it was, and sends a re-INVITE with
    hold and one without. *)
Theorem hold_log_in_order (c c1 c2 : Sip.client) (s : Sip.Session)
  (t1 t2 : string) :
  Sip.currentSession c = Some s ->
  Sip.isOnHold s <> Some true ->
  Hold.holdCall (Hold.Accepted t1) c = (c1, Hold.mkReport (Return true) None) ->
  Hold.resumeCall (Hold.Accepted t2) c1 = (c2, Hold.mkReport (Return true) None) ->
  exists s2 d2,
    Sip.currentSession c2 = Some s2 /\
    Sip.data s2 = Some d2 /\
    Sip.hold d2 =
      Some (default [] (Sip.data s ≫= Sip.hold) ++
            [Sip.mkHoldEvent "hold" t1; Sip.mkHoldEvent "unhold" t2]) /\
    Sip.transfer d2 = Sip.data s ≫= Sip.transfer /\
    Sip.sent s2 = Sip.sent s ++ [Sip.ReInvite true; Sip.ReInvite false].
Proof.
  intros Hs Hflag Hhold Hresume.
  destruct (attempt_accepted true _ _ _ _ _ _ _ Hs Hflag Hhold) as [_ Hs1].
  assert (Sip.isOnHold
            (Hold.log_hold "hold" t1
               (Sip.set_isOnHold true
                  (Sip.send (Sip.ReInvite true)
                     (Sip.set_reinvite_hold true (Sip.set_isOnHold true s)))))
          <> Some false) as Hflag1 by done.
  destruct (attempt_accepted false _ _ _ _ _ _ _ Hs1 Hflag1 Hresume)
    as [_ Hs2].
  do 2 eexists. split; [exact Hs2|]. split; [reflexivity|].
  cbn. rewrite <- !app_assoc. cbn.
  destruct (Sip.data s) as [d|]; cbn; [destruct (Sip.hold d)|]; done.
Qed.

Lemma hold_log_in_order_witness :
  exists s2 d2,
    Sip.currentSession
      (fst (Hold.resumeCall (Hold.Accepted "2026-01-01T10:00:09.000Z")
              Scenario.on_hold)) = Some s2 /\
    Sip.data s2 = Some d2 /\
    Sip.hold d2 =
      Some [Sip.mkHoldEvent "hold" "2026-01-01T10:00:00.000Z";
            Sip.mkHoldEvent "unhold" "2026-01-01T10:00:09.000Z"].
Proof.
  destruct (hold_log_in_order Scenario.established Scenario.on_hold
              (fst (Hold.resumeCall (Hold.Accepted "2026-01-01T10:00:09.000Z")
                      Scenario.on_hold))
              Scenario.established_session
              "2026-01-01T10:00:00.000Z" "2026-01-01T10:00:09.000Z"
              eq_refl ltac:(discriminate) eq_refl eq_refl)
    as (s2 & d2 & H1 & H2 & H3 & _).
  exists s2, d2. split; [exact H1|]. split; [exact H2|]. exact H3.
Defined.

Lemma resumeCall_after_mute (c : Microphone.client) (c2 : Sip.client)
  (ts : list nat) (s : Sip.Session) (pc : Sip.PeerConnection) (now : string) :
  Microphone.localStream c = Some ts ->
  Sip.currentSession (Microphone.sip c) = Some s ->
  Sip.sessionDescriptionHandler s = Some (Sip.mkSDH (Some pc)) ->
  Sip.isOnHold s <> Some false ->
  Hold.resumeCall (Hold.Accepted now)
    (Microphone.sip (fst (Microphone.muteMicrophone c))) =
    (c2, Hold.mkReport (Return true) None) ->
  forall k t,
    k ∈ ts -> Some k ∈ Sip.senders pc ->
    Sip.tracks (Microphone.sip c) !! k = Some t ->
    Sip.kind t = Sip.audio ->
    Sip.tracks (Microphone.sip (fst (Microphone.muteMicrophone c))) !! k =
      Some (Sip.set_enabled false t) /\
    Sip.tracks c2 !! k = Some (Sip.set_enabled true t).
Proof.
  intros Hts Hs Hpc Hflag Hresume k t Hk Hsender Ht Haudio.
  assert (Sip.tracks (Microphone.sip (fst (Microphone.muteMicrophone c))) !! k =
          if bool_decide (k ∈ ts) &&
             Microphone.is_audio (Sip.tracks (Microphone.sip c)) k
          then Sip.set_enabled false <$> Sip.tracks (Microphone.sip c) !! k
          else Sip.tracks (Microphone.sip c) !! k) as Hmuted.
  { unfold Microphone.muteMicrophone, Microphone.switch. rewrite Hts. cbn.
    apply set_microphone_lookup. }
  assert (Microphone.is_audio (Sip.tracks (Microphone.sip c)) k = true) as Hk_audio.
  { unfold Microphone.is_audio. rewrite Ht. cbn. by rewrite Haudio. }
  rewrite (bool_decide_eq_true_2 _ Hk), Hk_audio, Ht in Hmuted. cbn in Hmuted.
  split; [exact Hmuted|].
  assert (Sip.currentSession
            (Microphone.sip (fst (Microphone.muteMicrophone c))) = Some s)
    as Hs'.
  { unfold Microphone.muteMicrophone, Microphone.switch. by rewrite Hts. }
  destruct (attempt_accepted false _ _ _ _ _ _ _ Hs' Hflag Hresume)
    as [Haccept _].
  destruct (onAccept_returns false "unhold" now
              (Sip.set_session
                 (Sip.send (Sip.ReInvite false)
                    (Sip.set_reinvite_hold false (Sip.set_isOnHold false s)))
                 (Microphone.sip (fst (Microphone.muteMicrophone c))))
              c2
              (Sip.send (Sip.ReInvite false)
                 (Sip.set_reinvite_hold false (Sip.set_isOnHold false s)))
              pc eq_refl Hpc Haccept)
    as (_ & _ & Hon).
  rewrite (Hon k) by (apply elem_of_app; by right).
  cbn. by rewrite Hmuted.
Qed.

(** X13. A resume that is accepted enables every sender track, so it undoes
    [muteMicrophone]: when the microphone is muted while the call is on
    hold (or before it is put on hold) and the call is then resumed, the
    tracks of the local stream that the peer connection sends are enabled
    again. *)
Theorem resume_unmutes (c : Microphone.client) (c2 : Sip.client)
  (ts : list nat) (s : Sip.Session) (pc : Sip.PeerConnection) (now : string) :
  Microphone.localStream c = Some ts ->
  Sip.currentSession (Microphone.sip c) = Some s ->
  Sip.sessionDescriptionHandler s = Some (Sip.mkSDH (Some pc)) ->
  Sip.isOnHold s <> Some false ->
  Hold.resumeCall (Hold.Accepted now)
    (Microphone.sip (fst (Microphone.muteMicrophone c))) =
    (c2, Hold.mkReport (Return true) None) ->
  forall k t,
    k ∈ ts -> Some k ∈ Sip.senders pc ->
    Sip.tracks (Microphone.sip c) !! k = Some t ->
    Sip.kind t = Sip.audio ->
    Sip.tracks (Microphone.sip (fst (Microphone.muteMicrophone c))) !! k =
      Some (Sip.set_enabled false t) /\
    Sip.tracks c2 !! k = Some (Sip.set_enabled true t).
Proof. apply resumeCall_after_mute. Qed.

Lemma resume_unmutes_witness :
  exists c2,
    fst (Hold.resumeCall (Hold.Accepted "2026-01-01T10:00:09.000Z")
           (Microphone.sip
              (fst (Microphone.muteMicrophone
                      (Microphone.mkClient Scenario.on_hold (Some [1%nat])))))) = c2 /\
    Sip.tracks c2 !! 1%nat = Some (Sip.mkTrack Sip.audio true false).
Proof.
  eexists. split; [reflexivity|].
  refine (proj2 (resume_unmutes
            (Microphone.mkClient Scenario.on_hold (Some [1%nat])) _ [1%nat]
            _ (Sip.mkPC [Some 0%nat] [Some 1%nat]) "2026-01-01T10:00:09.000Z"
            eq_refl eq_refl eq_refl ltac:(discriminate) eq_refl
            1%nat (Sip.mkTrack Sip.audio false false) _ _ eq_refl eq_refl));
    set_solver.
Defined.

(** ** Completing an attended transfer *)

Lemma transferLog_snoc (c : Sip.client) (s : Sip.Session)
  (old : list Sip.TransferRecord) (rec : Sip.TransferRecord) :
  Sip.currentSession c = Some s ->
  Transfer.transferLog c = old ++ [rec] ->
  exists d, Sip.data s = Some d /\ Sip.transfer d = Some (old ++ [rec]).
Proof.
  intros Hs. unfold Transfer.transferLog, Transfer.log. rewrite Hs. cbn.
  destruct (Sip.data s) as [d|]; cbn; [|by destruct old].
  destruct (Sip.transfer d) as [l|] eqn:Hl; cbn; [|by destruct old].
  intros ->. by exists d.
Qed.

(** X14. [completeAttendedTransfer] works on the last record of the log,
    whatever attempt appended it: it sends a REFER to the consultation leg
    and leaves the log alone; when that REFER is accepted, the last record
    is marked completed, the reason "Attended Transfer" is noted and a BYE
    is sent on the original session; when it is rejected the record is
    marked not completed and nothing is sent.  Without a session or a
    consultation leg it throws and does nothing. *)
Theorem complete_attended_transfer (c : Sip.client) (s : Sip.Session)
  (old : list Sip.TransferRecord) (rec : Sip.TransferRecord)
  (newSession : Sip.ChildSession) :
  Sip.currentSession c = Some s ->
  Transfer.transferLog c = old ++ [rec] ->
  let i := Z.of_nat (length old) in
  Transfer.completeAttendedTransfer None c =
    (c, Throw (Error "No active sessions for transfer completion")) /\
  exists c1,
    Transfer.completeAttendedTransfer (Some newSession) c = (c1, Return true) /\
    Transfer.transferLog c1 = old ++ [rec] /\
    Transfer.requests c1 =
      Transfer.requests c ++ [Sip.ReferToSession newSession i] /\
    (forall phrase t, exists c2 s2 d2,
       Transfer.completeAttendedTransfer_onAccept i phrase t c1 =
         (c2, Return tt) /\
       Transfer.transferLog c2 =
         old ++ [Transfer.set_accept true phrase t rec] /\
       Transfer.requests c2 = Transfer.requests c1 ++ [Sip.Bye] /\
       Sip.currentSession c2 = Some s2 /\ Sip.data s2 = Some d2 /\
       Sip.reasonText d2 = Some "Attended Transfer" /\
       Sip.reasonCode d2 = Some 202) /\
    (forall phrase t, exists c2,
       Transfer.completeAttendedTransfer_onReject i phrase t c1 =
         (c2, Return tt) /\
       Transfer.transferLog c2 =
         old ++ [Transfer.set_accept false phrase t rec] /\
       Transfer.requests c2 = Transfer.requests c1).
Proof.
  intros Hs Hlog i.
  destruct (transferLog_snoc c s old rec Hs Hlog) as (d & Hd & Ht).
  split.
  { unfold Transfer.completeAttendedTransfer. by rewrite Hs. }
  unfold Transfer.completeAttendedTransfer. rewrite Hs.
  unfold Transfer.last_index. rewrite Hd. cbn. rewrite Ht. cbn.
  eexists. split; [reflexivity|].
  assert (Z.of_nat (length (old ++ [rec])) - 1 = i) as ->.
  { subst i. rewrite length_app. cbn. lia. }
  subst i.
  unfold Transfer.transferLog, Transfer.requests, Transfer.log. rewrite Hs.
  cbn. rewrite Hd. cbn. rewrite Ht. cbn.
  split; [done|]. split; [done|]. split.
  - intros phrase t.
    unfold Transfer.completeAttendedTransfer_onAccept, Transfer.refer_onAccept,
      Transfer.on_session.
    cbn [Sip.currentSession Sip.set_session Sip.send Sip.data].
    rewrite ?Hd. cbn. rewrite ?Ht. cbn.
    rewrite index_nat, list_lookup_middle by done.
    rewrite Nat2Z.id, insert_app_r_alt, Nat.sub_diag by done.
    do 3 eexists. split; [reflexivity|]. cbn. done.
  - intros phrase t.
    unfold Transfer.completeAttendedTransfer_onReject, Transfer.refer_onReject,
      Transfer.on_session.
    cbn [Sip.currentSession Sip.set_session Sip.send Sip.data].
    unfold Transfer.update_record. cbn. rewrite ?Hd. cbn. rewrite ?Ht. cbn.
    rewrite index_nat, list_lookup_middle by done.
    rewrite Nat2Z.id, insert_app_r_alt, Nat.sub_diag by done.
    eexists. split; [reflexivity|]. cbn. done.
Qed.

Lemma complete_attended_transfer_witness :
  exists c1,
    fst (Transfer.completeAttendedTransfer
           (Some (Sip.mkChild (Some "sip:2002@pbx.example.com") true))
           (fst (Transfer.transferCall Scenario.makeURI (Some "3003")
                   "2026-01-01T10:01:00.000Z" Scenario.established))) = c1 /\
    Transfer.requests c1 =
      [Sip.Refer (Some "sip:3003@pbx.example.com") 0;
       Sip.ReferToSession (Sip.mkChild (Some "sip:2002@pbx.example.com") true) 0].
Proof.
  destruct (complete_attended_transfer
              (fst (Transfer.transferCall Scenario.makeURI (Some "3003")
                      "2026-01-01T10:01:00.000Z" Scenario.established))
              _ []
              (Transfer.new_record Sip.Blind "3003" "2026-01-01T10:01:00.000Z"
                 "refer")
              (Sip.mkChild (Some "sip:2002@pbx.example.com") true)
              eq_refl eq_refl)
    as (_ & c1 & Hc1 & _ & Hreq & _).
  exists c1. split; [by rewrite Hc1|]. rewrite Hreq. reflexivity.
Defined.

(** ** WAV files *)

Lemma write_at (n : nat) (p old bytes r : list Z) :
  n = length p -> length old = length bytes ->
  Wave.write n bytes (p ++ old ++ r) = Wave.Ok (p ++ bytes ++ r).
Proof.
  intros -> Hlen. unfold Wave.write.
  rewrite !length_app, Hlen.
  destruct (Nat.leb_spec (length p + length bytes)
              (length p + (length bytes + length r))) as [_|]; [|lia].
  rewrite take_app_length, drop_app_add, <- Hlen, drop_app_length.
  reflexivity.
Qed.

Lemma write_zeros (n : nat) (bytes p : list Z) (m : nat) (r : list Z) :
  n = length p ->
  Wave.write n bytes (p ++ replicate (length bytes + m) 0 ++ r) =
    Wave.Ok ((p ++ bytes) ++ replicate m 0 ++ r).
Proof.
  intros Hn. rewrite replicate_add, <- !app_assoc.
  apply write_at; [done|]. by rewrite length_replicate.
Qed.

Lemma write_zeros' (n : nat) (bytes p : list Z) (l m : nat) (r : list Z) :
  n = length p -> l = length bytes ->
  Wave.write n bytes (p ++ replicate (l + m) 0 ++ r) =
    Wave.Ok ((p ++ bytes) ++ replicate m 0 ++ r).
Proof. intros Hn ->. by apply write_zeros. Qed.

Lemma for_channels_zeros (sample16 : nat -> nat -> Z) (offset todo i : nat)
  (p r : list Z) :
  Wave.for_channels sample16 todo i offset
    (Wave.mkWriter (p ++ replicate (todo * 2) 0 ++ r) (length p)) =
  Wave.Ok
    (Wave.mkWriter
       ((p ++ flat_map (fun i => Wave.le16 (sample16 i offset)) (seq i todo))
          ++ r)
       (length p + todo * 2)).
Proof.
  revert i p. induction todo as [|todo IH]; intros i p.
  - cbn. by rewrite app_nil_r, Nat.add_0_r.
  - cbn [Wave.for_channels Wave.pos Wave.view]. unfold Wave.setInt16.
    replace (S todo * 2)%nat with (length (Wave.le16 (sample16 i offset))
                                   + todo * 2)%nat by (cbn; lia).
    rewrite write_zeros by done. cbn [Wave.bind].
    replace (length p + 2)%nat
      with (length (p ++ Wave.le16 (sample16 i offset)))
      by (rewrite length_app; cbn; lia).
    rewrite IH. cbn [seq flat_map]. rewrite length_app.
    rewrite <- !app_assoc. do 2 f_equal. cbn. lia.
Qed.

Lemma frame_length (f : nat -> Z) (i n : nat) :
  length (flat_map (fun i => Wave.le16 (f i)) (seq i n)) = (n * 2)%nat.
Proof.
  revert i. induction n as [|n IH]; intros i; [done|].
  cbn [seq flat_map]. rewrite length_app, IH. cbn [Wave.le16 length]. lia.
Qed.

Lemma interleaved_no_channel (sample16 : nat -> nat -> Z) (offset len : nat) :
  flat_map
    (fun offset => flat_map (fun i => Wave.le16 (sample16 i offset)) (seq 0 0))
    (seq offset len) = [].
Proof. revert offset. induction len as [|len IH]; intros offset; [done|]. cbn. apply IH. Qed.

Lemma while_pos_zeros (sample16 : nat -> nat -> Z) (numOfChan : nat)
  (rem fuel total offset : nat) (p : list Z) :
  (rem <= fuel)%nat ->
  total = (length p + rem * numOfChan * 2)%nat ->
  Wave.while_pos sample16 fuel numOfChan total offset
    (Wave.mkWriter (p ++ replicate (rem * numOfChan * 2) 0) (length p)) =
  Wave.Ok
    (Wave.mkWriter
       (p ++ flat_map
               (fun offset =>
                  flat_map (fun i => Wave.le16 (sample16 i offset))
                    (seq 0 numOfChan))
               (seq offset rem))
       total).
Proof.
  destruct numOfChan as [|c].
  { intros _ ->. rewrite interleaved_no_channel, Nat.mul_0_r. cbn [replicate Nat.mul].
    rewrite Nat.add_0_r.
    destruct fuel; cbn [Wave.while_pos Wave.pos]; by rewrite Nat.ltb_irrefl. }
  revert fuel offset p.
  induction rem as [|rem IH]; intros fuel offset p Hfuel Htotal.
  - cbn [Nat.mul replicate seq flat_map]. cbn [Nat.mul] in Htotal.
    rewrite Nat.add_0_r in Htotal. subst total.
    destruct fuel; cbn [Wave.while_pos Wave.pos]; by rewrite Nat.ltb_irrefl.
  - destruct fuel as [|fuel]; [lia|].
    cbn [Wave.while_pos Wave.pos].
    rewrite (proj2 (Nat.ltb_lt _ _)) by lia.
    replace (S rem * S c * 2)%nat with (S c * 2 + rem * S c * 2)%nat by lia.
    rewrite replicate_add.
    rewrite for_channels_zeros. cbn [Wave.bind].
    set (frame := flat_map (fun i => Wave.le16 (sample16 i offset)) (seq 0 (S c))).
    assert (length frame = (S c * 2)%nat) as Hframe.
    { subst frame. apply frame_length. }
    replace (length p + S c * 2)%nat with (length (p ++ frame))
      by (rewrite length_app; lia).
    rewrite (IH fuel (S offset) (p ++ frame)); [|lia|rewrite length_app; lia].
    cbn [seq flat_map]. fold frame. by rewrite <- app_assoc.
Qed.

Lemma frames_length (sample16 : nat -> nat -> Z) (numOfChan offset len : nat) :
  length
    (flat_map
       (fun offset =>
          flat_map (fun i => Wave.le16 (sample16 i offset)) (seq 0 numOfChan))
       (seq offset len)) = (len * numOfChan * 2)%nat.
Proof.
  revert offset. induction len as [|len IH]; intros offset; [done|].
  cbn [seq flat_map]. rewrite length_app, IH, frame_length. lia.
Qed.

Lemma interleaved_length (sample16 : nat -> nat -> Z) (numOfChan len : nat) :
  length (Wave.interleaved sample16 numOfChan len) = (len * numOfChan * 2)%nat.
Proof. apply frames_length. Qed.

Lemma le32_value (v : Z) :
  v mod 256 + 256 * (v / 256 mod 256) + 65536 * (v / 65536 mod 256) +
  16777216 * (v / 16777216 mod 256) = v mod 2 ^ 32.
Proof.
  change (2 ^ 32) with 4294967296.
  Z.div_mod_to_equations. lia.
Qed.

(** Writing into the zeros that are left, at the end of what has been
    written. *)
Ltac put_step :=
  match goal with
  | |- context [Wave.write ?o ?bs (?p ++ replicate ?k 0 ++ ?r)] =>
      let l := eval cbv [length Wave.le32 Wave.le16] in (length bs) in
      let m := eval cbv in (k - l)%nat in
      change (replicate k 0) with (replicate (l + m) 0);
      rewrite (write_zeros' o bs p l m r eq_refl eq_refl);
      cbn [Wave.bind Wave.pos Wave.view]
  end.

Lemma bufferToWave_closed (sample16 : nat -> nat -> Z) (numOfChan : nat)
  (sampleRate : Z) (len fuel : nat) :
  (len <= fuel)%nat ->
  Wave.bufferToWave sample16 numOfChan sampleRate len fuel =
  Wave.Ok
    (Wave.header (Z.of_nat numOfChan) sampleRate
       (Z.of_nat (len * numOfChan * 2)) ++
     Wave.interleaved sample16 numOfChan len).
Proof.
  intros Hfuel. unfold Wave.bufferToWave. cbv zeta.
  set (n := (len * numOfChan * 2)%nat).
  assert (Wave.ArrayBuffer (n + 44) = [] ++ replicate 44 0 ++ replicate n 0)
    as ->.
  { unfold Wave.ArrayBuffer. rewrite Nat.add_comm. apply replicate_add. }
  unfold Wave.put32, Wave.put16, Wave.setUint32, Wave.setUint16.
  cbn [Wave.pos Wave.view].
  do 13 put_step.
  match goal with
  | |- context [Wave.mkWriter (?P ++ replicate 0 0 ++ replicate n 0) ?q] =>
      change (Wave.mkWriter (P ++ replicate 0 0 ++ replicate n 0) q)
        with (Wave.mkWriter (P ++ replicate (len * numOfChan * 2) 0) (length P));
      rewrite (while_pos_zeros sample16 numOfChan len fuel (n + 44) 0 P Hfuel)
        by (cbn [length app Wave.le32 Wave.le16]; lia)
  end.
  cbn [Wave.bind Wave.view]. f_equal. unfold Wave.interleaved. f_equal.
  replace (Z.of_nat (n + 44) - 8) with (36 + Z.of_nat n) by lia.
  replace (Z.of_nat (n + 44) -
           Z.of_nat (0 + 4 + 4 + 4 + 4 + 4 + 2 + 2 + 4 + 4 + 2 + 2 + 4) - 4)
    with (Z.of_nat n) by lia.
  replace (sampleRate * 2 * Z.of_nat numOfChan)
    with (sampleRate * Z.of_nat numOfChan * 2) by lia.
  reflexivity.
Qed.

Lemma for_samples_zeros (sample16 : nat -> Z) (todo i : nat) (p : list Z) :
  Wave.for_samples sample16 todo i (length p) (p ++ replicate (todo * 2) 0) =
  Wave.Ok (p ++ flat_map (fun i => Wave.le16 (sample16 i)) (seq i todo)).
Proof.
  revert i p. induction todo as [|todo IH]; intros i p; [done|].
  cbn [Wave.for_samples]. unfold Wave.setInt16.
  replace (p ++ replicate (S todo * 2) 0)
    with (p ++ replicate (2 + todo * 2) 0 ++ []) by by rewrite app_nil_r.
  rewrite (write_zeros' (length p) (Wave.le16 (sample16 i)) p 2 (todo * 2) []
             eq_refl eq_refl).
  cbn [Wave.bind]. rewrite app_nil_r.
  replace (length p + 2)%nat with (length (p ++ Wave.le16 (sample16 i)))
    by (rewrite length_app; cbn; lia).
  rewrite IH. cbn [seq flat_map]. by rewrite <- app_assoc.
Qed.

Ltac put_string :=
  cbn [Wave.writeString_loop Wave.bind];
  unfold Wave.setUint8 at 1; put_step.

Lemma encodeWAV_closed (sample16 : nat -> Z) (len : nat) :
  Wave.encodeWAV sample16 len =
  Wave.Ok
    (Wave.header 1 44100 (Z.of_nat (len * 2)) ++
     flat_map (fun i => Wave.le16 (sample16 i)) (seq 0 len)).
Proof.
  unfold Wave.encodeWAV. cbv zeta.
  assert (Wave.ArrayBuffer (44 + len * 2) =
          [] ++ replicate 44 0 ++ replicate (len * 2) 0) as ->.
  { unfold Wave.ArrayBuffer. apply replicate_add. }
  unfold Wave.writeString, Wave.charCodes, Wave.setUint32, Wave.setUint16.
  cbn [list_ascii_of_string map].
  do 4 put_string. put_step.
  do 4 put_string. do 4 put_string. do 7 put_step.
  do 4 put_string. put_step.
  cbn [Wave.writeString_loop Wave.bind].
  match goal with
  | |- Wave.for_samples _ _ _ ?o (?P ++ replicate 0 0 ++ ?r) = _ =>
      change (Wave.for_samples sample16 len 0 o (P ++ replicate 0 0 ++ r))
        with (Wave.for_samples sample16 len 0 (length P)
                (P ++ replicate (len * 2) 0));
      rewrite (for_samples_zeros sample16 len 0 P)
  end.
  do 2 f_equal.
  replace (36 + Z.of_nat len * 2) with (36 + Z.of_nat (len * 2)) by lia.
  replace (Z.of_nat len * 2) with (Z.of_nat (len * 2)) by lia.
  reflexivity.
Qed.

(** X15. [bufferToWave] never writes outside its buffer and its loop ends:
    with fuel for [len] rounds it returns a file, which is the 44 bytes
    of a PCM header followed by the samples, frame after frame and in
    each frame channel after channel.  The sizes in the header are those
    of the file: the RIFF size is the length of the file less 8 and the
    data size is the number of bytes after the header, both as 32-bit
    numbers. *)
Theorem bufferToWave_file (sample16 : nat -> nat -> Z) (numOfChan : nat)
  (sampleRate : Z) (len fuel : nat) :
  (len <= fuel)%nat ->
  let data := Wave.interleaved sample16 numOfChan len in
  exists bytes,
    Wave.bufferToWave sample16 numOfChan sampleRate len fuel = Wave.Ok bytes /\
    bytes =
      Wave.header (Z.of_nat numOfChan) sampleRate (Z.of_nat (length data)) ++
      data /\
    length bytes = (44 + len * numOfChan * 2)%nat /\
    length data = (len * numOfChan * 2)%nat /\
    Wave.getUint32 4 bytes = Some ((Z.of_nat (length bytes) - 8) mod 2 ^ 32) /\
    Wave.getUint32 40 bytes = Some (Z.of_nat (length data) mod 2 ^ 32).
Proof.
  intros Hfuel data.
  pose proof (interleaved_length sample16 numOfChan len) as Hdata.
  fold data in Hdata.
  set (bytes := Wave.header (Z.of_nat numOfChan) sampleRate
                  (Z.of_nat (length data)) ++ data).
  assert (length bytes = (44 + length data)%nat) as Hlen.
  { subst bytes. by rewrite length_app. }
  exists bytes. split.
  { rewrite bufferToWave_closed by done. subst bytes. by rewrite Hdata. }
  split; [done|]. split; [lia|]. split; [done|]. rewrite Hlen.
  subst bytes. unfold Wave.getUint32, Wave.header, Wave.charCodes.
  cbn [list_ascii_of_string map app Wave.le32 Wave.le16 drop take].
  rewrite !le32_value. split; f_equal; f_equal; lia.
Qed.

Lemma bufferToWave_file_witness :
  exists bytes,
    Wave.bufferToWave (fun i offset => Z.of_nat offset - 1) 2 8000 3 3 =
      Wave.Ok bytes /\
    length bytes = 56%nat.
Proof.
  destruct (bufferToWave_file (fun i offset => Z.of_nat offset - 1) 2 8000 3 3)
    as (bytes & H & _ & Hlen & _); [lia|].
  exists bytes. split; [exact H | exact Hlen].
Defined.

(** X16. [encodeWAV] never writes outside its buffer, and what it returns
    for a buffer of samples is, byte for byte, what [bufferToWave]
    returns for the same samples as the one channel of a buffer at
    44100 Hz. *)
Theorem encodeWAV_is_mono_bufferToWave (sample16 : nat -> nat -> Z)
  (len fuel : nat) :
  (len <= fuel)%nat ->
  exists bytes,
    Wave.encodeWAV (sample16 0%nat) len = Wave.Ok bytes /\
    Wave.bufferToWave sample16 1 44100 len fuel = Wave.Ok bytes /\
    length bytes = (44 + len * 2)%nat.
Proof.
  intros Hfuel. eexists. split; [apply encodeWAV_closed|].
  rewrite bufferToWave_closed by done. split.
  - replace (len * 1 * 2)%nat with (len * 2)%nat by lia. reflexivity.
  - rewrite length_app, frame_length. cbn. lia.
Qed.

Lemma encodeWAV_is_mono_bufferToWave_witness :
  exists bytes,
    Wave.encodeWAV (fun offset => 256 * Z.of_nat offset - 3) 2 = Wave.Ok bytes /\
    Wave.bufferToWave (fun i offset => 256 * Z.of_nat offset - 3) 1 44100 2 5 =
      Wave.Ok bytes.
Proof.
  destruct (encodeWAV_is_mono_bufferToWave
              (fun i offset => 256 * Z.of_nat offset - 3) 2 5)
    as (bytes & H1 & H2 & _); [lia|].
  exists bytes. split; [exact H1 | exact H2].
Defined.

(** ** Errors and the retries of the registration *)

Lemma failing_add (a b : nat) (error : JsError) (now : Z) (l : Errors.loop) :
  Errors.failing (a + b) error now l =
  Errors.failing b error now (Errors.failing a error now l).
Proof. revert l. induction a as [|a IH]; intros l; [done|]. cbn. apply IH. Qed.

Lemma failing_snoc (n : nat) (error : JsError) (now : Z) (l : Errors.loop) :
  Errors.failing (S n) error now l =
  Errors.fire (Some error) now (Errors.failing n error now l).
Proof.
  replace (S n) with (n + 1)%nat by lia. by rewrite failing_add.
Qed.

Lemma failing_idle (n : nat) (error : JsError) (now : Z) (l : Errors.loop) :
  Errors.pending l = [] -> Errors.failing n error now l = l.
Proof.
  intros H. induction n as [|n IH]; [done|].
  cbn. unfold Errors.fire. by rewrite H.
Qed.

(** The timers that a chain of [k] retries arms. *)
Lemma backoff_snoc (d : Z) (context : string) (k : nat) :
  map (fun i => (d * 2 ^ Z.of_nat i, context)) (seq 0 (S k)) =
  map (fun i => (d * 2 ^ Z.of_nat i, context)) (seq 0 k) ++
  [(d * 2 ^ Z.of_nat k, context)].
Proof. by rewrite seq_S, map_app. Qed.

Lemma pending_last (T A : list (Z * string)) (x : Z * string) (k : nat) :
  length A = k ->
  drop (length T + k) (T ++ A ++ [x]) = [x].
Proof. intros <-. by rewrite drop_app_add, drop_app_length. Qed.

Lemma chain_step (error : JsError) (now : Z) (trk : Tracking.state)
  (tn : Tones.state) (M d : Z) (T : list (Z * string)) (j : nat) :
  Errors.isRetryableError error = true ->
  Errors.isCriticalError error = false ->
  Z.of_nat j < M ->
  Errors.failing j error now
    (Errors.mkLoop
       (Errors.handleError error "registration" now
          (Errors.mkClient trk (Retry.mkState 0 M d T) tn))
       (length T)) =
  Errors.mkLoop
    (Errors.mkClient trk
       (Retry.mkState (Z.of_nat j + 1) M d
          (T ++ map (fun i => (d * 2 ^ Z.of_nat i, "registration"))
                  (seq 0 (S j))))
       tn)
    (length T + j).
Proof.
  intros Hr Hc. induction j as [|j IH]; intros Hj.
  - cbn [Errors.failing]. unfold Errors.handleError. rewrite Hr, Hc.
    unfold Errors.scheduleRetry. cbn [Errors.retries Errors.tracking Errors.tones].
    rewrite scheduleRetry_below by (cbn; lia). cbn. by rewrite Nat.add_0_r.
  - replace (S j) with (j + 1)%nat at 1 by lia.
    rewrite failing_add, IH by lia. cbn [Errors.failing].
    unfold Errors.fire, Errors.pending.
    cbn [Errors.fired Errors.current Errors.retries Retry.timers].
    rewrite backoff_snoc, pending_last
      by (by rewrite length_map, length_seq).
    unfold Errors.retry. rewrite decide_True by done.
    unfold Errors.handleError. rewrite Hr, Hc.
    unfold Errors.scheduleRetry. cbn [Errors.retries Errors.tracking Errors.tones].
    rewrite scheduleRetry_below by (cbn; lia). cbn [Retry.retryCount
      Retry.maxRetries Retry.retryDelay Retry.timers].
    rewrite (backoff_snoc d "registration" (S j)).
    rewrite (backoff_snoc d "registration" j), <- !app_assoc.
    replace (Z.of_nat (S j)) with (Z.of_nat j + 1) by lia.
    by replace (length T + S j)%nat with (S (length T + j)) by lia.
Qed.

Lemma chain_end (error : JsError) (now : Z) (trk : Tracking.state)
  (tn : Tones.state) (M d : Z) (T : list (Z * string)) :
  Errors.isRetryableError error = true ->
  Errors.isCriticalError error = false ->
  0 <= M ->
  Errors.failing (Z.to_nat M) error now
    (Errors.mkLoop
       (Errors.handleError error "registration" now
          (Errors.mkClient trk (Retry.mkState 0 M d T) tn))
       (length T)) =
  Errors.mkLoop
    (Errors.mkClient trk
       (Retry.mkState 0 M d
          (T ++ map (fun i => (d * 2 ^ Z.of_nat i, "registration"))
                  (seq 0 (Z.to_nat M))))
       tn)
    (length T + Z.to_nat M).
Proof.
  intros Hr Hc HM. destruct (Z.to_nat M) as [|j] eqn:Hm.
  - cbn [Errors.failing seq map]. unfold Errors.handleError. rewrite Hr, Hc.
    unfold Errors.scheduleRetry.
    cbn [Errors.retries Errors.tracking Errors.tones].
    rewrite scheduleRetry_exhausted by (cbn; lia). cbn.
    by rewrite app_nil_r, Nat.add_0_r.
  - replace (S j) with (j + 1)%nat at 1 by lia.
    rewrite failing_add, chain_step by (done || lia). cbn [Errors.failing].
    unfold Errors.fire, Errors.pending.
    cbn [Errors.fired Errors.current Errors.retries Retry.timers].
    rewrite backoff_snoc, pending_last
      by (by rewrite length_map, length_seq).
    unfold Errors.retry. rewrite decide_True by done.
    unfold Errors.handleError. rewrite Hr, Hc.
    unfold Errors.scheduleRetry.
    cbn [Errors.retries Errors.tracking Errors.tones].
    rewrite scheduleRetry_exhausted by (cbn; lia).
    cbn [Retry.retryCount Retry.maxRetries Retry.retryDelay Retry.timers].
    by replace (length T + S j)%nat with (S (length T + j)) by lia.
Qed.

(** X17. When the registration keeps failing with an error that is retryable
    and not critical, the retries come to an end: from a counter at zero
    and no timer waiting, exactly [maxRetries] attempts are made, after
    [retryDelay], twice that, and so on; the failure of the last one arms
    nothing and sets the counter back to zero, and from then on no timer
    is left, however long one waits.  Tones and call state are not
    touched. *)
Theorem retry_chain_ends (error : JsError) (now : Z) (c : Errors.client)
  (n : nat) :
  Errors.isRetryableError error = true ->
  Errors.isCriticalError error = false ->
  Retry.retryCount (Errors.retries c) = 0 ->
  0 <= Retry.maxRetries (Errors.retries c) ->
  (Z.to_nat (Retry.maxRetries (Errors.retries c)) <= n)%nat ->
  let attempts := Z.to_nat (Retry.maxRetries (Errors.retries c)) in
  let before := Retry.timers (Errors.retries c) in
  let l :=
    Errors.failing n error now
      (Errors.mkLoop (Errors.handleError error "registration" now c)
         (length before)) in
  Errors.pending l = [] /\
  Errors.fired l = (length before + attempts)%nat /\
  Retry.retryCount (Errors.retries (Errors.current l)) = 0 /\
  Retry.timers (Errors.retries (Errors.current l)) =
    before ++
    map (fun i => (Retry.retryDelay (Errors.retries c) * 2 ^ Z.of_nat i,
                   "registration"))
      (seq 0 attempts) /\
  Errors.tracking (Errors.current l) = Errors.tracking c /\
  Errors.tones (Errors.current l) = Errors.tones c.
Proof.
  destruct c as [trk [cnt M d T] tn]. cbn [Errors.retries Retry.retryCount
    Retry.maxRetries Retry.retryDelay Retry.timers Errors.tracking Errors.tones].
  intros Hr Hc -> HM Hn. cbv zeta.
  replace n with (Z.to_nat M + (n - Z.to_nat M))%nat by lia.
  rewrite failing_add, chain_end by done.
  assert (Errors.pending
            (Errors.mkLoop
               (Errors.mkClient trk
                  (Retry.mkState 0 M d
                     (T ++ map (fun i => (d * 2 ^ Z.of_nat i, "registration"))
                             (seq 0 (Z.to_nat M))))
                  tn)
               (length T + Z.to_nat M)) = []) as Hidle.
  { unfold Errors.pending. cbn. apply drop_ge.
    rewrite length_app, length_map, length_seq. lia. }
  rewrite failing_idle by exact Hidle. by rewrite Hidle.
Qed.

Lemma retry_chain_ends_witness :
  Retry.timers
    (Errors.retries
       (Errors.current
          (Errors.failing 10 (Error "Network error") 5000
             (Errors.mkLoop
                (Errors.handleError (Error "Network error") "registration" 5000
                   (Errors.mkClient Tracking.constructor Retry.constructor
                      Tones.initCallTones))
                0)))) =
  [(1000, "registration"); (2000, "registration"); (4000, "registration")].
Proof.
  destruct (retry_chain_ends (Error "Network error") 5000
              (Errors.mkClient Tracking.constructor Retry.constructor
                 Tones.initCallTones)
              10 eq_refl eq_refl eq_refl)
    as (_ & _ & _ & H & _); [cbn; lia | cbn; lia |].
  exact H.
Defined.

Lemma critical_step (error : JsError) (now : Z) (c : Errors.client) :
  Errors.isRetryableError error = true ->
  Errors.isCriticalError error = true ->
  0 < Retry.maxRetries (Errors.retries c) ->
  let c' := Errors.handleError error "registration" now c in
  Retry.retryCount (Errors.retries c') = 1 /\
  Retry.maxRetries (Errors.retries c') = Retry.maxRetries (Errors.retries c) /\
  Retry.retryDelay (Errors.retries c') = Retry.retryDelay (Errors.retries c) /\
  Retry.timers (Errors.retries c') =
    Retry.timers (Errors.retries c) ++
    [(Retry.retryDelay (Errors.retries c), "registration")] /\
  Tracking.callState (Errors.tracking c') = Outbound.idle /\
  Tracking.callStartTime (Errors.tracking c') = None /\
  Tracking.callDuration (Errors.tracking c') = 0 /\
  Tones.playing_count (Errors.tones c') = 0%nat.
Proof.
  intros Hr Hc HM. cbv zeta. unfold Errors.handleError. rewrite Hr, Hc.
  unfold Errors.scheduleRetry, Errors.cleanup, Errors.updateCallState.
  cbn [Errors.retries Errors.tracking Errors.tones].
  rewrite scheduleRetry_below by (cbn; lia). cbn.
  rewrite Z.mul_1_r. by repeat split.
Qed.

(** X18. An error that is both critical and retryable never lets the retries
    end: each failure first resets the counter ([cleanup]) and then arms
    a timer, so however many attempts have failed, one more timer waits,
    always with the first delay, [retryDelay]; the back-off never grows.
    The client is idle then, with no tone playing. *)
Theorem critical_retryable_error_retries_for_ever (error : JsError) (now : Z)
  (c : Errors.client) (n : nat) :
  Errors.isRetryableError error = true ->
  Errors.isCriticalError error = true ->
  0 < Retry.maxRetries (Errors.retries c) ->
  let before := Retry.timers (Errors.retries c) in
  let l :=
    Errors.failing n error now
      (Errors.mkLoop (Errors.handleError error "registration" now c)
         (length before)) in
  Errors.pending l = [(Retry.retryDelay (Errors.retries c), "registration")] /\
  Errors.fired l = (length before + n)%nat /\
  Retry.timers (Errors.retries (Errors.current l)) =
    before ++
    replicate (S n) (Retry.retryDelay (Errors.retries c), "registration") /\
  Tracking.callState (Errors.tracking (Errors.current l)) = Outbound.idle /\
  Tones.playing_count (Errors.tones (Errors.current l)) = 0%nat.
Proof.
  intros Hr Hc HM before l. subst l.
  set (x := (Retry.retryDelay (Errors.retries c), "registration")).
  set (start := Errors.mkLoop (Errors.handleError error "registration" now c)
                  (length before)).
  assert (Errors.fired (Errors.failing n error now start) =
            (length before + n)%nat /\
          Retry.timers (Errors.retries
                          (Errors.current (Errors.failing n error now start))) =
            before ++ replicate n x ++ [x] /\
          Retry.maxRetries (Errors.retries
                          (Errors.current (Errors.failing n error now start))) =
            Retry.maxRetries (Errors.retries c) /\
          Retry.retryDelay (Errors.retries
                          (Errors.current (Errors.failing n error now start))) =
            Retry.retryDelay (Errors.retries c) /\
          Tracking.callState
            (Errors.tracking
               (Errors.current (Errors.failing n error now start))) =
            Outbound.idle /\
          Tones.playing_count
            (Errors.tones
               (Errors.current (Errors.failing n error now start))) = 0%nat)
    as H.
  { induction n as [|n IH].
    - cbn [Errors.failing replicate app]. subst start.
      cbn [Errors.fired Errors.current].
      destruct (critical_step error now c Hr Hc HM)
        as (_ & Hm & Hd & Ht & Hs & _ & _ & Hp).
      rewrite Nat.add_0_r. by repeat split.
    - rewrite failing_snoc.
      set (l := Errors.failing n error now start) in *.
      destruct IH as (Hf & Ht & Hm & Hd & _).
      unfold Errors.fire, Errors.pending.
      rewrite Hf, Ht.
      rewrite pending_last by apply length_replicate.
      unfold x. unfold Errors.retry. rewrite decide_True by done.
      cbn [Errors.fired Errors.current].
      destruct (critical_step error now (Errors.current l) Hr Hc)
        as (_ & Hm' & Hd' & Ht' & Hs' & _ & _ & Hp'); [lia|].
      rewrite Ht', Ht, Hd, Hm', Hd', Hm.
      split; [lia|]. rewrite <- !app_assoc.
      replace (S n) with (n + 1)%nat by lia. rewrite replicate_add.
      cbn [replicate]. rewrite <- !app_assoc. by repeat split. }
  destruct H as (Hf & Ht & _ & _ & Hs & Hp).
  unfold Errors.pending. rewrite Hf, Ht.
  rewrite pending_last by apply length_replicate.
  split; [done|]. split; [done|]. split; [|done].
  replace (S n) with (n + 1)%nat by lia. by rewrite replicate_add.
Qed.

Lemma critical_retryable_error_retries_for_ever_witness :
  Errors.pending
    (Errors.failing 20 (Error "Not registered: Network error") 5000
       (Errors.mkLoop
          (Errors.handleError (Error "Not registered: Network error")
             "registration" 5000
             (Errors.mkClient Tracking.constructor Retry.constructor
                Tones.initCallTones))
          0)) = [(1000, "registration")].
Proof.
  destruct (critical_retryable_error_retries_for_ever
              (Error "Not registered: Network error") 5000
              (Errors.mkClient Tracking.constructor Retry.constructor
                 Tones.initCallTones)
              20 eq_refl eq_refl)
    as (H & _); [cbn; lia|].
  exact H.
Defined.

(** ** The Call-ID of the call *)

Lemma truthy_Some (v : option string) :
  CallId.truthy v = true -> v <> None /\ v <> Some "".
Proof.
  destruct v as [s|]; [|done]. cbn. case_bool_decide; [done|].
  intros _. split; [done|]. by intros [= ->].
Qed.

Lemma store_kept (v : option string) (c : CallId.client) :
  CallId.sipCallId (CallId.store v c) = CallId.sipCallId c \/
  CallId.truthy (CallId.sipCallId (CallId.store v c)) = true.
Proof.
  unfold CallId.store. destruct (CallId.truthy v) eqn:E; [by right|by left].
Qed.

Lemma onCallEstablished_kept (trim : string -> string) (s : CallId.Session)
  (c : CallId.client) :
  CallId.sipCallId (CallId.onCallEstablished trim s c) = CallId.sipCallId c \/
  CallId.truthy (CallId.sipCallId (CallId.onCallEstablished trim s c)) = true.
Proof.
  unfold CallId.onCallEstablished.
  destruct (CallId.peerConnection s); [|by left].
  destruct (match CallId.dialog s ≫= CallId.dialog_request with
            | Some r => _ | None => _ end) as [confirmed|]; [|by left].
  cbv zeta.
  match goal with
  | |- context [CallId.set_sipCallId ?v c] => set (final := v)
  end.
  destruct (CallId.truthy final) eqn:E; cbn [andb]; [|by left].
  destruct (negb (bool_decide (final = CallId.sipCallId c))); [by right|].
  destruct (negb (CallId.truthy (CallId.sipCallId c))); [by right|by left].
Qed.

Lemma onCallTerminated_kept (s : CallId.Session) (c : CallId.client) :
  (CallId.sipCallId (CallId.onCallTerminated s c).1 = CallId.sipCallId c \/
   CallId.truthy (CallId.sipCallId (CallId.onCallTerminated s c).1) = true) /\
  (CallId.truthy (CallId.sipCallId c) = true ->
   CallId.sipCallId (CallId.onCallTerminated s c).1 = CallId.sipCallId c).
Proof.
  unfold CallId.onCallTerminated. cbv zeta. cbn [fst].
  match goal with
  | |- context [CallId.set_sipCallId ?v c] => set (final := v)
  end.
  destruct (CallId.truthy final) eqn:E; cbn [andb].
  - destruct (CallId.truthy (CallId.sipCallId c)) eqn:E'; cbn [negb].
    + by split; [left|].
    + by split; [right|].
  - by split; [left|].
Qed.

Lemma handle_kept (trim : string -> string) (e : CallId.event)
  (c : CallId.client) :
  CallId.sipCallId (CallId.handle trim e c) = CallId.sipCallId c \/
  CallId.truthy (CallId.sipCallId (CallId.handle trim e c)) = true.
Proof.
  destruct e as [s|allowed s|s|s]; cbn [CallId.handle].
  - unfold CallId.makeCall_stored. cbv zeta.
    match goal with |- context [CallId.store ?v ?c0] =>
      apply (store_kept v c0) end.
  - unfold CallId.handleIncomingCall. cbv zeta. cbn [CallId.sipCallId].
    match goal with |- context [CallId.store ?v ?c0] =>
      apply (store_kept v c0) end.
  - apply onCallEstablished_kept.
  - apply onCallTerminated_kept.
Qed.

Lemma run_kept (trim : string -> string) (es : list CallId.event)
  (c : CallId.client) :
  CallId.sipCallId (CallId.run trim es c) = CallId.sipCallId c \/
  CallId.truthy (CallId.sipCallId (CallId.run trim es c)) = true.
Proof.
  revert c. induction es as [|e es IH]; intros c; [by left|].
  change (CallId.run trim (e :: es) c)
    with (CallId.run trim es (CallId.handle trim e c)).
  destruct (IH (CallId.handle trim e c)) as [H|H]; [|by right].
  rewrite H. apply handle_kept.
Qed.

Lemma or_truthy (a b : option string) :
  CallId.or a (CallId.or b None) <> Some "".
Proof.
  unfold CallId.or. destruct (CallId.truthy a) eqn:Ea.
  - by apply truthy_Some.
  - destruct (CallId.truthy b) eqn:Eb; [by apply truthy_Some|done].
Qed.

(** X19. The Call-ID that the client keeps is never the empty string, and
    once a call has set it no later event clears it: not a new outgoing
    or incoming call, not the establishment and not the end of a call.
    At the end of a call the stored Call-ID is left alone if there is
    one, what is reported to the server is never the empty string, and
    when the request of the session that ended shows no Call-ID it is the
    stored one that is reported.  A session that carries no identifier
    at all changes nothing, so the call is known under the Call-ID of
    the call before; and at the establishment of a call a session
    without a peer connection changes nothing, whatever it carries. *)
Theorem call_id_is_kept (trim : string -> string)
  (es es' : list CallId.event) :
  let c := CallId.run trim es CallId.constructor in
  let c' := CallId.run trim es' c in
  let bare connected := CallId.mkSession None None None None connected in
  CallId.sipCallId c <> Some "" /\
  (CallId.sipCallId c <> None -> CallId.sipCallId c' <> None) /\
  (forall session,
     let ended := CallId.onCallTerminated session c in
     ended.2 <> Some "" /\
     (CallId.sipCallId c <> None ->
      CallId.sipCallId ended.1 = CallId.sipCallId c /\
      (CallId.header (CallId.request session) = None ->
       ended.2 = CallId.sipCallId c))) /\
  (forall allowed connected,
     CallId.sipCallId (CallId.makeCall_stored (bare connected) c) =
       CallId.sipCallId c /\
     CallId.sipCallId
       (CallId.handleIncomingCall trim allowed (bare connected) c) =
       CallId.sipCallId c /\
     CallId.onCallEstablished trim (bare connected) c = c /\
     CallId.onCallTerminated (bare connected) c = (c, CallId.sipCallId c)) /\
  (forall session,
     CallId.peerConnection session = false ->
     CallId.onCallEstablished trim session c = c).
Proof.
  intros c c' bare.
  assert (CallId.sipCallId c <> Some "") as Hne.
  { destruct (run_kept trim es CallId.constructor) as [H|H].
    - fold c in H. by rewrite H.
    - by apply truthy_Some. }
  assert (CallId.sipCallId c <> None -> CallId.truthy (CallId.sipCallId c) = true)
    as Htruthy.
  { destruct (CallId.sipCallId c) as [s|]; [|done]. intros _. cbn.
    case_bool_decide; [by subst|done]. }
  split; [done|]. split.
  { intros Hset. destruct (run_kept trim es' c) as [H|H].
    - fold c' in H. by rewrite H.
    - by apply truthy_Some. }
  split.
  { intros session ended. split.
    - subst ended. unfold CallId.onCallTerminated. cbv zeta. cbn [snd].
      destruct (CallId.truthy (CallId.header (CallId.request session))) eqn:E;
        cbn [negb].
      + rewrite E. cbn [negb]. by apply truthy_Some.
      + cbn [CallId.truthy negb]. apply or_truthy.
    - intros Hset. specialize (Htruthy Hset). split.
      + by apply onCallTerminated_kept.
      + intros Hh. subst ended. unfold CallId.onCallTerminated. cbv zeta.
        cbn [snd]. rewrite Hh. cbn [CallId.truthy negb].
        unfold CallId.or at 1. by rewrite Htruthy. }
  split; [|intros session Hpc; unfold CallId.onCallEstablished;
            by rewrite Hpc].
  intros allowed connected. subst bare. cbv beta.
  destruct (CallId.truthy (CallId.sipCallId c)) eqn:E.
  - unfold CallId.onCallEstablished, CallId.onCallTerminated, CallId.or.
    destruct connected; cbn; rewrite E; cbn; rewrite ?E; cbn;
      by rewrite ?bool_decide_eq_true_2 by done.
  - unfold CallId.onCallEstablished, CallId.onCallTerminated, CallId.or.
    destruct connected; cbn; rewrite E; cbn;
      (destruct (CallId.sipCallId c) as [s|] eqn:Es; [|done]);
      exfalso; cbn in E; case_bool_decide; [by subst|done|by subst|done].
Qed.

Lemma call_id_is_kept_witness :
  CallId.sipCallId
    (CallId.run (fun s => s)
       [CallId.Terminated (CallId.mkSession None None None None true);
        CallId.Outgoing (CallId.mkSession None None None None true)]
       (CallId.run (fun s => s)
          [CallId.Outgoing
             (CallId.mkSession None
                (Some (CallId.mkRequest
                         (Some (CallId.mkMessage (Some "a84b4c76e66710")))
                         None))
                None (Some "a84b4c76e66710x1") true)]
          CallId.constructor)) <> None.
Proof.
  destruct (call_id_is_kept (fun s => s)
              [CallId.Outgoing
                 (CallId.mkSession None
                    (Some (CallId.mkRequest
                             (Some (CallId.mkMessage (Some "a84b4c76e66710")))
                             None))
                    None (Some "a84b4c76e66710x1") true)]
              [CallId.Terminated (CallId.mkSession None None None None true);
               CallId.Outgoing (CallId.mkSession None None None None true)])
    as (_ & H & _).
  apply H. discriminate.
Defined.

(** ** Ending a call *)

Lemma teardown_run_snoc (ops : list Teardown.op) (o : Teardown.op)
  (c : Teardown.client) :
  Teardown.run (ops ++ [o]) c = Teardown.apply o (Teardown.run ops c).
Proof. unfold Teardown.run. by rewrite fold_left_app. Qed.

Lemma apply_without_session (o : Teardown.op) (c : Teardown.client) :
  Teardown.currentSession c = None -> Teardown.apply o c = c.
Proof.
  intros Hs. destruct o; cbn; unfold Teardown.answerCall, Teardown.reject,
    Teardown.hangup; by rewrite Hs.
Qed.

(** Whatever is done to a client, what has been called on its session
    is a number of [accept]s and then at most one method that ends the
    session, after which the client has no session. *)
Lemma session_ended_once (ops : list Teardown.op) (c : Teardown.client) :
  exists (answers : nat) (ending : list Teardown.method),
    Teardown.called (Teardown.run ops c) =
      Teardown.called c ++ replicate answers Teardown.Accept ++ ending /\
    (ending = [] \/
     exists m, ending = [m] /\ Teardown.ends_session m = true /\
               Teardown.currentSession (Teardown.run ops c) = None).
Proof.
  induction ops as [|o ops IH] using rev_ind.
  { exists 0%nat, []. cbn. rewrite app_nil_r. by split; [|left]. }
  rewrite teardown_run_snoc.
  destruct IH as (n & ending & Hcalled & Hend).
  set (c' := Teardown.run ops c) in *.
  destruct (Teardown.currentSession c') as [state|] eqn:Hs.
  - destruct Hend as [-> | (m & _ & _ & ?)]; [|done].
    rewrite app_nil_r in Hcalled.
    destruct o as [accepted|ok|now stop_throws ok|state']; cbn.
    + exists (S n), []. unfold Teardown.answerCall. rewrite Hs.
      split; [|by left]. rewrite app_nil_r.
      rewrite replicate_S_end.
      destruct accepted; cbn; by rewrite Hcalled, <- app_assoc.
    + exists n, [Teardown.Reject]. unfold Teardown.reject. rewrite Hs. cbn.
      split; [by rewrite Hcalled, <- app_assoc|]. right. by eexists.
    + exists n, [Teardown.terminate state]. unfold Teardown.hangup.
      rewrite Hs. cbn.
      split; [by rewrite Hcalled, <- app_assoc|]. right.
      eexists. split; [done|]. split; [by destruct state|done].
    + exists n, []. rewrite Hs. cbn. rewrite app_nil_r. by split; [|left].
  - rewrite (apply_without_session o c' Hs).
    exists n, ending. split; [done|].
    destruct Hend as [-> | (m & -> & Hm & _)]; [by left|right; by eexists].
Qed.

(** X20. [hangup] on a client that has a session ends it whatever happens:
    it returns what the session's method did, but the session is
    forgotten either way, the local stream is released with every one of
    its tracks stopped, and exactly one method of the session has been
    called: [cancel] in the states Initial and Establishing, [bye] in the
    state Established, [reject] in the states Terminating and Terminated.
    The tones are left as they are.  After that the client has no call:
    [hangup] and [reject] return [false] and do nothing, and [answerCall]
    throws.  And however the user answers, rejects and hangs up while the
    session changes its state, a session is ended at most once: what is
    called on it is a number of [accept]s followed by at most one of
    [cancel], [bye] and [reject], and once that one has been called the
    client has no session. *)
Theorem hangup_ends_the_call (now : Z) (stop_throws ok : bool)
  (c : Teardown.client) (state : Sip.SessionState) :
  Teardown.currentSession c = Some state ->
  let result := Teardown.hangup now stop_throws ok c in
  let c1 := result.1 in
  result.2 = ok /\
  Teardown.currentSession c1 = None /\
  Teardown.localStream c1 = None /\
  Teardown.called c1 =
    Teardown.called c ++
    [match state with
     | Sip.Initial | Sip.Establishing => Teardown.Cancel
     | Sip.Established => Teardown.Bye
     | Sip.Terminating | Sip.Terminated => Teardown.Reject
     end] /\
  Teardown.stopped c ⊆ Teardown.stopped c1 /\
  (forall ts t,
     Teardown.localStream c = Some ts -> t ∈ ts -> t ∈ Teardown.stopped c1) /\
  Teardown.tones c1 = Teardown.tones c /\
  (forall now' stop_throws' ok',
     Teardown.hangup now' stop_throws' ok' c1 = (c1, false)) /\
  (forall ok', Teardown.reject ok' c1 = (c1, false)) /\
  (forall accepted,
     Teardown.answerCall accepted c1 =
       (c1, Throw (Error "No incoming call to answer"))) /\
  (forall ops,
     Teardown.called (Teardown.run ops c1) = Teardown.called c1 /\
     Teardown.currentSession (Teardown.run ops c1) = None) /\
  (forall ops,
     exists (answers : nat) (ending : list Teardown.method),
       Teardown.called (Teardown.run ops c) =
         Teardown.called c ++ replicate answers Teardown.Accept ++ ending /\
       (ending = [] \/
        exists m,
          ending = [m] /\
          (m = Teardown.Cancel \/ m = Teardown.Bye \/ m = Teardown.Reject) /\
          Teardown.currentSession (Teardown.run ops c) = None)).
Proof.
  intros Hs. cbv zeta. split; [|split; [|split; [|split; [|split; [|split;
    [|split; [|split; [|split; [|split; [|split]]]]]]]]]].
  12:{ intros ops.
       destruct (session_ended_once ops c)
         as (n & ending & Hcalled & [-> | (m & -> & Hm & Hnone)]).
       - exists n, []. by split; [|left].
       - exists n, [m]. split; [done|]. right. exists m.
         split; [done|]. split; [|done].
         destruct m; try discriminate; auto. }
  11:{ intros ops.
       assert (Teardown.currentSession
                 (Teardown.hangup now stop_throws ok c).1 = None) as Hnone.
       { unfold Teardown.hangup. by rewrite Hs. }
       induction ops as [|o ops IH] using rev_ind; [done|].
       rewrite teardown_run_snoc. destruct IH as [IHc IHs].
       by rewrite (apply_without_session o _ IHs). }
  all: unfold Teardown.hangup; rewrite Hs; cbn.
  - done.
  - done.
  - done.
  - by destruct state.
  - destruct (Teardown.localStream c); set_solver.
  - intros ts t -> Ht. set_solver.
  - done.
  - done.
  - done.
  - done.
Qed.

Lemma hangup_ends_the_call_witness :
  let client state :=
    Teardown.mkClient true true true (Some state) []
      Tones.initCallTones (Some [1%nat]) ∅
      (Recording.boot Scenario.in_call) in
  Teardown.called
    (Teardown.hangup 9000 false false (client Sip.Establishing)).1 =
    [Teardown.Cancel] /\
  Teardown.called
    (Teardown.hangup 9000 false true (client Sip.Established)).1 =
    [Teardown.Bye] /\
  Teardown.called
    (Teardown.hangup 9000 false true (client Sip.Terminated)).1 =
    [Teardown.Reject].
Proof.
  cbv beta zeta. split; [|split].
  - destruct (hangup_ends_the_call 9000 false false
                (Teardown.mkClient true true true (Some Sip.Establishing) []
                   Tones.initCallTones (Some [1%nat]) ∅
                   (Recording.boot Scenario.in_call))
                Sip.Establishing eq_refl)
      as (_ & _ & _ & H & _).
    exact H.
  - destruct (hangup_ends_the_call 9000 false true
                (Teardown.mkClient true true true (Some Sip.Established) []
                   Tones.initCallTones (Some [1%nat]) ∅
                   (Recording.boot Scenario.in_call))
                Sip.Established eq_refl)
      as (_ & _ & _ & H & _).
    exact H.
  - destruct (hangup_ends_the_call 9000 false true
                (Teardown.mkClient true true true (Some Sip.Terminated) []
                   Tones.initCallTones (Some [1%nat]) ∅
                   (Recording.boot Scenario.in_call))
                Sip.Terminated eq_refl)
      as (_ & _ & _ & H & _).
    exact H.
Defined.

(** X21. [disconnect] always leaves the client without a session, whether
    the hang-up went well or not.  It returns [true], and the client no
    longer counts as registered, only when unregistering and stopping the
    user agent both went well; when [unregister()] fails the user agent
    is not stopped, [false] is returned and the client counts as
    registered exactly as before. *)
Theorem disconnect_outcome (now : Z)
  (stop_throws hangup_ok unregistered stopped_ok : bool)
  (c : Teardown.client) :
  let result :=
    Teardown.disconnect now stop_throws hangup_ok unregistered stopped_ok c in
  let c1 := result.1 in
  Teardown.currentSession c1 = None /\
  result.2 =
    (if Teardown.userAgent c && Teardown.registerer c
     then unregistered else true) &&
    (if Teardown.userAgent c then stopped_ok else true) /\
  Teardown.isRegistered c1 =
    (if result.2 then false else Teardown.isRegistered c) /\
  (Teardown.userAgent c = true -> Teardown.registerer c = true ->
   unregistered = false ->
   result.2 = false /\
   Teardown.called c1 =
     Teardown.called c ++
     from_option (fun state => [Teardown.terminate state]) []
       (Teardown.currentSession c) ++
     [Teardown.Unregister]).
Proof.
  unfold Teardown.disconnect.
  assert (exists c0,
            match Teardown.currentSession c with
            | Some _ => (Teardown.hangup now stop_throws hangup_ok c).1
            | None => c
            end = c0 /\
            Teardown.currentSession c0 = None /\
            Teardown.userAgent c0 = Teardown.userAgent c /\
            Teardown.registerer c0 = Teardown.registerer c /\
            Teardown.isRegistered c0 = Teardown.isRegistered c /\
            Teardown.called c0 =
              Teardown.called c ++
              from_option (fun state => [Teardown.terminate state]) []
                (Teardown.currentSession c))
    as (c0 & -> & Hs & Hua & Hreg & Hir & Hcalled).
  { eexists. split; [reflexivity|]. unfold Teardown.hangup.
    destruct (Teardown.currentSession c) as [state|] eqn:E; cbn.
    - done.
    - by rewrite E, app_nil_r. }
  cbv zeta. destruct c0 as [ua reg ir cs cl tn ls st rec].
  cbn in Hs, Hua, Hreg, Hir, Hcalled. subst ua reg ir cs cl.
  destruct (Teardown.userAgent c), (Teardown.registerer c),
    unregistered, stopped_ok; cbn; rewrite <- ?app_assoc;
    repeat split; done.
Qed.

Lemma disconnect_outcome_witness :
  (Teardown.disconnect 9000 false true false true
     (Teardown.mkClient true true true (Some Sip.Established) []
        Tones.initCallTones (Some [1%nat]) ∅
        (Recording.boot Scenario.in_call))).2 = false.
Proof.
  destruct (disconnect_outcome 9000 false true false true
              (Teardown.mkClient true true true (Some Sip.Established) []
                 Tones.initCallTones (Some [1%nat]) ∅
                 (Recording.boot Scenario.in_call)))
    as (_ & _ & _ & H).
  destruct (H eq_refl eq_refl eq_refl) as [Hr _]. exact Hr.
Defined.

(** ** The indicators of the systray *)

(** X22. When the peer rejects the hold, [holdCall] has already returned
    [true], so the systray marks the call as on hold although the client
    has set its own flag back to [false], has touched no track, and has
    sent just the one re-INVITE.  Only when the re-INVITE cannot be sent,
    so that [holdCall] throws, is the indicator left as it was. *)
Theorem systray_shows_hold_after_rejection (ui : Systray.state)
  (c : Microphone.client) (s : Sip.Session) (opts : option bool) :
  Systray.voipClient ui = Some c ->
  Sip.currentSession (Microphone.sip c) = Some s ->
  Sip.isOnHold s <> Some true ->
  Sip.sessionDescriptionHandlerOptionsReInvite s = Some opts ->
  let ui' := Systray.holdCurrentCall Hold.Rejected ui in
  Systray.isOnHold ui' = true /\
  (exists c' s',
     Systray.voipClient ui' = Some c' /\
     Sip.currentSession (Microphone.sip c') = Some s' /\
     Sip.isOnHold s' = Some false /\
     Sip.tracks (Microphone.sip c') = Sip.tracks (Microphone.sip c) /\
     Sip.sent s' = Sip.sent s ++ [Sip.ReInvite true]) /\
  (forall e,
     Systray.isOnHold (Systray.holdCurrentCall (Hold.Failed e) ui) =
       Systray.isOnHold ui).
Proof.
  intros Hc Hs Hheld Hopts.
  unfold Systray.holdCurrentCall. rewrite Hc, Hs.
  unfold Hold.holdCall, Hold.attempt, Hold.holdCall_begin, Hold.begin.
  rewrite Hs. rewrite bool_decide_eq_false_2 by done.
  cbn. rewrite Hopts. cbn. split; [done|]. split; [|done].
  do 2 eexists. by repeat split.
Qed.

Lemma systray_shows_hold_after_rejection_witness :
  Systray.isOnHold
    (Systray.holdCurrentCall Hold.Rejected
       (Systray.mkState
          (Some (Microphone.mkClient Scenario.established (Some [1%nat])))
          false false)) = true.
Proof.
  destruct (systray_shows_hold_after_rejection
              (Systray.mkState
                 (Some (Microphone.mkClient Scenario.established (Some [1%nat])))
                 false false)
              (Microphone.mkClient Scenario.established (Some [1%nat]))
              Scenario.established_session None
              eq_refl eq_refl ltac:(discriminate) eq_refl)
    as (H & _).
  exact H.
Defined.

(** X23. Muting from the systray and then resuming the call leaves the
    indicator on "muted" while the microphone is live: the resume, once
    accepted, enables every sender track, among them the audio tracks of
    the local stream that [muteMicrophone] had disabled, and nothing
    tells the systray. *)
Theorem systray_shows_mute_after_resume (ui : Systray.state)
  (c : Microphone.client) (c2 : Sip.client) (ts : list nat)
  (s : Sip.Session) (pc : Sip.PeerConnection) (now : string) :
  Systray.voipClient ui = Some c ->
  Systray.isMuted ui = false ->
  Microphone.localStream c = Some ts ->
  Sip.currentSession (Microphone.sip c) = Some s ->
  Sip.sessionDescriptionHandler s = Some (Sip.mkSDH (Some pc)) ->
  Sip.isOnHold s <> Some false ->
  Hold.resumeCall (Hold.Accepted now)
    (Microphone.sip (Microphone.muteMicrophone c).1) =
    (c2, Hold.mkReport (Return true) None) ->
  let ui1 := Systray.toggleMute ui in
  let ui2 := Systray.resumeCall (Hold.Accepted now) ui1 in
  Systray.isMuted ui1 = true /\
  Systray.isMuted ui2 = true /\
  Systray.isOnHold ui2 = false /\
  Systray.voipClient ui2 =
    Some (Systray.with_sip c2 (Microphone.muteMicrophone c).1) /\
  forall k t,
    k ∈ ts -> Some k ∈ Sip.senders pc ->
    Sip.tracks (Microphone.sip c) !! k = Some t ->
    Sip.kind t = Sip.audio ->
    Sip.tracks c2 !! k = Some (Sip.set_enabled true t).
Proof.
  intros Hc Hm Hts Hs Hpc Hflag Hresume.
  assert (Sip.currentSession (Microphone.sip (Microphone.muteMicrophone c).1)
          = Some s) as Hs'.
  { unfold Microphone.muteMicrophone, Microphone.switch. by rewrite Hts. }
  unfold Systray.toggleMute, Systray.resumeCall. rewrite Hc, Hm.
  cbn [Systray.voipClient Systray.isMuted Systray.isOnHold].
  rewrite Hs', Hresume. cbn.
  split; [done|]. split; [done|]. split; [done|]. split; [done|].
  intros k t Hk Hsender Ht Haudio.
  by destruct (resumeCall_after_mute c c2 ts s pc now Hts Hs Hpc Hflag Hresume
                 k t Hk Hsender Ht Haudio).
Qed.

Lemma systray_shows_mute_after_resume_witness :
  Systray.isMuted
    (Systray.resumeCall (Hold.Accepted "2026-01-01T10:00:09.000Z")
       (Systray.toggleMute
          (Systray.mkState
             (Some (Microphone.mkClient Scenario.on_hold (Some [1%nat])))
             false true))) = true.
Proof.
  destruct (systray_shows_mute_after_resume
              (Systray.mkState
                 (Some (Microphone.mkClient Scenario.on_hold (Some [1%nat])))
                 false true)
              (Microphone.mkClient Scenario.on_hold (Some [1%nat])) _ [1%nat]
              _ (Sip.mkPC [Some 0%nat] [Some 1%nat]) "2026-01-01T10:00:09.000Z"
              eq_refl eq_refl eq_refl eq_refl eq_refl ltac:(discriminate)
              eq_refl)
    as (_ & H & _).
  exact H.
Defined.

(** ** Recording: the bytes that are uploaded *)

Lemma recording_run_app (es1 es2 : list Recording.event)
  (sys : Recording.system) :
  Recording.run (es1 ++ es2) sys = Recording.run es2 (Recording.run es1 sys).
Proof. apply fold_left_app. Qed.

Lemma recording_run_cons (e : Recording.event) (es : list Recording.event)
  (sys : Recording.system) :
  Recording.run (e :: es) sys = Recording.run es (Recording.step e sys).
Proof. reflexivity. Qed.

Lemma recording_run_one (e : Recording.event) (sys : Recording.system) :
  Recording.run [e] sys = Recording.step e sys.
Proof. reflexivity. Qed.

Lemma data_run (ds : list Recording.Blob) (sys : Recording.system) :
  exists new,
    Recording.run (map Recording.DataAvailable ds) sys =
      Recording.with_client
        (Recording.set_chunks
           (Recording.recordedChunks (Recording.client sys) ++ new)
           (Recording.client sys))
        sys /\
    concat new = concat ds /\
    (new = [] <-> concat ds = []).
Proof.
  revert sys. induction ds as [|d ds IH]; intros sys.
  - exists []. rewrite app_nil_r. by destruct sys as [[] ? ? ?].
  - cbn [map]. rewrite recording_run_cons. cbn [Recording.step].
    destruct (IH (Recording.with_client
                    (Recording.ondataavailable d (Recording.client sys)) sys))
      as (new & -> & Hnew & Hempty).
    unfold Recording.ondataavailable, Recording.size.
    destruct d as [|b d]; cbn [length].
    + exists new. by destruct sys as [[] ? ? ?].
    + destruct (Z.ltb_spec 0 (Z.of_nat (S (length d)))); [|lia].
      exists ((b :: d) :: new). cbn. rewrite <- app_assoc, Hnew.
      by destruct sys as [[] ? ? ?].
Qed.

(** X24. A recording is uploaded whole and in order.  When a recording is
    started on a client that is not recording, chunks arrive, the
    recording is stopped, more chunks may arrive, and the recorder then
    reports that it has stopped, exactly one request is sent, and its
    recording is the bytes of all those chunks in the order they came,
    whatever was left in the client from an earlier call; when the
    chunks hold no byte at all, nothing is sent.  A recording cannot be
    started without a stream: that call changes nothing. *)
Theorem recording_is_uploaded_in_order (sys : Recording.system) (n : nat)
  (ds1 ds2 : list Recording.Blob) (now now' : Z) :
  (forall r, Recording.mediaRecorder (Recording.client sys) = Some r ->
             Recording.rstate r = Recording.inactive) ->
  n <> 0%nat ->
  let es :=
    [Recording.StartRecording (Some n) true true] ++
    map Recording.DataAvailable ds1 ++
    [Recording.StopRecording now false] ++
    map Recording.DataAvailable ds2 ++
    [Recording.RecorderStopped now'] in
  let sys' := Recording.run es sys in
  (concat (ds1 ++ ds2) = [] -> Recording.posts sys' = Recording.posts sys) /\
  (concat (ds1 ++ ds2) <> [] ->
   exists r,
     Recording.posts sys' = Recording.posts sys ++ [r] /\
     Recording.req_recording r = concat (ds1 ++ ds2) /\
     Recording.req_call_id r =
       str_or (Recording.odooCallId (Recording.client sys)) "unknown") /\
  (forall created started,
     Recording.step (Recording.StartRecording None created started) sys = sys).
Proof.
  intros Hidle Hn es sys'. apply and_assoc. split.
  2:{ intros created started. cbn. unfold Recording.startRecording.
      destruct sys as [[[[[] p]|] ch sv svg st et id] inf ps acc]; reflexivity. }
  subst sys' es.
  rewrite !recording_run_app, !recording_run_one. cbn [Recording.step].
  destruct (data_run ds1
              (Recording.with_client
                 (Recording.startRecording (Some n) true true (Recording.client sys))
                 sys))
    as (new1 & -> & Hnew1 & Hempty1).
  assert (Recording.startRecording (Some n) true true (Recording.client sys) =
          Recording.set_recorder
            (Some (Recording.mkRecorder Recording.recording false))
            (Recording.set_saving false
               (Recording.set_saved false
                  (Recording.set_chunks [] (Recording.client sys))))) as ->.
  { unfold Recording.startRecording.
    destruct (Recording.mediaRecorder (Recording.client sys)) as [[[] p]|] eqn:E;
      try (specialize (Hidle _ eq_refl); discriminate);
      by rewrite bool_decide_eq_false_2 by done. }
  destruct sys as [[mr ch sv svg st et id] inf ps acc].
  cbn.
  match goal with
  | |- context [Recording.run (map Recording.DataAvailable ds2) ?s0] =>
      destruct (data_run ds2 s0) as (new2 & -> & Hnew2 & Hempty2)
  end.
  cbn.
  unfold Recording.onstop.
  cbn.
  rewrite concat_app, <- Hnew1, <- Hnew2, <- concat_app.
  assert (new1 ++ new2 = [] <-> concat (new1 ++ new2) = []) as Hboth.
  { rewrite concat_app, Hnew1, Hnew2. split.
    - intros [-> ->]%app_eq_nil. by rewrite (proj1 Hempty1), (proj1 Hempty2).
    - intros [H1 H2]%app_eq_nil.
      by rewrite (proj2 Hempty1 H1), (proj2 Hempty2 H2). }
  case_bool_decide as Hch.
  - split; [done|]. intros Hne. by destruct Hne, (proj1 Hboth).
  - split; [intros He; by destruct Hch, (proj2 Hboth)|]. intros _.
    unfold Recording.call_saveRecording, Recording.saveRecording_start.
    cbn.
    rewrite bool_decide_eq_false_2 by done.
    cbn [Recording.posts]. eexists. split; [reflexivity|]. by cbn.
Qed.

Lemma recording_is_uploaded_in_order_witness :
  exists r,
    Recording.posts
      (Recording.run
         ([Recording.StartRecording (Some 2%nat) true true] ++
          map Recording.DataAvailable [Scenario.chunk1; []] ++
          [Recording.StopRecording 6000 false] ++
          map Recording.DataAvailable [Scenario.chunk2] ++
          [Recording.RecorderStopped 6100])
         (Recording.boot Scenario.two_chunks)) = [r] /\
    Recording.req_recording r = Scenario.chunk1 ++ Scenario.chunk2.
Proof.
  destruct (recording_is_uploaded_in_order (Recording.boot Scenario.two_chunks)
              2 [Scenario.chunk1; []] [Scenario.chunk2] 6000 6100)
    as (_ & H & _).
  - intros r [= <-]. reflexivity.
  - discriminate.
  - destruct H as (r & Hp & Hr & _); [discriminate|].
    exists r. split; [exact Hp | exact Hr].
Defined.

(** ** Loading SIP.js *)

Lemma later_refl (p : Loader.page) : Loader.later p p.
Proof. by split. Qed.

Lemma later_trans (p1 p2 p3 : Loader.page) :
  Loader.later p1 p2 -> Loader.later p2 p3 -> Loader.later p1 p3.
Proof.
  intros [H1 H2] [H3 H4]. split.
  - intros pr Hpr. destruct (H1 pr Hpr) as [Ha Hb].
    destruct (H3 pr Ha) as [Hc Hd]. split; [done|congruence].
  - intros pr o Ho Hne. apply H4; [|done]. by apply H2.
Qed.

Lemma settle_later (pr : nat) (o : Loader.settled) (p : Loader.page) :
  Loader.tidy p ->
  Loader.tidy (Loader.settle pr o p) /\ Loader.later p (Loader.settle pr o p).
Proof.
  intros (Hpr & Hnone & Hone). unfold Loader.settle.
  destruct (Loader.promises p !! pr) as [[| |]|] eqn:E;
    try (split; [by repeat split | apply later_refl]).
  split.
  - repeat split; cbn; try done. intros pr' H.
    rewrite length_insert. by apply Hpr.
  - split; cbn; [done|]. intros pr' o' Ho' Hne.
    destruct (decide (pr = pr')) as [<-|Hd].
    + rewrite E in Ho'. by injection Ho' as <-.
    + by rewrite list_lookup_insert_ne.
Qed.

Lemma loadSipLibrary_later (p : Loader.page) :
  Loader.tidy p ->
  Loader.tidy (Loader.loadSipLibrary p).1 /\
  Loader.later p (Loader.loadSipLibrary p).1 /\
  (forall pr, Loader.sipLoadPromise p = Some pr ->
              Loader.loadSipLibrary p = (p, pr)).
Proof.
  intros (Hpr & Hnone & Hone). unfold Loader.loadSipLibrary.
  destruct (Loader.sipLoadPromise p) as [pr|] eqn:E.
  { cbn. split; [by repeat split; rewrite ?E|].
    split; [apply later_refl|]. by intros ? [= <-]. }
  assert (forall pr o l, Loader.promises p !! pr = Some o ->
            (Loader.promises p ++ l) !! pr = Some o) as Hgrow.
  { intros pr o l Ho. rewrite lookup_app_l; [done|]. by eapply lookup_lt_Some. }
  destruct (Loader.SIP p); cbn.
  - split; [|split; [|done]].
    + repeat split; cbn; [done|by apply Hnone|done].
    + split; cbn; [by rewrite E|]. intros pr o Ho _. by apply Hgrow.
  - split; [|split; [|done]].
    + repeat split; cbn.
      * intros pr [= <-]. rewrite length_app. cbn. lia.
      * done.
      * rewrite (Hnone eq_refl). cbn. lia.
    + split; cbn; [by rewrite E|]. intros pr o Ho _. by apply Hgrow.
Qed.

Lemma handle_later (e : Loader.event) (p : Loader.page) :
  Loader.tidy p ->
  Loader.tidy (Loader.handle e p) /\ Loader.later p (Loader.handle e p).
Proof.
  intros Ht. destruct e as [| | |i|i]; cbn [Loader.handle].
  - by destruct (loadSipLibrary_later p Ht) as (? & ? & _).
  - unfold Loader.preload. destruct (Loader.SIP p).
    + split; [done|apply later_refl].
    + by destruct (loadSipLibrary_later p Ht) as (? & ? & _).
  - split; [exact Ht|by split].
  - unfold Loader.onload_timer.
    destruct (Loader.appended p !! i) as [[url pr]|];
      [|split; [done|apply later_refl]].
    destruct (Loader.SIP p); by apply settle_later.
  - unfold Loader.onerror.
    destruct (Loader.appended p !! i) as [[url pr]|];
      [|split; [done|apply later_refl]].
    by apply settle_later.
Qed.

Lemma run_later (es : list Loader.event) (p : Loader.page) :
  Loader.tidy p ->
  Loader.tidy (Loader.run es p) /\ Loader.later p (Loader.run es p).
Proof.
  revert p. induction es as [|e es IH]; intros p Ht.
  - split; [done|apply later_refl].
  - change (Loader.run (e :: es) p)
      with (Loader.run es (Loader.handle e p)).
    destruct (handle_later e p Ht) as [Ht1 Hl1].
    destruct (IH _ Ht1) as [Ht2 Hl2].
    split; [done|]. by eapply later_trans.
Qed.

(** X25. SIP.js is asked for once at most: whatever is called and whatever
    happens on the page, the loader appends at most one script element.
    Once [loadSipLibrary] has made its promise, every later call returns
    that same promise and appends nothing; so when the promise has been
    rejected (the script failed to load, or ran without defining
    [window.SIP] in time) every later call is rejected with the same
    message, also after [window.SIP] has become defined: a failed load
    is never tried again. *)
Theorem sip_library_is_requested_once (SIP : bool) (origin : string)
  (scripts : list string) (es es' : list Loader.event) :
  let p := Loader.run es (Loader.boot SIP origin scripts) in
  let p' := Loader.run es' p in
  (length (Loader.appended p) <= 1)%nat /\
  forall pr,
    Loader.sipLoadPromise p = Some pr ->
    Loader.loadSipLibrary p' = (p', pr) /\
    Loader.appended p' = Loader.appended p /\
    forall message,
      Loader.promises p !! pr = Some (Loader.Rejected message) ->
      Loader.promises (Loader.define p') !! pr =
        Some (Loader.Rejected message) /\
      Loader.loadSipLibrary (Loader.define p') = (Loader.define p', pr).
Proof.
  intros p p'.
  assert (Loader.tidy (Loader.boot SIP origin scripts)) as H0.
  { repeat split; cbn; [done|lia]. }
  destruct (run_later es _ H0) as [Ht _]. fold p in Ht.
  destruct (run_later es' p Ht) as [Ht' [Hset Hsettled]]. fold p' in Ht', Hset, Hsettled.
  split; [apply Ht|]. intros pr Hpr.
  destruct (Hset pr Hpr) as [Hpr' Happ].
  split; [by apply loadSipLibrary_later|]. split; [done|].
  intros message Hrej. split.
  - cbn. by apply Hsettled.
  - unfold Loader.loadSipLibrary. cbn. by rewrite Hpr'.
Qed.

Lemma sip_library_is_requested_once_witness :
  Loader.promises
    (Loader.define
       (Loader.run [Loader.Defined; Loader.Call; Loader.Loaded 0]
          (Loader.run [Loader.Preload; Loader.Failed 0]
             (Loader.boot false "https://odoo.example.com"
                ["https://odoo.example.com/web/assets/1/web.assets_web.min.js"]))))
    !! 0%nat =
  Some (Loader.Rejected
          "Failed to load SIP.js from https://odoo.example.com/voip_webrtc_freepbx/static/src/js/sip.min.js").
Proof.
  destruct (sip_library_is_requested_once false "https://odoo.example.com"
              ["https://odoo.example.com/web/assets/1/web.assets_web.min.js"]
              [Loader.Preload; Loader.Failed 0]
              [Loader.Defined; Loader.Call; Loader.Loaded 0])
    as [_ H].
  destruct (H 0%nat eq_refl) as (_ & _ & Hrej).
  destruct (Hrej _ eq_refl) as [Hp _]. exact Hp.
Defined.
